(** * daisy-engine: the client and server [Room] of packages/*/src/lib/room.ts

    A shallow embedding of the two [Room] classes (the client-side one and the
    server-side one) and the properties of their wire codec, handler tables,
    connection-result resolution, latency window, session registry and
    fixed-timestep ticker.

    Conventions.
    - A JavaScript number that the code uses as an integer is a [Z]. The
      server ticker computes with doubles: module [Binary64] has it over the
      kernel's binary64 numbers; module [Server] has it over rationals ([Q]),
      for what rests on its flags and on the order of numbers alone.
    - A [Buffer] is a list of bytes; a JavaScript string is the list of its
      UTF-16 code units.
    - A [throw] is the [Throw] constructor of [Result].
    - Application callbacks (message handlers, observers, hooks) are opaque:
      an invocation is recorded in a trace of effects. *)

From Stdlib Require Import ZArith List Bool Lia QArith Qround Qpower Lqa.
From Stdlib Require Strings.Byte.
From Stdlib Require Floats.
Import ListNotations.

Close Scope Q_scope.
Open Scope Z_scope.

(* ================================================================== *)
(** ** JavaScript values used by the two classes *)
(* ================================================================== *)

Abbreviation byte := Corelib.Init.Byte.byte.

Definition Buffer := list byte.

(** A string, as the sequence of its UTF-16 code units. *)
Definition JsString := list Z.

Definition code_unit (c : Z) : Prop := 0 <= c < 65536.
Definition wf_string (s : JsString) : Prop := Forall code_unit s.

Definition str_length (s : JsString) : Z := Z.of_nat (length s).
Definition buf_length (b : Buffer) : Z := Z.of_nat (length b).

Inductive JsError : Type :=
| ERR_OUT_OF_RANGE                       (* RangeError of the Buffer API *)
| ERR_EVENT_ID_RANGE                     (* 'When using numbers, Event ID must be in range 0-255!' *)
| ERR_INVALID_DATA_TYPE (dataType : option Z). (* `Invalid dataType for message: ${dataType}` *)

Inductive Result (A : Type) : Type :=
| Ok (a : A)
| Throw (e : JsError).
Arguments Ok {A} a.
Arguments Throw {A} e.

Definition bind {A B} (r : Result A) (k : A -> Result B) : Result B :=
  match r with
  | Ok a => k a
  | Throw e => Throw e
  end.

Notation "x <- r ;; k" := (bind r (fun x => k))
  (at level 61, r at next level, right associativity).
Notation "' p <- r ;; k" := (bind r (fun x => let p := x in k))
  (at level 61, p pattern, r at next level, right associativity).

(** [event: string | number], a number being an integer. The values that the
    declared type leaves out - a number that is no integer or is NaN, and on
    the server, whose type parameters are unconstrained, a value that is
    neither a number nor a string - are not events of this type. *)
Inductive EventId : Type :=
| EvNumber (n : Z)
| EvString (s : JsString).

(** [message: Buffer | string]; a value of another type, which the server's
    unconstrained type parameter admits, is not a content of this type. *)
Inductive Content : Type :=
| CBuffer (b : Buffer)
| CString (s : JsString).

Definition EventId_eq_dec (a b : EventId) : {a = b} + {a <> b}.
Proof.
  decide equality; [apply Z.eq_dec | apply (list_eq_dec Z.eq_dec)].
Defined.

(* ================================================================== *)
(** ** The Buffer API *)
(* ================================================================== *)

Definition Z_of_byte (b : byte) : Z := Z.of_N (Byte.to_N b).

Definition byte_of_Z (v : Z) : byte :=
  match Byte.of_N (Z.to_N (v mod 256)) with
  | Some b => b
  | None => Byte.x00
  end.

(** [buf[i]]: [undefined] past the end. *)
Definition index (buf : Buffer) (i : nat) : option Z :=
  option_map Z_of_byte (nth_error buf i).

(** [buf.readUInt8(offset)] *)
Definition readUInt8 (buf : Buffer) (offset : nat) : Result Z :=
  match nth_error buf offset with
  | Some b => Ok (Z_of_byte b)
  | None => Throw ERR_OUT_OF_RANGE
  end.

(** [buf.readUInt16LE(offset)] *)
Definition readUInt16LE (buf : Buffer) (offset : nat) : Result Z :=
  match nth_error buf offset, nth_error buf (offset + 1) with
  | Some b0, Some b1 => Ok (Z_of_byte b0 + 256 * Z_of_byte b1)
  | _, _ => Throw ERR_OUT_OF_RANGE
  end.

(** [buf.readUInt32LE(offset)] *)
Definition readUInt32LE (buf : Buffer) (offset : nat) : Result Z :=
  match nth_error buf offset, nth_error buf (offset + 1),
        nth_error buf (offset + 2), nth_error buf (offset + 3) with
  | Some b0, Some b1, Some b2, Some b3 =>
      Ok (Z_of_byte b0 + 256 * Z_of_byte b1
          + 65536 * Z_of_byte b2 + 16777216 * Z_of_byte b3)
  | _, _, _, _ => Throw ERR_OUT_OF_RANGE
  end.

Fixpoint utf16le_decode (bs : list byte) : JsString :=
  match bs with
  | b0 :: b1 :: rest => (Z_of_byte b0 + 256 * Z_of_byte b1) :: utf16le_decode rest
  | _ => []
  end.

Definition utf16le_unit (c : Z) : list byte :=
  [byte_of_Z c; byte_of_Z (c / 256)].

Definition utf16le_encode (s : JsString) : list byte :=
  flat_map utf16le_unit s.

(** [buf.subarray(start)] *)
Definition subarray_from (buf : Buffer) (start : nat) : Buffer := skipn start buf.

(** [buf.toString('utf16le', start, end)]: [end] is clamped to the length of
    the buffer, an empty range gives the empty string, and an odd trailing
    byte is dropped. *)
Definition toString_utf16le (buf : Buffer) (start end_ : nat) : JsString :=
  utf16le_decode (firstn (end_ - start) (skipn start buf)).

(** The pre-allocated send buffer: [Buffer.alloc(16 * 1024 * 1024)]. *)
Definition BUFFER_SIZE : Z := 16 * 1024 * 1024.

(** A message being packed. Both [_packMessage] functions write the scratch
    buffer from offset 0 upwards, each write at [ref.value], and return
    [subarray(0, ref.value)]: the bytes written so far are the scratch
    buffer's prefix of length [ref.value], which is what a [Packing] holds. *)
Definition Packing := list byte.

Definition ref_value (out : Packing) : Z := Z.of_nat (length out).

(** [buf.writeUInt8(value, ref.value++)] *)
Definition writeUInt8 (value : Z) (out : Packing) : Result Packing :=
  if (0 <=? value) && (value <=? 255) && (ref_value out + 1 <=? BUFFER_SIZE)
  then Ok (out ++ [byte_of_Z value])
  else Throw ERR_OUT_OF_RANGE.

(** [buf.writeUInt16LE(value, ref.value); ref.value += 2] *)
Definition writeUInt16LE (value : Z) (out : Packing) : Result Packing :=
  if (0 <=? value) && (value <=? 65535) && (ref_value out + 2 <=? BUFFER_SIZE)
  then Ok (out ++ [byte_of_Z value; byte_of_Z (value / 256)])
  else Throw ERR_OUT_OF_RANGE.

(** [ref.value += buf.write(s, ref.value, 'utf16le')]: writes the code units
    that fit whole in the rest of the buffer. *)
Definition write_utf16le (s : JsString) (out : Packing) : Packing :=
  let fit := Z.min (str_length s) ((BUFFER_SIZE - ref_value out) / 2) in
  out ++ utf16le_encode (firstn (Z.to_nat fit) s).

(** [ref.value += data.copy(buf, ref.value, 0)]: copies the bytes that fit. *)
Definition copy (data : Buffer) (out : Packing) : Packing :=
  let fit := Z.min (buf_length data) (BUFFER_SIZE - ref_value out) in
  out ++ firstn (Z.to_nat fit) data.

(** [_packMessage(event, data)], the same text in both classes but for the
    protocol constant written first ([ClientProtocol.UserPacket] on the
    client, [ServerProtocol.UserPacket] on the server), here [userPacket].
    Each of its two [if / else if] chains has a branch for each constructor;
    neither has a final [else], so that for a value of another type the
    source writes nothing: such values are outside [EventId] and [Content]. *)
Definition _packMessage (userPacket : Z) (event : EventId) (data : Content)
  : Result Buffer :=
  out <- writeUInt8 userPacket [] ;;
  out <- match event with
         | EvNumber n =>
             out <- writeUInt8 0 out ;;
             writeUInt8 n out
         | EvString s =>
             out <- writeUInt8 1 out ;;
             out <- writeUInt16LE (str_length s) out ;;
             Ok (write_utf16le s out)
         end ;;
  out <- match data with
         | CBuffer b =>
             out <- writeUInt8 0 out ;;
             Ok (copy b out)
         | CString s =>
             out <- writeUInt8 1 out ;;
             out <- writeUInt16LE (str_length s) out ;;
             Ok (write_utf16le s out)
         end ;;
  Ok out.

(* ================================================================== *)
(** ** The wire format of a UserPacket, as section 4.1 of the spec lays it out *)
(* ================================================================== *)

Module Wire.

Definition u16le (n : Z) : list byte := [byte_of_Z n; byte_of_Z (n / 256)].

(** [[u16 len][len*2 bytes text]] *)
Definition text (s : JsString) : list byte :=
  u16le (str_length s) ++ utf16le_encode s.

(** [[eventTag][eventBody]] *)
Definition event (e : EventId) : list byte :=
  match e with
  | EvNumber n => [byte_of_Z 0; byte_of_Z n]
  | EvString s => byte_of_Z 1 :: text s
  end.

(** [[payloadTag][payloadBody]] *)
Definition payload (d : Content) : list byte :=
  match d with
  | CBuffer b => byte_of_Z 0 :: b
  | CString s => byte_of_Z 1 :: text s
  end.

(** [[kindTag][eventTag][eventBody][payloadTag][payloadBody]] *)
Definition UserPacket (kindTag : Z) (e : EventId) (d : Content) : list byte :=
  byte_of_Z kindTag :: event e ++ payload d.

(** A numeric event id is in 0-255; a string is a sequence of code units. *)
Definition valid_event (e : EventId) : Prop :=
  match e with
  | EvNumber n => 0 <= n <= 255
  | EvString s => wf_string s
  end.

Definition valid_content (d : Content) : Prop :=
  match d with
  | CBuffer _ => True
  | CString s => wf_string s
  end.

(** What the format can carry: a length field is a u16, and the frame has to
    fit in the send buffer. *)
Definition event_fits (e : EventId) : Prop :=
  match e with
  | EvNumber _ => True
  | EvString s => str_length s <= 65535
  end.

Definition content_fits (kindTag : Z) (e : EventId) (d : Content) : Prop :=
  match d with
  | CBuffer _ => buf_length (UserPacket kindTag e d) <= BUFFER_SIZE
  | CString s => str_length s <= 65535
  end.

(** A payload of as many bytes as the whole send buffer has. *)
Definition oversize_payload : Buffer := repeat Byte.x00 (Z.to_nat BUFFER_SIZE).

(** What [_packMessage] can write without a [throw]: a numeric event that is
    a byte, and strings whose length is a u16. *)
Definition event_encodable (e : EventId) : Prop :=
  match e with
  | EvNumber n => 0 <= n <= 255
  | EvString s => str_length s <= 65535
  end.

Definition content_encodable (d : Content) : Prop :=
  match d with
  | CBuffer _ => True
  | CString s => str_length s <= 65535
  end.

End Wire.

(* ================================================================== *)
(** ** Containers: [Map], [Set] and plain objects *)
(* ================================================================== *)

(** A JavaScript [Map]: one entry per key, iterated in insertion order. *)
Module JsMap.
Section JsMap.
Context {K V : Type} (eq_dec : forall a b : K, {a = b} + {a <> b}).

Definition t := list (K * V).

Fixpoint get (m : t) (k : K) : option V :=
  match m with
  | [] => None
  | (k', v) :: rest => if eq_dec k k' then Some v else get rest k
  end.

(** [m.set(k, v)]: an existing key keeps its place, a new one goes last. *)
Fixpoint set (m : t) (k : K) (v : V) : t :=
  match m with
  | [] => [(k, v)]
  | (k', v') :: rest =>
      if eq_dec k k' then (k, v) :: rest else (k', v') :: set rest k v
  end.

Definition delete (m : t) (k : K) : t :=
  filter (fun e => if eq_dec k (fst e) then false else true) m.

Definition size (m : t) : Z := Z.of_nat (length m).
End JsMap.
End JsMap.

(** Identity of a function object (a handler, an observer). *)
Definition Fn := nat.

(** A [Set] of callbacks, iterated in insertion order. *)
Definition FnSet := list Fn.

Definition FnSet_add (s : FnSet) (f : Fn) : FnSet :=
  if in_dec Nat.eq_dec f s then s else s ++ [f].

Definition JsString_eq_dec : forall a b : JsString, {a = b} + {a <> b} :=
  list_eq_dec Z.eq_dec.

(** Decimal digits of a non-negative integer, most significant first. *)
Fixpoint digits (fuel : nat) (n : Z) (acc : JsString) : JsString :=
  match fuel with
  | O => acc
  | S fuel' =>
      let acc' := (48 + n mod 10) :: acc in
      if n / 10 =? 0 then acc' else digits fuel' (n / 10) acc'
  end.

(** [String(n)] for an integer [n]. *)
Definition Number_toString (n : Z) : JsString :=
  if n <? 0
  then 45 :: digits (S (Z.to_nat (Z.log2 (- n)))) (- n) []
  else digits (S (Z.to_nat (Z.log2 n))) n [].

(** The property key of [obj[event]]: a number is converted to its string. *)
Definition ToPropertyKey (event : EventId) : JsString :=
  match event with
  | EvNumber n => Number_toString n
  | EvString s => s
  end.

Definition __proto__ : JsString := [95; 95; 112; 114; 111; 116; 111; 95; 95].

(** The key [size]. *)
Definition size_key : JsString := [115; 105; 122; 101].

(** A key whose assignment to the handler object makes or overwrites an own
    property while the object's prototype is [Map.prototype]: every string
    but [__proto__], whose assignment sets the prototype, and [size], which
    [Map.prototype] has as an accessor without a setter, so that its
    assignment throws a [TypeError]. *)
Definition plain_key (key : JsString) : Prop :=
  key <> __proto__ /\ key <> size_key.

(** The server keeps its handlers as properties of an object (it assigns
    [this._messageHandlers[event] = handler] and reads
    [this._messageHandlers[event]]; that the object is a [Map] instance only
    decides what it inherits). [own] are the object's own properties, the
    handlers assigned so far. Assigning the key [__proto__] does not make an
    own property: it replaces the object's prototype by the assigned function,
    and reading [__proto__] gives the prototype back; [proto] is [None] as
    long as the prototype is the original [Map.prototype]. [property_set]
    below is the assignment of a key that the object takes: it leaves out the
    keys whose assignment throws, which are [size] under [Map.prototype] and
    the names that a prototype installed through [__proto__] makes
    read-only. *)
Record HandlerObject : Type := {
  own : JsMap.t (K := JsString) (V := Fn);
  proto : option Fn
}.

(** What [obj[key]] evaluates to. *)
Inductive PropertyValue : Type :=
| Own (h : Fn)          (* a handler assigned by [onMessage] *)
| Inherited             (* a member found on the prototype chain *)
| Undefined.

Definition property_set (o : HandlerObject) (key : JsString) (h : Fn)
  : HandlerObject :=
  if JsString_eq_dec key __proto__
  then {| own := own o; proto := Some h |}
  else {| own := JsMap.set JsString_eq_dec (own o) key h; proto := proto o |}.

(** [inherits p key]: whether an object whose prototype is [p] finds [key] on
    its prototype chain ([get], [set], [constructor], ... for
    [Map.prototype]). The table of these names is the engine's. *)
Definition property_get (inherits : option Fn -> JsString -> bool)
  (o : HandlerObject) (key : JsString) : PropertyValue :=
  match JsMap.get JsString_eq_dec (own o) key with
  | Some h => Own h
  | None =>
      if JsString_eq_dec key __proto__
      then match proto o with Some h => Own h | None => Inherited end
      else if inherits (proto o) key then Inherited else Undefined
  end.

(* ================================================================== *)
(** ** Protocol constants *)
(* ================================================================== *)

(** The members of the [ServerProtocol] enum that room.ts refers to. The enum
    is declared in @daisy-engine/common; the value of each member is a field
    here. *)
Record ServerProtocol : Type := {
  SP_Ping : Z;
  SP_UserPacket : Z;
  SP_RoomInfo : Z;
  SP_ClientId : Z;
  SP_Error : Z;
  SP_CloseReason : Z
}.

(** The members of the [ClientProtocol] enum that room.ts refers to. *)
Record ClientProtocol : Type := {
  CP_Ping : Z;
  CP_UserPacket : Z
}.

(** The members are written and read as one byte. *)
Definition byte_tags (P : ServerProtocol) : Prop :=
  Forall (fun tag => 0 <= tag <= 255)
    [SP_Ping P; SP_UserPacket P; SP_RoomInfo P; SP_ClientId P;
     SP_Error P; SP_CloseReason P].

(** The members of an enum have distinct values. *)
Definition distinct_tags (P : ServerProtocol) : Prop :=
  NoDup [SP_Ping P; SP_UserPacket P; SP_RoomInfo P; SP_ClientId P;
         SP_Error P; SP_CloseReason P].

(* ================================================================== *)
(** ** The server-side Room: sessions, handlers, sending *)
(* ================================================================== *)

Module Server.

(** Modelled from the spec: the [ClientStatus] enum of ./ClientStatus, which
    is not in the source tree; room.ts refers to [ClientStatus.JOINED] only.
    Section 3 of the spec names the states Connecting, Authenticating, Joined
    and Closed. *)
Inductive ClientStatus : Type := CONNECTING | AUTHENTICATING | JOINED | CLOSED.

Definition ClientStatus_eq_dec (a b : ClientStatus) : {a = b} + {a <> b}.
Proof. decide equality. Defined.

(** Modelled from the spec: a [NetworkClient] object (./NetworkClient is not
    in the source tree), with the two fields that room.ts reads; section 3 of
    the spec gives a session an integer id and a status. Its [_internalSend]
    is the transport's send: a call is the effect [InternalSend] below. *)
Record NetworkClient : Type := {
  id : Z;
  status : ClientStatus
}.

(** A reference to a [NetworkClient] object. The room's registry and the
    callers of [send] hold references to the same objects; [Heap] gives the
    state of each object at the time of a call. *)
Definition ClientRef := nat.
Definition Heap := ClientRef -> NetworkClient.

Definition Registry := JsMap.t (K := Z) (V := ClientRef).

(** [client.status === ClientStatus.JOINED] *)
Definition is_joined (heap : Heap) (client : ClientRef) : bool :=
  if ClientStatus_eq_dec (status (heap client)) JOINED then true else false.

Inductive Effect : Type :=
| InternalSend (c : ClientRef) (msg : Buffer)        (* client._internalSend(msg) *)
| HandlerCall (h : Fn) (c : ClientRef) (content : Content)
| InheritedCall (key : JsString) (c : ClientRef) (content : Content)
| OnClientJoined (c : ClientRef) (clients : Registry) (* the hook, and the registry it sees *)
| OnClientLeft (c : ClientRef) (clients : Registry).

Record Room : Type := {
  room_id : JsString;
  maxClients : option Z;           (* [None] is [Infinity] *)
  clients : Registry;
  _messageHandlers : HandlerObject
}.

Definition set_clients (r : Room) (m : Registry) : Room :=
  {| room_id := room_id r; maxClients := maxClients r; clients := m;
     _messageHandlers := _messageHandlers r |}.

Definition set_messageHandlers (r : Room) (o : HandlerObject) : Room :=
  {| room_id := room_id r; maxClients := maxClients r; clients := clients r;
     _messageHandlers := o |}.

(** [new Room(id)] before [init]. *)
Definition new_Room (id : JsString) : Room :=
  {| room_id := id; maxClients := None; clients := [];
     _messageHandlers := {| own := []; proto := None |} |}.

Definition isFull (r : Room) : bool :=
  match maxClients r with
  | None => false
  | Some m => m <=? JsMap.size (clients r)
  end.

Definition onMessage (r : Room) (event : EventId) (handler : Fn) : Result Room :=
  match event with
  | EvNumber n =>
      if (255 <? n) || (n <? 0) then Throw ERR_EVENT_ID_RANGE
      else Ok (set_messageHandlers r
                 (property_set (_messageHandlers r) (ToPropertyKey event) handler))
  | EvString _ =>
      Ok (set_messageHandlers r
            (property_set (_messageHandlers r) (ToPropertyKey event) handler))
  end.

Section Protocol.
Variable P : ServerProtocol.
Variable heap : Heap.

Definition send (r : Room) (client : ClientRef) (event : EventId)
  (data : Content) : Result (list Effect) :=
  if ClientStatus_eq_dec (status (heap client)) JOINED
  then msg <- _packMessage (SP_UserPacket P) event data ;;
       Ok [InternalSend client msg]
  else Ok [].

Definition _broadcast (r : Room) (msg : Buffer) : list Effect :=
  flat_map
    (fun entry : Z * ClientRef =>
       let client := snd entry in
       if ClientStatus_eq_dec (status (heap client)) JOINED
       then [InternalSend client msg]
       else [])
    (clients r).

Definition broadcast (r : Room) (event : EventId) (data : Content)
  : Result (list Effect) :=
  msg <- _packMessage (SP_UserPacket P) event data ;;
  Ok (_broadcast r msg).

(** [buf.writeUInt32LE(value, offset); offset += 4] *)
Definition writeUInt32LE (value : Z) (out : Packing) : Result Packing :=
  if (0 <=? value) && (value <=? 4294967295) && (ref_value out + 4 <=? BUFFER_SIZE)
  then Ok (out ++ [byte_of_Z value; byte_of_Z (value / 256);
                   byte_of_Z (value / 65536); byte_of_Z (value / 16777216)])
  else Throw ERR_OUT_OF_RANGE.

Definition _sendClientId (client : ClientRef) : Result (list Effect) :=
  out <- writeUInt8 (SP_ClientId P) [] ;;
  out <- writeUInt32LE (id (heap client)) out ;;
  Ok [InternalSend client out].

Definition _sendRoomInfo (r : Room) (client : ClientRef) : Result (list Effect) :=
  out <- writeUInt8 (SP_RoomInfo P) [] ;;
  out <- writeUInt16LE (str_length (room_id r)) out ;;
  Ok [InternalSend client (write_utf16le (room_id r) out)].

(** The effects made until a [throw], if any, and the room afterwards. *)
Definition _internalOnOpen (r : Room) (client : ClientRef)
  : list Effect * Result Room :=
  match _sendClientId client with
  | Throw e => ([], Throw e)
  | Ok e1 =>
      match _sendRoomInfo r client with
      | Throw e => (e1, Throw e)
      | Ok e2 =>
          let r' := set_clients r
                      (JsMap.set Z.eq_dec (clients r) (id (heap client)) client) in
          (e1 ++ e2 ++ [OnClientJoined client (clients r')], Ok r')
      end
  end.

Definition _internalOnClose (r : Room) (client : ClientRef)
  : Room * list Effect :=
  let r' := set_clients r
              (JsMap.delete Z.eq_dec (clients r) (id (heap client))) in
  (r', [OnClientLeft client (clients r')]).
End Protocol.

(** [_getUserMessageContent(buf, ref)]: the content and the new [ref.value]. *)
Definition _getUserMessageContent (buf : Buffer) (ref : nat)
  : Result (Content * nat) :=
  dataType <- readUInt8 buf ref ;;
  let ref := (ref + 1)%nat in
  match dataType with
  | 0 => Ok (CBuffer (subarray_from buf ref), ref)
  | 1 =>
      dataLength <- readUInt16LE buf ref ;;
      let ref := (ref + 2)%nat in
      let data := toString_utf16le buf ref (ref + Z.to_nat (dataLength * 2)) in
      Ok (CString data, (ref + Z.to_nat (dataLength * 2))%nat)
  | _ => Throw (ERR_INVALID_DATA_TYPE (Some dataType))
  end.

(** The two cases of the [switch (eventType)] of [_internalOnUserMessage]
    differ in how they read the constant [event]; [readEvent] is that part,
    with the new [ref.value]. No case of the switch matches another
    [eventType]: [None]. *)
Definition readEvent (buf : Buffer) (ref : nat) : Result (option (EventId * nat)) :=
  eventType <- readUInt8 buf ref ;;
  let ref := (ref + 1)%nat in
  match eventType with
  | 0 =>
      event <- readUInt8 buf ref ;;
      Ok (Some (EvNumber event, (ref + 1)%nat))
  | 1 =>
      eventLength <- readUInt16LE buf ref ;;
      let ref := (ref + 2)%nat in
      let event := toString_utf16le buf ref (ref + Z.to_nat (eventLength * 2)) in
      Ok (Some (EvString event, (ref + Z.to_nat (eventLength * 2))%nat))
  | _ => Ok None
  end.

(** [this._messageHandlers[event]?.call(this, client, this._getUserMessageContent(buf, ref))]:
    the content is read only when the property is not [undefined]. What the
    call of an inherited member does is not modelled further: it is recorded
    as [InheritedCall]. *)
Definition dispatch (inherits : option Fn -> JsString -> bool) (r : Room)
  (client : ClientRef) (event : EventId) (buf : Buffer) (ref : nat)
  : Result (list Effect) :=
  match property_get inherits (_messageHandlers r) (ToPropertyKey event) with
  | Undefined => Ok []
  | Own h =>
      '(content, _) <- _getUserMessageContent buf ref ;;
      Ok [HandlerCall h client content]
  | Inherited =>
      '(content, _) <- _getUserMessageContent buf ref ;;
      Ok [InheritedCall (ToPropertyKey event) client content]
  end.

Definition _internalOnUserMessage (inherits : option Fn -> JsString -> bool)
  (r : Room) (client : ClientRef) (buf : Buffer) (ref : nat)
  : Result (list Effect) :=
  decoded <- readEvent buf ref ;;
  match decoded with
  | Some (event, ref) => dispatch inherits r client event buf ref
  | None => Ok []
  end.

(** *** The built-in ticker, over rationals

    The ticker's fields of the server [Room], with clock readings ([_now()])
    and durations as rationals: this is the ticker for the properties that
    rest on the two flags and on the sign and order of the numbers, which
    rounding leaves alone. [Binary64] below has the ticker over doubles, for
    the properties that depend on what the additions and subtractions give.
    [_deltaTimeMs] is [None] while it is not a finite
    number ([undefined] before [setTickRate], [Infinity] after
    [setTickRate(0)]): the loop test [_accumulator >= _deltaTimeMs] is then
    false. [tick_calls] counts the calls of the [tick()] hook; the hook
    itself is application code and leaves the ticker's private fields alone. *)
Record Ticker : Type := {
  _tickNumber : Z;
  _lastTime : Q;
  _accumulator : Q;
  _deltaTimeMs : option Q;
  _maxAccumulation : Q;
  _stopTicking : bool;
  _disableBuiltinTicker : bool;
  tick_calls : nat
}.

(** The fields as the constructor leaves them, before [init] and [_postInit]. *)
Definition new_Ticker : Ticker :=
  {| _tickNumber := 0; _lastTime := 0%Q; _accumulator := 0%Q;
     _deltaTimeMs := None; _maxAccumulation := 25%Q;
     _stopTicking := false; _disableBuiltinTicker := false; tick_calls := 0 |}.

Definition setTickRate (t : Ticker) (ticksPerSecond : Q) : Ticker :=
  {| _tickNumber := _tickNumber t; _lastTime := _lastTime t;
     _accumulator := _accumulator t;
     _deltaTimeMs := if Qeq_bool ticksPerSecond 0 then None
                     else Some (1000 / ticksPerSecond)%Q;
     _maxAccumulation := _maxAccumulation t;
     _stopTicking := _stopTicking t;
     _disableBuiltinTicker :=
       if Qle_bool ticksPerSecond 0 then true else _disableBuiltinTicker t;
     tick_calls := tick_calls t |}.

Definition setMaxAccumulation (t : Ticker) (maxAccumulation : Q) : Ticker :=
  {| _tickNumber := _tickNumber t; _lastTime := _lastTime t;
     _accumulator := _accumulator t; _deltaTimeMs := _deltaTimeMs t;
     _maxAccumulation := maxAccumulation;
     _stopTicking := _stopTicking t;
     _disableBuiltinTicker := _disableBuiltinTicker t;
     tick_calls := tick_calls t |}.

Definition Math_min (a b : Q) : Q := if Qle_bool a b then a else b.

(** [this._accumulator >= this._deltaTimeMs] *)
Definition step_due (t : Ticker) : bool :=
  match _deltaTimeMs t with
  | Some dt => Qle_bool dt (_accumulator t)
  | None => false
  end.

(** One pass of the loop body after the stop test:
    [this.tick(); this._accumulator -= this._deltaTimeMs; this._tickNumber++]. *)
Definition tick_once (t : Ticker) : Ticker :=
  {| _tickNumber := _tickNumber t + 1; _lastTime := _lastTime t;
     _accumulator := match _deltaTimeMs t with
                     | Some dt => (_accumulator t - dt)%Q
                     | None => _accumulator t
                     end;
     _deltaTimeMs := _deltaTimeMs t;
     _maxAccumulation := _maxAccumulation t;
     _stopTicking := _stopTicking t;
     _disableBuiltinTicker := _disableBuiltinTicker t;
     tick_calls := S (tick_calls t) |}.

(** The [while] loop of [_tick]. The result says whether the loop was left by
    the [return] of the stop test ([true]) or by its condition ([false]);
    [None] when [fuel] passes do not finish it. *)
Fixpoint tick_loop (fuel : nat) (t : Ticker) : option (Ticker * bool) :=
  match fuel with
  | O => None
  | S fuel' =>
      if step_due t then
        if _stopTicking t || _disableBuiltinTicker t then Some (t, true)
        else tick_loop fuel' (tick_once t)
      else Some (t, false)
  end.

(** [_tick()] at clock reading [newTime]: the ticker afterwards, and whether
    [setImmediate(() => this._tick())] was reached. *)
Definition _tick (fuel : nat) (newTime : Q) (t : Ticker) : option (Ticker * bool) :=
  let frameTime := Math_min (_maxAccumulation t) (newTime - _lastTime t)%Q in
  let t1 :=
    {| _tickNumber := _tickNumber t; _lastTime := newTime;
       _accumulator := (_accumulator t + frameTime)%Q;
       _deltaTimeMs := _deltaTimeMs t;
       _maxAccumulation := _maxAccumulation t;
       _stopTicking := _stopTicking t;
       _disableBuiltinTicker := _disableBuiltinTicker t;
       tick_calls := tick_calls t |} in
  match tick_loop fuel t1 with
  | Some (t2, returned) => Some (t2, negb returned)
  | None => None
  end.

(** [_postInit()]: [now] is the clock reading that it stores in [_lastTime],
    [newTime] the one that its call of [_tick] takes. When the built-in
    ticker is disabled, [_tick] is not called and nothing is scheduled. *)
Definition _postInit (fuel : nat) (now newTime : Q) (t : Ticker)
  : option (Ticker * bool) :=
  if _disableBuiltinTicker t then Some (t, false)
  else
    _tick fuel newTime
      {| _tickNumber := _tickNumber t; _lastTime := now;
         _accumulator := 0%Q;
         _deltaTimeMs := _deltaTimeMs t;
         _maxAccumulation := _maxAccumulation t;
         _stopTicking := false;
         _disableBuiltinTicker := _disableBuiltinTicker t;
         tick_calls := tick_calls t |}.

(** A wake of the scheduler that finds the clock [elapsed] after the last
    reading. *)
Definition wake (fuel : nat) (elapsed : Q) (t : Ticker) : option (Ticker * bool) :=
  _tick fuel (_lastTime t + elapsed)%Q t.

(** The wakes of the loop, one per element of [elapsed], as long as each
    [_tick] schedules the next one. *)
Fixpoint run_wakes (fuel : nat) (elapsed : list Q) (t : Ticker) : option Ticker :=
  match elapsed with
  | [] => Some t
  | e :: rest =>
      match wake fuel e t with
      | Some (t', true) => run_wakes fuel rest t'
      | Some (t', false) => Some t'
      | None => None
      end
  end.

(** A room whose [init] sets 100 ticks per second: a step of 10 ms. *)
Definition ticker_100Hz : Ticker := setTickRate new_Ticker 100.

(** *** Sessions that come and go *)

(** The connections that the transport reports to a room. *)
Inductive RegistryOp : Type :=
| Opens (client : ClientRef)       (* _internalOnOpen(client) *)
| Closes (client : ClientRef).     (* _internalOnClose(client, code, reason) *)

(** One of them; an [_internalOnOpen] that throws has not reached
    [this.clients.set]. *)
Definition registry_step (P : ServerProtocol) (heap : Heap) (r : Room)
  (op : RegistryOp) : Room :=
  match op with
  | Opens client =>
      match snd (_internalOnOpen P heap r client) with
      | Ok r' => r'
      | Throw _ => r
      end
  | Closes client => fst (_internalOnClose heap r client)
  end.

Definition registry_run (P : ServerProtocol) (heap : Heap)
  (ops : list RegistryOp) (r : Room) : Room :=
  fold_left (registry_step P heap) ops r.

(** The ids under which the registry holds sessions, in its order. *)
Definition registered_ids (r : Room) : list Z := map fst (clients r).

(** A registry as opens and closes make it: no id twice, and each session
    under its own id. *)
Definition registry_ok (heap : Heap) (r : Room) : Prop :=
  NoDup (registered_ids r) /\
  Forall (fun entry => fst entry = id (heap (snd entry))) (clients r).

End Server.

(* ================================================================== *)
(** ** The server's ticker over doubles *)
(* ================================================================== *)

(** Every number of the ticker is a JavaScript number, a binary64 double;
    here it is the kernel's primitive [float], whose operations are those of
    binary64. The comparisons [>=] and [<=] of the source are [leb], which is
    false when an operand is NaN, as theirs are. *)
Module Binary64.
Import PrimFloat SpecFloat FloatOps.





(** [Math.min(x, y)]: NaN when either is NaN, and -0 below +0. *)
Definition Math_min (x y : float) : float :=
  if is_nan x || is_nan y then nan
  else if ltb x y then x
  else if ltb y x then y
  else if get_sign x then x else y.

(** The ticker's fields of the server [Room]. [tick_calls] counts the calls
    of the [tick()] hook. *)
Record Ticker : Type := {
  _tickNumber : float;
  _lastTime : float;
  _accumulator : float;
  _deltaTimeMs : float;
  _maxAccumulation : float;
  _stopTicking : bool;
  _disableBuiltinTicker : bool;
  tick_calls : nat
}.

(** The fields as the constructor leaves them, before [init] and
    [_postInit]. A number field that is still [undefined] is NaN here: in
    [+], [-], [Math.min] and the comparisons, [undefined] is converted to
    NaN. A flag that is still [undefined] is [false]. *)
Definition new_Ticker : Ticker :=
  {| _tickNumber := 0; _lastTime := nan; _accumulator := nan;
     _deltaTimeMs := nan; _maxAccumulation := 25;
     _stopTicking := false; _disableBuiltinTicker := false; tick_calls := 0 |}.

Definition setTickRate (t : Ticker) (ticksPerSecond : float) : Ticker :=
  {| _tickNumber := _tickNumber t; _lastTime := _lastTime t;
     _accumulator := _accumulator t;
     _deltaTimeMs := div 1000 ticksPerSecond;
     _maxAccumulation := _maxAccumulation t;
     _stopTicking := _stopTicking t;
     _disableBuiltinTicker :=
       if leb ticksPerSecond 0 then true else _disableBuiltinTicker t;
     tick_calls := tick_calls t |}.

Definition setMaxAccumulation (t : Ticker) (maxAccumulation : float) : Ticker :=
  {| _tickNumber := _tickNumber t; _lastTime := _lastTime t;
     _accumulator := _accumulator t; _deltaTimeMs := _deltaTimeMs t;
     _maxAccumulation := maxAccumulation;
     _stopTicking := _stopTicking t;
     _disableBuiltinTicker := _disableBuiltinTicker t;
     tick_calls := tick_calls t |}.

(** [this._accumulator >= this._deltaTimeMs] *)
Definition step_due (t : Ticker) : bool := leb (_deltaTimeMs t) (_accumulator t).

(** One pass of the loop body after the stop test:
    [this.tick(); this._accumulator -= this._deltaTimeMs; this._tickNumber++]. *)
Definition tick_once (t : Ticker) : Ticker :=
  {| _tickNumber := add (_tickNumber t) 1; _lastTime := _lastTime t;
     _accumulator := sub (_accumulator t) (_deltaTimeMs t);
     _deltaTimeMs := _deltaTimeMs t;
     _maxAccumulation := _maxAccumulation t;
     _stopTicking := _stopTicking t;
     _disableBuiltinTicker := _disableBuiltinTicker t;
     tick_calls := S (tick_calls t) |}.

(** The [while] loop of [_tick]. The result says whether the loop was left by
    the [return] of the stop test ([true]) or by its condition ([false]);
    [None] when [fuel] passes do not finish it. *)
Fixpoint tick_loop (fuel : nat) (t : Ticker) : option (Ticker * bool) :=
  match fuel with
  | O => None
  | S fuel' =>
      if step_due t then
        if _stopTicking t || _disableBuiltinTicker t then Some (t, true)
        else tick_loop fuel' (tick_once t)
      else Some (t, false)
  end.

(** [_tick()] at clock reading [newTime]: the ticker afterwards, and whether
    [setImmediate(() => this._tick())] was reached. *)
Definition _tick (fuel : nat) (newTime : float) (t : Ticker)
  : option (Ticker * bool) :=
  let frameTime := Math_min (_maxAccumulation t) (sub newTime (_lastTime t)) in
  let t1 :=
    {| _tickNumber := _tickNumber t; _lastTime := newTime;
       _accumulator := add (_accumulator t) frameTime;
       _deltaTimeMs := _deltaTimeMs t;
       _maxAccumulation := _maxAccumulation t;
       _stopTicking := _stopTicking t;
       _disableBuiltinTicker := _disableBuiltinTicker t;
       tick_calls := tick_calls t |} in
  match tick_loop fuel t1 with
  | Some (t2, returned) => Some (t2, negb returned)
  | None => None
  end.

(** The three assignments of [_postInit], at clock reading [now]:
    [this._lastTime = this._now(); this._accumulator = 0;
     this._stopTicking = false]. *)
Definition started (now : float) (t : Ticker) : Ticker :=
  {| _tickNumber := _tickNumber t; _lastTime := now;
     _accumulator := 0;
     _deltaTimeMs := _deltaTimeMs t;
     _maxAccumulation := _maxAccumulation t;
     _stopTicking := false;
     _disableBuiltinTicker := _disableBuiltinTicker t;
     tick_calls := tick_calls t |}.

(** [_postInit()]: [now] is the clock reading that it stores in [_lastTime],
    [newTime] the one that its call of [_tick], the first wake, takes. *)
Definition _postInit (fuel : nat) (now newTime : float) (t : Ticker)
  : option (Ticker * bool) :=
  if _disableBuiltinTicker t then Some (t, false)
  else _tick fuel newTime (started now t).

(** The wakes of the loop, one per clock reading of [clock], as long as each
    [_tick] schedules the next one. *)
Fixpoint run_wakes (fuel : nat) (clock : list float) (t : Ticker) : option Ticker :=
  match clock with
  | [] => Some t
  | now :: rest =>
      match _tick fuel now t with
      | Some (t', true) => run_wakes fuel rest t'
      | Some (t', false) => Some t'
      | None => None
      end
  end.

(** Rooms whose [init] sets 100 and 60 ticks per second, one that also sets
    [setMaxAccumulation(-5)], and one that sets 10^18 ticks per second, each
    as [_postInit] has it at clock reading 0 when it calls [_tick]. *)
Definition ticker_100Hz : Ticker := started 0 (setTickRate new_Ticker 100).
Definition ticker_1e18Hz : Ticker := started 0 (setTickRate new_Ticker 1e18).






End Binary64.

(* ================================================================== *)
(** ** The client-side Room *)
(* ================================================================== *)

Module Client.

(** The promise returned by [_internalConnect]. *)
Inductive PromiseState : Type :=
| Pending
| Fulfilled
| Rejected (reason : JsString).

Inductive Effect : Type :=
| NetSend (msg : Buffer)                           (* this._net.send(msg) *)
| ConnectResultCallback (error : option JsString)  (* this._connectResultCallback(error) *)
| ServerErrorCallback (f : Fn) (error : JsString)
| CloseCallback (f : Fn)
| HandlerCall (h : Fn) (content : Content)
| ConsoleError (text : JsString)
| ConsoleLog (text : JsString).

Definition Handlers := JsMap.t (K := EventId) (V := Fn).

Record Room : Type := {
  _id : option JsString;
  _closeReason : option JsString;
  _localClientId : Z;
  _pingTimeout : option nat;        (* the handle returned by [setTimeout] *)
  timeouts : list (nat * option Z); (* the pending timeouts: handle and delay *)
  next_handle : nat;
  _lastPingTimestamp : Z;
  _latencySamples : list Z;
  latencySampleSize : nat;
  pingDelay : option Z;
  _connectResultCallback : bool;    (* whether the callback is set *)
  connect_promise : PromiseState;
  _messageHandlers : Handlers;
  _closeCallbacks : FnSet;
  _serverErrorCallbacks : FnSet;
  trace : list Effect               (* the effects so far, oldest first *)
}.

Definition Number_MAX_VALUE : Z := 2 ^ 1024 - 2 ^ 971.

(** [new Room()] *)
Definition new_Room : Room :=
  {| _id := None; _closeReason := None; _localClientId := -1;
     _pingTimeout := None; timeouts := []; next_handle := 0;
     _lastPingTimestamp := Number_MAX_VALUE;
     _latencySamples := []; latencySampleSize := 10; pingDelay := Some 5000;
     _connectResultCallback := false; connect_promise := Pending;
     _messageHandlers := []; _closeCallbacks := []; _serverErrorCallbacks := [];
     trace := [] |}.

Definition log (e : Effect) (r : Room) : Room :=
  {| _id := _id r; _closeReason := _closeReason r;
     _localClientId := _localClientId r; _pingTimeout := _pingTimeout r;
     timeouts := timeouts r; next_handle := next_handle r;
     _lastPingTimestamp := _lastPingTimestamp r;
     _latencySamples := _latencySamples r;
     latencySampleSize := latencySampleSize r; pingDelay := pingDelay r;
     _connectResultCallback := _connectResultCallback r;
     connect_promise := connect_promise r;
     _messageHandlers := _messageHandlers r;
     _closeCallbacks := _closeCallbacks r;
     _serverErrorCallbacks := _serverErrorCallbacks r;
     trace := trace r ++ [e] |}.

Definition set_promise (p : PromiseState) (r : Room) : Room :=
  {| _id := _id r; _closeReason := _closeReason r;
     _localClientId := _localClientId r; _pingTimeout := _pingTimeout r;
     timeouts := timeouts r; next_handle := next_handle r;
     _lastPingTimestamp := _lastPingTimestamp r;
     _latencySamples := _latencySamples r;
     latencySampleSize := latencySampleSize r; pingDelay := pingDelay r;
     _connectResultCallback := _connectResultCallback r;
     connect_promise := p;
     _messageHandlers := _messageHandlers r;
     _closeCallbacks := _closeCallbacks r;
     _serverErrorCallbacks := _serverErrorCallbacks r;
     trace := trace r |}.

Definition set_id (s : JsString) (r : Room) : Room :=
  {| _id := Some s; _closeReason := _closeReason r;
     _localClientId := _localClientId r; _pingTimeout := _pingTimeout r;
     timeouts := timeouts r; next_handle := next_handle r;
     _lastPingTimestamp := _lastPingTimestamp r;
     _latencySamples := _latencySamples r;
     latencySampleSize := latencySampleSize r; pingDelay := pingDelay r;
     _connectResultCallback := _connectResultCallback r;
     connect_promise := connect_promise r;
     _messageHandlers := _messageHandlers r;
     _closeCallbacks := _closeCallbacks r;
     _serverErrorCallbacks := _serverErrorCallbacks r;
     trace := trace r |}.

Definition set_closeReason (s : JsString) (r : Room) : Room :=
  {| _id := _id r; _closeReason := Some s;
     _localClientId := _localClientId r; _pingTimeout := _pingTimeout r;
     timeouts := timeouts r; next_handle := next_handle r;
     _lastPingTimestamp := _lastPingTimestamp r;
     _latencySamples := _latencySamples r;
     latencySampleSize := latencySampleSize r; pingDelay := pingDelay r;
     _connectResultCallback := _connectResultCallback r;
     connect_promise := connect_promise r;
     _messageHandlers := _messageHandlers r;
     _closeCallbacks := _closeCallbacks r;
     _serverErrorCallbacks := _serverErrorCallbacks r;
     trace := trace r |}.

Definition set_localClientId (n : Z) (r : Room) : Room :=
  {| _id := _id r; _closeReason := _closeReason r;
     _localClientId := n; _pingTimeout := _pingTimeout r;
     timeouts := timeouts r; next_handle := next_handle r;
     _lastPingTimestamp := _lastPingTimestamp r;
     _latencySamples := _latencySamples r;
     latencySampleSize := latencySampleSize r; pingDelay := pingDelay r;
     _connectResultCallback := _connectResultCallback r;
     connect_promise := connect_promise r;
     _messageHandlers := _messageHandlers r;
     _closeCallbacks := _closeCallbacks r;
     _serverErrorCallbacks := _serverErrorCallbacks r;
     trace := trace r |}.

Definition set_latencySamples (l : list Z) (r : Room) : Room :=
  {| _id := _id r; _closeReason := _closeReason r;
     _localClientId := _localClientId r; _pingTimeout := _pingTimeout r;
     timeouts := timeouts r; next_handle := next_handle r;
     _lastPingTimestamp := _lastPingTimestamp r;
     _latencySamples := l;
     latencySampleSize := latencySampleSize r; pingDelay := pingDelay r;
     _connectResultCallback := _connectResultCallback r;
     connect_promise := connect_promise r;
     _messageHandlers := _messageHandlers r;
     _closeCallbacks := _closeCallbacks r;
     _serverErrorCallbacks := _serverErrorCallbacks r;
     trace := trace r |}.

Definition set_lastPingTimestamp (n : Z) (r : Room) : Room :=
  {| _id := _id r; _closeReason := _closeReason r;
     _localClientId := _localClientId r; _pingTimeout := _pingTimeout r;
     timeouts := timeouts r; next_handle := next_handle r;
     _lastPingTimestamp := n;
     _latencySamples := _latencySamples r;
     latencySampleSize := latencySampleSize r; pingDelay := pingDelay r;
     _connectResultCallback := _connectResultCallback r;
     connect_promise := connect_promise r;
     _messageHandlers := _messageHandlers r;
     _closeCallbacks := _closeCallbacks r;
     _serverErrorCallbacks := _serverErrorCallbacks r;
     trace := trace r |}.

Definition set_messageHandlers (m : Handlers) (r : Room) : Room :=
  {| _id := _id r; _closeReason := _closeReason r;
     _localClientId := _localClientId r; _pingTimeout := _pingTimeout r;
     timeouts := timeouts r; next_handle := next_handle r;
     _lastPingTimestamp := _lastPingTimestamp r;
     _latencySamples := _latencySamples r;
     latencySampleSize := latencySampleSize r; pingDelay := pingDelay r;
     _connectResultCallback := _connectResultCallback r;
     connect_promise := connect_promise r;
     _messageHandlers := m;
     _closeCallbacks := _closeCallbacks r;
     _serverErrorCallbacks := _serverErrorCallbacks r;
     trace := trace r |}.

Definition set_callbacks (cc se : FnSet) (r : Room) : Room :=
  {| _id := _id r; _closeReason := _closeReason r;
     _localClientId := _localClientId r; _pingTimeout := _pingTimeout r;
     timeouts := timeouts r; next_handle := next_handle r;
     _lastPingTimestamp := _lastPingTimestamp r;
     _latencySamples := _latencySamples r;
     latencySampleSize := latencySampleSize r; pingDelay := pingDelay r;
     _connectResultCallback := _connectResultCallback r;
     connect_promise := connect_promise r;
     _messageHandlers := _messageHandlers r;
     _closeCallbacks := cc;
     _serverErrorCallbacks := se;
     trace := trace r |}.

(** The timer fields: [_pingTimeout], the pending timeouts, the next handle. *)
Definition set_timers (h : option nat) (ts : list (nat * option Z)) (n : nat)
  (r : Room) : Room :=
  {| _id := _id r; _closeReason := _closeReason r;
     _localClientId := _localClientId r; _pingTimeout := h;
     timeouts := ts; next_handle := n;
     _lastPingTimestamp := _lastPingTimestamp r;
     _latencySamples := _latencySamples r;
     latencySampleSize := latencySampleSize r; pingDelay := pingDelay r;
     _connectResultCallback := _connectResultCallback r;
     connect_promise := connect_promise r;
     _messageHandlers := _messageHandlers r;
     _closeCallbacks := _closeCallbacks r;
     _serverErrorCallbacks := _serverErrorCallbacks r;
     trace := trace r |}.

Definition set_connectResultCallback (r : Room) : Room :=
  {| _id := _id r; _closeReason := _closeReason r;
     _localClientId := _localClientId r; _pingTimeout := _pingTimeout r;
     timeouts := timeouts r; next_handle := next_handle r;
     _lastPingTimestamp := _lastPingTimestamp r;
     _latencySamples := _latencySamples r;
     latencySampleSize := latencySampleSize r; pingDelay := pingDelay r;
     _connectResultCallback := true;
     connect_promise := Pending;
     _messageHandlers := _messageHandlers r;
     _closeCallbacks := _closeCallbacks r;
     _serverErrorCallbacks := _serverErrorCallbacks r;
     trace := trace r |}.

Definition onMessage (r : Room) (event : EventId) (handler : Fn) : Result Room :=
  match event with
  | EvNumber n =>
      if (255 <? n) || (n <? 0) then Throw ERR_EVENT_ID_RANGE
      else Ok (set_messageHandlers
                 (JsMap.set EventId_eq_dec (_messageHandlers r) event handler) r)
  | EvString _ =>
      Ok (set_messageHandlers
            (JsMap.set EventId_eq_dec (_messageHandlers r) event handler) r)
  end.

Definition onClose (r : Room) (callback : Fn) : Room :=
  set_callbacks (FnSet_add (_closeCallbacks r) callback) (_serverErrorCallbacks r) r.

Definition onError (r : Room) (callback : Fn) : Room :=
  set_callbacks (_closeCallbacks r) (FnSet_add (_serverErrorCallbacks r) callback) r.

Definition send (C : ClientProtocol) (r : Room) (event : EventId)
  (message : Content) : Result Room :=
  msg <- _packMessage (CP_UserPacket C) event message ;;
  Ok (log (NetSend msg) r).

(** [clearTimeout(handle)] (and [clearInterval], which Node treats alike). *)
Definition clearTimeout (handle : option nat) (ts : list (nat * option Z))
  : list (nat * option Z) :=
  match handle with
  | Some h => filter (fun t => negb (Nat.eqb (fst t) h)) ts
  | None => ts
  end.

Definition _ping (C : ClientProtocol) (now : Z) (r : Room) : Room :=
  let r := set_timers (_pingTimeout r)
             (clearTimeout (_pingTimeout r) (timeouts r)) (next_handle r) r in
  let r := set_lastPingTimestamp now r in
  log (NetSend [byte_of_Z (CP_Ping C)]) r.

(** A promise is settled by the first call of [resolve] or [reject]; later
    calls do nothing. *)
Definition resolve (r : Room) : Room :=
  match connect_promise r with
  | Pending => set_promise Fulfilled r
  | _ => r
  end.

Definition reject (reason : JsString) (r : Room) : Room :=
  match connect_promise r with
  | Pending => set_promise (Rejected reason) r
  | _ => r
  end.

(** The closure that [_internalConnect] stores in [_connectResultCallback]:
    [(error) => { if (error) return reject(error); resolve(); }].
    The empty string is falsy. *)
Definition connectResultCallback (error : option JsString) (r : Room) : Room :=
  let r := log (ConnectResultCallback error) r in
  match error with
  | Some (c :: s) => reject (c :: s) r
  | _ => resolve r
  end.

(** [if (this._connectResultCallback) this._connectResultCallback?.call(undefined, error)] *)
Definition invoke_connectResult (error : option JsString) (r : Room) : Room :=
  if _connectResultCallback r then connectResultCallback error r else r.

(** [_internalConnect(serverAddr, packet)] up to its [await]: the promise is
    created and the callback stored. *)
Definition _internalConnect (r : Room) : Room := set_connectResultCallback r.

(** [_internalConnect] after [connectAsync] has completed, at time [now]. *)
Definition _internalConnect_connected (C : ClientProtocol) (now : Z)
  (packet : Buffer) (r : Room) : Room :=
  _ping C now (log (NetSend packet) r).

Definition _onClose (r : Room) : Room :=
  let r := set_timers (_pingTimeout r)
             (clearTimeout (_pingTimeout r) (timeouts r)) (next_handle r) r in
  fold_left (fun r f => log (CloseCallback f) r) (_closeCallbacks r) r.

(** A pending timeout set by the Ping branch fires at time [now]. *)
Definition timeout_fires (C : ClientProtocol) (now : Z) (handle : nat) (r : Room)
  : Room :=
  if existsb (fun t => Nat.eqb (fst t) handle) (timeouts r)
  then _ping C now
         (set_timers (_pingTimeout r) (clearTimeout (Some handle) (timeouts r))
            (next_handle r) r)
  else r.

Definition _getUserMessageContent (buf : Buffer) (ref : nat)
  : Result (Content * nat) :=
  let dataType := index buf ref in
  let ref := (ref + 1)%nat in
  match dataType with
  | Some 0 => Ok (CBuffer (subarray_from buf ref), ref)
  | Some 1 =>
      dataLen <- readUInt16LE buf ref ;;
      let ref := (ref + 2)%nat in
      let data := toString_utf16le buf ref (ref + Z.to_nat (dataLen * 2)) in
      Ok (CString data, (ref + Z.to_nat (dataLen * 2))%nat)
  | _ => Throw (ERR_INVALID_DATA_TYPE dataType)
  end.

(** The two cases of the [switch (eventType)] of [_onUserMessage], up to the
    call of the handler: the constant [event] and the new [ref.value]. *)
Definition readEvent (buf : Buffer) (ref : nat) : Result (option (EventId * nat)) :=
  let eventType := index buf ref in
  let ref := (ref + 1)%nat in
  match eventType with
  | Some 0 =>
      event <- readUInt8 buf ref ;;
      Ok (Some (EvNumber event, (ref + 1)%nat))
  | Some 1 =>
      eventLen <- readUInt16LE buf ref ;;
      let ref := (ref + 2)%nat in
      let event := toString_utf16le buf ref (ref + Z.to_nat (eventLen * 2)) in
      Ok (Some (EvString event, (ref + Z.to_nat (eventLen * 2))%nat))
  | _ => Ok None
  end.

(** [this._messageHandlers.get(event)?.call(this, this._getUserMessageContent(buf, ref))] *)
Definition dispatch (r : Room) (event : EventId) (buf : Buffer) (ref : nat)
  : Result Room :=
  match JsMap.get EventId_eq_dec (_messageHandlers r) event with
  | Some h =>
      '(content, _) <- _getUserMessageContent buf ref ;;
      Ok (log (HandlerCall h content) r)
  | None => Ok r
  end.

Definition _onUserMessage (r : Room) (buf : Buffer) (ref : nat) : Result Room :=
  decoded <- readEvent buf ref ;;
  match decoded with
  | Some (event, ref) => dispatch r event buf ref
  | None => Ok r
  end.

(** The Ping case: the new sample, the eviction, the next timeout. *)
Definition on_ping (now : Z) (r : Room) : Room :=
  let latency := now - _lastPingTimestamp r in
  let samples := _latencySamples r ++ [latency] in
  let samples :=
    if (latencySampleSize r <? length samples)%nat then tl samples else samples in
  let r := set_latencySamples samples r in
  set_timers (Some (next_handle r))
    (timeouts r ++ [(next_handle r, pingDelay r)]) (S (next_handle r)) r.

(** [_onMessage(buf)] at time [now]. The cases of the [switch (packetId)] are
    tried in the order of the source. *)
Definition _onMessage (S : ServerProtocol) (now : Z) (r : Room) (buf : Buffer)
  : Result Room :=
  match index buf 0 with
  | None => Ok r
  | Some packetId =>
      if packetId =? SP_Ping S then Ok (on_ping now r)
      else if packetId =? SP_UserPacket S then _onUserMessage r buf 1
      else if packetId =? SP_RoomInfo S then
        idLen <- readUInt16LE buf 1 ;;
        let id := toString_utf16le buf 3 (3 + Z.to_nat (idLen * 2)) in
        Ok (invoke_connectResult None (set_id id r))
      else if packetId =? SP_ClientId S then
        n <- readUInt32LE buf 1 ;;
        Ok (set_localClientId n r)
      else if packetId =? SP_Error S then
        errorLen <- readUInt16LE buf 1 ;;
        let error := toString_utf16le buf 3 (3 + Z.to_nat (errorLen * 2)) in
        let r := log (ConsoleError error) r in
        let r := invoke_connectResult (Some error) r in
        Ok (fold_left (fun r f => log (ServerErrorCallback f error) r)
              (_serverErrorCallbacks r) r)
      else if packetId =? SP_CloseReason S then
        reasonLen <- readUInt16LE buf 1 ;;
        let reason := toString_utf16le buf 3 (3 + Z.to_nat (reasonLen * 2)) in
        let r := log (ConsoleLog reason) r in
        let r := invoke_connectResult (Some reason) r in
        Ok (set_closeReason reason r)
      else Ok r
  end.

(** The frames of [msgs], each with its time of arrival, in order; a frame
    whose handling throws stops the run. *)
Fixpoint receive (S : ServerProtocol) (msgs : list (Z * Buffer)) (r : Room)
  : Result Room :=
  match msgs with
  | [] => Ok r
  | (now, buf) :: rest =>
      r' <- _onMessage S now r buf ;;
      receive S rest r'
  end.

(** What can happen to a client room: the transport's callbacks, a timeout
    that fires, and the calls of the public API. *)
Inductive Op : Type :=
| OnMessage (now : Z) (buf : Buffer)             (* the transport delivers a frame *)
| OnCloseEvent                                   (* the transport closes *)
| TimeoutFires (now : Z) (handle : nat)
| Connect                                        (* _internalConnect, up to its await *)
| Connected (now : Z) (packet : Buffer)          (* ... and after it *)
| RegisterHandler (event : EventId) (h : Fn)     (* onMessage(event, h) *)
| RegisterClose (f : Fn)                         (* onClose(f) *)
| RegisterError (f : Fn)                         (* onError(f) *)
| Send (event : EventId) (message : Content).    (* send(event, message) *)

(** One operation; one that throws leaves the room as it was. *)
Definition step (S : ServerProtocol) (C : ClientProtocol) (r : Room) (op : Op)
  : Room :=
  match op with
  | OnMessage now buf =>
      match _onMessage S now r buf with Ok r' => r' | Throw _ => r end
  | OnCloseEvent => _onClose r
  | TimeoutFires now handle => timeout_fires C now handle r
  | Connect => _internalConnect r
  | Connected now packet => _internalConnect_connected C now packet r
  | RegisterHandler event h =>
      match onMessage r event h with Ok r' => r' | Throw _ => r end
  | RegisterClose f => onClose r f
  | RegisterError f => onError r f
  | Send event message =>
      match send C r event message with Ok r' => r' | Throw _ => r end
  end.

Definition run (S : ServerProtocol) (C : ClientProtocol) (ops : list Op)
  (r : Room) : Room :=
  fold_left (step S C) ops r.

(** The frames that settle a connect attempt. *)
Inductive Settling : Type :=
| RoomInfo (id : JsString)
| Error (text : JsString)
| CloseReason (text : JsString).

Definition settling_tag (S : ServerProtocol) (f : Settling) : Z :=
  match f with
  | RoomInfo _ => SP_RoomInfo S
  | Error _ => SP_Error S
  | CloseReason _ => SP_CloseReason S
  end.

Definition settling_text (f : Settling) : JsString :=
  match f with
  | RoomInfo s => s
  | Error s => s
  | CloseReason s => s
  end.

(** Modelled from the spec: the bytes of a RoomInfo, Error or CloseReason
    frame, [[kindTag][u16 len][len*2 bytes text]] in section 4.1. The server's
    [_sendRoomInfo] writes the first; the code that writes the other two is
    not in the source tree. *)
Definition settling_frame (S : ServerProtocol) (f : Settling) : Buffer :=
  byte_of_Z (settling_tag S f) :: Wire.u16le (str_length (settling_text f))
    ++ utf16le_encode (settling_text f).


(** What the connect-result callback makes of the promise when the frame
    arrives: nothing once it is settled, and success for an empty text. *)
Definition settle (f : Settling) (p : PromiseState) : PromiseState :=
  match p with
  | Pending =>
      match f with
      | RoomInfo _ => Fulfilled
      | Error [] => Fulfilled
      | Error s => Rejected s
      | CloseReason [] => Fulfilled
      | CloseReason s => Rejected s
      end
  | _ => p
  end.

(** The effects of a settling frame on a room whose connect-result callback
    is set and whose error observers are [observers]. *)
Definition settling_effects (f : Settling) (observers : FnSet) : list Effect :=
  match f with
  | RoomInfo _ => [ConnectResultCallback None]
  | Error s =>
      [ConsoleError s; ConnectResultCallback (Some s)]
        ++ map (fun o => ServerErrorCallback o s) observers
  | CloseReason s => [ConsoleLog s; ConnectResultCallback (Some s)]
  end.

(** What a frame needs for [outcome] to be what the callback does: text that
    fits its length field, and a reason that is not the empty string. *)
Definition well_formed (f : Settling) : Prop :=
  wf_string (settling_text f) /\ str_length (settling_text f) <= 65535.



(** Rounds of the ping cycle: a ping goes out at time [sent] ([_ping], called
    by [_internalConnect] and then by the timeout of the Ping branch) and the
    server's reply arrives [rtt] later. *)
Fixpoint ping_rounds (S : ServerProtocol) (C : ClientProtocol)
  (rounds : list (Z * Z)) (r : Room) : Result Room :=
  match rounds with
  | [] => Ok r
  | (sent, rtt) :: rest =>
      r' <- _onMessage S (sent + rtt) (_ping C sent r) [byte_of_Z (SP_Ping S)] ;;
      ping_rounds S C rest r'
  end.

(** The latency window and its capacity. *)
Definition window (r : Room) : list Z * nat :=
  (_latencySamples r, latencySampleSize r).

(** The number of calls of the connect-result callback in a trace. *)
Definition connect_result_calls (tr : list Effect) : nat :=
  length (filter (fun e => match e with ConnectResultCallback _ => true | _ => false end) tr).

(** What the theorems on the connect attempt follow of a room: the promise,
    the number of calls of the connect-result callback, whether the callback
    is set, and [closeReason]. *)
Definition view (r : Room) : PromiseState * nat * bool * option JsString :=
  (connect_promise r, connect_result_calls (trace r),
   _connectResultCallback r, _closeReason r).

(** [get currentLatency()]: [this._latencySamples[length - 1]], which is
    [undefined] while the window is empty (the index -1 of the source and the
    index 0 of an empty list both miss). *)
Definition currentLatency (r : Room) : option Z :=
  nth_error (_latencySamples r) (length (_latencySamples r) - 1).

(** [get averageLatency()]: the sum of the samples over their number, as an
    exact rational; [None] for the 0 / 0 of an empty window ([NaN]). *)
Definition averageLatency (r : Room) : option Q :=
  match _latencySamples r with
  | [] => None
  | _ =>
      Some (Qdiv (inject_Z (fold_left Z.add (_latencySamples r) 0))
                 (inject_Z (Z.of_nat (length (_latencySamples r)))))
  end.

End Client.

(* ================================================================== *)
(** ** Rooms and frames for the examples *)
(* ================================================================== *)

Module Examples.

(** A numbering of the two enums, for the examples: the members in the order
    in which section 3 of the spec lists the kinds. *)
Definition server_protocol : ServerProtocol :=
  {| SP_Ping := 0; SP_UserPacket := 1; SP_RoomInfo := 2; SP_ClientId := 3;
     SP_Error := 4; SP_CloseReason := 5 |}.

Definition client_protocol : ClientProtocol :=
  {| CP_Ping := 0; CP_UserPacket := 1 |}.

(** "5", "r", "e" and "hi". *)
Definition str_5 : JsString := [53].
Definition str_r : JsString := [114].
Definition str_e : JsString := [101].
Definition str_hi : JsString := [104; 105].

(** A client that has started to connect: the promise is pending. *)
Definition connecting : Client.Room :=
  Client._internalConnect_connected client_protocol 1000 []
    (Client._internalConnect Client.new_Room).

(** A frame whose kind tag is no member of [server_protocol]. *)
Definition unknown_kind : Buffer := [byte_of_Z 200].

(** A UserPacket with numeric event 5 and the payload tag 7. *)
Definition bad_payload_tag : Buffer :=
  [byte_of_Z 1; byte_of_Z 0; byte_of_Z 5; byte_of_Z 7].

(** Two sessions, 0 joined and 1 not. *)
Definition heap : Server.Heap :=
  fun c =>
    match c with
    | O => {| Server.id := 10; Server.status := Server.JOINED |}
    | _ => {| Server.id := 11; Server.status := Server.CLOSED |}
    end.

Definition two_sessions : Server.Room :=
  Server.set_clients (Server.new_Room str_r) [(10, 0%nat); (11, 1%nat)].

(** A client with a handler for the numeric event 5. *)
Definition listening : Client.Room :=
  Client.set_messageHandlers [(EvNumber 5, 1%nat)] Client.new_Room.

(** Twelve rounds of the ping cycle, five seconds apart: the time of each
    ping and the round-trip time of its reply. *)
Definition twelve_rounds : list (Z * Z) :=
  [(0, 50); (5000, 150); (10000, 40); (15000, 41); (20000, 42); (25000, 43);
   (30000, 44); (35000, 45); (40000, 46); (45000, 47); (50000, 48); (55000, 49)].

End Examples.

(* ================================================================== *)
(** ** Bytes, code units and the Buffer API *)
(* ================================================================== *)

Lemma BUFFER_SIZE_eq : BUFFER_SIZE = 16777216.
Proof. reflexivity. Qed.

(** The bytes of numeric event 5 with the text "hi", behind the kind tag 1. *)
Example _packMessage_5_hi :
  _packMessage 1 (EvNumber 5) (CString Examples.str_hi)
  = Ok (map byte_of_Z [1; 0; 5; 1; 2; 0; 104; 0; 105; 0]).
Proof. reflexivity. Qed.

(** ... and of the string event "hi" with a two-byte Buffer. *)
Example _packMessage_hi_bytes :
  _packMessage 1 (EvString Examples.str_hi) (CBuffer (map byte_of_Z [7; 255]))
  = Ok (map byte_of_Z [1; 1; 2; 0; 104; 0; 105; 0; 0; 7; 255]).
Proof. reflexivity. Qed.

(** A numeric event outside 0-255 is refused by [writeUInt8]. *)
Example _packMessage_event_out_of_range :
  _packMessage 1 (EvNumber 256) (CString Examples.str_hi) = Throw ERR_OUT_OF_RANGE.
Proof. reflexivity. Qed.

Example Number_toString_255 : Number_toString 255 = [50; 53; 53].
Proof. reflexivity. Qed.

Example ToPropertyKey_5 :
  ToPropertyKey (EvNumber 5) = ToPropertyKey (EvString Examples.str_5).
Proof. reflexivity. Qed.

Lemma Z_of_byte_range (b : byte) : 0 <= Z_of_byte b <= 255.
Proof.
  unfold Z_of_byte. pose proof (Byte.to_N_bounded b). lia.
Qed.

Lemma Z_of_byte_of_Z_mod (v : Z) : Z_of_byte (byte_of_Z v) = v mod 256.
Proof.
  unfold Z_of_byte, byte_of_Z.
  pose proof (Z.mod_pos_bound v 256 ltac:(lia)) as Hm.
  destruct (Byte.of_N (Z.to_N (v mod 256))) as [b|] eqn:E.
  - apply Byte.to_of_N in E. rewrite E. lia.
  - apply Byte.of_N_None_iff in E. lia.
Qed.

Lemma Z_of_byte_of_Z (v : Z) : 0 <= v <= 255 -> Z_of_byte (byte_of_Z v) = v.
Proof.
  intros H. rewrite Z_of_byte_of_Z_mod. apply Z.mod_small. lia.
Qed.

Lemma byte_of_Z_of_byte (b : byte) : byte_of_Z (Z_of_byte b) = b.
Proof.
  unfold byte_of_Z. pose proof (Z_of_byte_range b) as Hr.
  rewrite Z.mod_small by lia. unfold Z_of_byte.
  rewrite N2Z.id, Byte.of_to_N. reflexivity.
Qed.

Lemma u16_of_bytes (c : Z) :
  0 <= c <= 65535 ->
  Z_of_byte (byte_of_Z c) + 256 * Z_of_byte (byte_of_Z (c / 256)) = c.
Proof.
  intros H. rewrite Z_of_byte_of_Z_mod.
  rewrite Z_of_byte_of_Z.
  - rewrite (Z.div_mod c 256) at 3 by lia. lia.
  - split; [apply Z.div_pos; lia | ].
    assert (c / 256 < 256) by (apply Z.div_lt_upper_bound; lia). lia.
Qed.

Lemma utf16le_encode_length (s : JsString) :
  length (utf16le_encode s) = (2 * length s)%nat.
Proof.
  induction s as [|c s IH]; simpl; [reflexivity | rewrite IH; lia].
Qed.

Lemma utf16le_decode_encode (s : JsString) :
  wf_string s -> utf16le_decode (utf16le_encode s) = s.
Proof.
  induction 1 as [|c s Hc _ IH]; simpl; [reflexivity | ].
  rewrite IH. f_equal. apply u16_of_bytes. unfold code_unit in Hc. lia.
Qed.

Lemma nth_error_at {A} (p : list A) (x : A) (r : list A) (n : nat) :
  n = length p -> nth_error (p ++ x :: r) n = Some x.
Proof.
  intros ->. rewrite nth_error_app2 by lia. rewrite Nat.sub_diag. reflexivity.
Qed.

Lemma readUInt8_at (buf p : list byte) (b : byte) (r : list byte) (ref : nat) :
  buf = p ++ b :: r -> ref = length p -> readUInt8 buf ref = Ok (Z_of_byte b).
Proof.
  intros -> H. unfold readUInt8. rewrite (nth_error_at p b r ref H). reflexivity.
Qed.

Lemma index_at (buf p : list byte) (b : byte) (r : list byte) (ref : nat) :
  buf = p ++ b :: r -> ref = length p -> index buf ref = Some (Z_of_byte b).
Proof.
  intros -> H. unfold index. rewrite (nth_error_at p b r ref H). reflexivity.
Qed.

Lemma readUInt16LE_at (buf p : list byte) (v : Z) (r : list byte) (ref : nat) :
  buf = p ++ Wire.u16le v ++ r -> ref = length p -> 0 <= v <= 65535 ->
  readUInt16LE buf ref = Ok v.
Proof.
  intros -> H Hv. unfold readUInt16LE, Wire.u16le. cbn [app].
  rewrite (nth_error_at p _ _ ref H).
  replace (p ++ byte_of_Z v :: byte_of_Z (v / 256) :: r)
    with ((p ++ [byte_of_Z v]) ++ byte_of_Z (v / 256) :: r)
    by (rewrite <- app_assoc; reflexivity).
  rewrite nth_error_at by (rewrite length_app; cbn [length]; lia).
  rewrite u16_of_bytes by assumption. reflexivity.
Qed.

Lemma subarray_from_at (buf p r : list byte) (ref : nat) :
  buf = p ++ r -> ref = length p -> subarray_from buf ref = r.
Proof.
  intros -> ->. unfold subarray_from. rewrite skipn_app, Nat.sub_diag.
  rewrite skipn_all. reflexivity.
Qed.

Lemma toString_utf16le_at (buf p : list byte) (s : JsString) (r : list byte)
  (ref : nat) (len : Z) :
  buf = p ++ utf16le_encode s ++ r -> ref = length p -> len = str_length s ->
  wf_string s ->
  toString_utf16le buf ref (ref + Z.to_nat (len * 2)) = s.
Proof.
  intros -> -> -> Hs. unfold toString_utf16le.
  rewrite skipn_app, Nat.sub_diag, skipn_all. cbn [app skipn].
  replace (length p + Z.to_nat (str_length s * 2) - length p)%nat
    with (length (utf16le_encode s))
    by (rewrite utf16le_encode_length; unfold str_length; lia).
  rewrite firstn_app, Nat.sub_diag, firstn_all. cbn [firstn].
  rewrite app_nil_r. apply utf16le_decode_encode. assumption.
Qed.

Lemma writeUInt8_ok (v : Z) (out : Packing) :
  0 <= v <= 255 -> ref_value out + 1 <= BUFFER_SIZE ->
  writeUInt8 v out = Ok (out ++ [byte_of_Z v]).
Proof.
  intros Hv Ho. unfold writeUInt8.
  replace (0 <=? v) with true by (symmetry; apply Z.leb_le; lia).
  replace (v <=? 255) with true by (symmetry; apply Z.leb_le; lia).
  replace (ref_value out + 1 <=? BUFFER_SIZE) with true
    by (symmetry; apply Z.leb_le; lia).
  reflexivity.
Qed.

Lemma writeUInt16LE_ok (v : Z) (out : Packing) :
  0 <= v <= 65535 -> ref_value out + 2 <= BUFFER_SIZE ->
  writeUInt16LE v out = Ok (out ++ Wire.u16le v).
Proof.
  intros Hv Ho. unfold writeUInt16LE.
  replace (0 <=? v) with true by (symmetry; apply Z.leb_le; lia).
  replace (v <=? 65535) with true by (symmetry; apply Z.leb_le; lia).
  replace (ref_value out + 2 <=? BUFFER_SIZE) with true
    by (symmetry; apply Z.leb_le; lia).
  reflexivity.
Qed.

Lemma write_utf16le_fits (s : JsString) (out : Packing) :
  ref_value out + 2 * str_length s <= BUFFER_SIZE ->
  write_utf16le s out = out ++ utf16le_encode s.
Proof.
  intros H. unfold write_utf16le.
  assert (Hd : str_length s <= (BUFFER_SIZE - ref_value out) / 2)
    by (apply Z.div_le_lower_bound; lia).
  rewrite Z.min_l by assumption.
  unfold str_length. rewrite Nat2Z.id, firstn_all. reflexivity.
Qed.

Lemma copy_fits (data : Buffer) (out : Packing) :
  ref_value out + buf_length data <= BUFFER_SIZE ->
  copy data out = out ++ data.
Proof.
  intros H. unfold copy. rewrite Z.min_l by lia.
  unfold buf_length. rewrite Nat2Z.id, firstn_all. reflexivity.
Qed.

(* ================================================================== *)
(** ** The codec: [_packMessage] writes the wire format, the server reads it back *)
(* ================================================================== *)

Lemma wire_text_length (s : JsString) :
  buf_length (Wire.text s) = 2 + 2 * str_length s.
Proof.
  unfold buf_length, Wire.text, str_length.
  rewrite length_app, utf16le_encode_length.
  change (length (Wire.u16le (Z.of_nat (length s)))) with 2%nat. lia.
Qed.

Lemma wire_event_length (e : EventId) :
  Wire.event_fits e -> 2 <= buf_length (Wire.event e) <= 131073.
Proof.
  destruct e as [n|s]; simpl; intros H.
  - unfold buf_length. simpl. lia.
  - pose proof (wire_text_length s) as Ht. unfold buf_length in *.
    change (length (byte_of_Z 1 :: Wire.text s)) with (S (length (Wire.text s))).
    unfold str_length in *. lia.
Qed.

(** Arithmetic on lengths and offsets. *)
Ltac lens :=
  unfold Wire.UserPacket, Wire.event, Wire.payload, Wire.text, Wire.u16le,
    ref_value, buf_length, str_length in *;
  repeat first [ progress cbn [length app] in *
               | rewrite length_app in *
               | rewrite utf16le_encode_length in * ];
  lia.

(** One write of [_packMessage] that succeeds and writes all it is given. *)
Ltac pack_step :=
  first [ rewrite writeUInt8_ok by lens
        | rewrite writeUInt16LE_ok by lens
        | rewrite write_utf16le_fits by lens
        | rewrite copy_fits by lens ];
  cbn [bind].

(** Refinement: within the limits of the format, [_packMessage] returns the
    layout of section 4.1. *)
Lemma _packMessage_wire (kindTag : Z) (e : EventId) (d : Content) :
  0 <= kindTag <= 255 ->
  Wire.valid_event e -> Wire.event_fits e -> Wire.content_fits kindTag e d ->
  _packMessage kindTag e d = Ok (Wire.UserPacket kindTag e d).
Proof.
  intros Hk Hv Hf Hc. unfold _packMessage.
  pose proof BUFFER_SIZE_eq as HB.
  pose proof (wire_event_length e Hf) as He.
  destruct e as [n|s]; destruct d as [b|s']; simpl in Hv, Hf, Hc;
    unfold Wire.UserPacket in *; cbn [Wire.payload Wire.event] in *;
    repeat pack_step;
    unfold Wire.text, Wire.u16le; cbn [app];
    rewrite <- ?app_assoc; reflexivity.
Qed.

(** The shape of a buffer, up to the association of its parts. *)
Ltac shape :=
  unfold Wire.UserPacket, Wire.event, Wire.payload, Wire.text, Wire.u16le;
  cbn [app]; rewrite <- ?app_assoc; cbn [app]; reflexivity.

Lemma server_readEvent_wire (p : list byte) (e : EventId) (r : list byte) :
  Wire.valid_event e -> Wire.event_fits e ->
  Server.readEvent (p ++ Wire.event e ++ r) (length p)
  = Ok (Some (e, length (p ++ Wire.event e))).
Proof.
  intros Hv Hf. unfold Server.readEvent.
  destruct e as [n|s]; simpl in Hv, Hf.
  - rewrite (readUInt8_at _ p (byte_of_Z 0) (byte_of_Z n :: r)) by (shape || lens).
    rewrite Z_of_byte_of_Z by lia. cbn [bind].
    rewrite (readUInt8_at _ (p ++ [byte_of_Z 0]) (byte_of_Z n) r)
      by (shape || lens).
    rewrite Z_of_byte_of_Z by lia. cbn [bind].
    do 3 f_equal. lens.
  - rewrite (readUInt8_at _ p (byte_of_Z 1) (Wire.text s ++ r)) by (shape || lens).
    rewrite Z_of_byte_of_Z by lia. cbn [bind].
    rewrite (readUInt16LE_at _ (p ++ [byte_of_Z 1]) (str_length s)
               (utf16le_encode s ++ r)) by (shape || lens).
    cbn [bind].
    rewrite (toString_utf16le_at _ (p ++ byte_of_Z 1 :: Wire.u16le (str_length s))
               s r) by (shape || lens || reflexivity || assumption).
    do 3 f_equal. lens.
Qed.

Lemma server_getUserMessageContent_wire (p : list byte) (d : Content) :
  Wire.valid_content d ->
  match d with CBuffer _ => True | CString s => str_length s <= 65535 end ->
  exists ref',
    Server._getUserMessageContent (p ++ Wire.payload d) (length p) = Ok (d, ref').
Proof.
  intros Hv Hf. unfold Server._getUserMessageContent.
  destruct d as [b|s]; simpl in Hv, Hf.
  - rewrite (readUInt8_at _ p (byte_of_Z 0) b) by (shape || lens).
    rewrite Z_of_byte_of_Z by lia. cbn [bind].
    rewrite (subarray_from_at _ (p ++ [byte_of_Z 0]) b) by (shape || lens).
    eexists. reflexivity.
  - rewrite (readUInt8_at _ p (byte_of_Z 1) (Wire.text s)) by (shape || lens).
    rewrite Z_of_byte_of_Z by lia. cbn [bind].
    rewrite (readUInt16LE_at _ (p ++ [byte_of_Z 1]) (str_length s)
               (utf16le_encode s)) by (shape || lens).
    cbn [bind].
    rewrite (toString_utf16le_at _ (p ++ byte_of_Z 1 :: Wire.u16le (str_length s))
               s []) by (rewrite ?app_nil_r; (shape || lens || reflexivity || assumption)).
    eexists. reflexivity.
Qed.

Lemma server_dispatch_own (inherits : option Fn -> JsString -> bool)
  (r : Server.Room) (client : Server.ClientRef) (e : EventId) (h : Fn)
  (buf : Buffer) (ref ref' : nat) (d : Content) :
  property_get inherits (Server._messageHandlers r) (ToPropertyKey e) = Own h ->
  Server._getUserMessageContent buf ref = Ok (d, ref') ->
  Server.dispatch inherits r client e buf ref = Ok [Server.HandlerCall h client d].
Proof.
  intros Hp Hc. unfold Server.dispatch. rewrite Hp, Hc. reflexivity.
Qed.

(** C1 (as amended). For a UserPacket whose event is a number in 0-255 or a
    string and whose payload is a Buffer or a string, where every string has
    at most 65535 code units (its length field is a u16) and the frame fits
    in the 16 MiB send buffer: the client's [_packMessage] returns bytes from
    which the server's [_internalOnUserMessage] reads back the same event
    (tag and value) and the same payload (tag and value), and hands that
    payload to the handler registered for the event. *)
Theorem userPacket_roundtrip (kindTag : Z) (e : EventId) (d : Content) :
  0 <= kindTag <= 255 ->
  Wire.valid_event e -> Wire.valid_content d ->
  Wire.event_fits e -> Wire.content_fits kindTag e d ->
  exists bytes ref ref',
    _packMessage kindTag e d = Ok bytes /\
    Server.readEvent bytes 1 = Ok (Some (e, ref)) /\
    Server._getUserMessageContent bytes ref = Ok (d, ref') /\
    forall inherits r client h,
      property_get inherits (Server._messageHandlers r) (ToPropertyKey e) = Own h ->
      Server._internalOnUserMessage inherits r client bytes 1
      = Ok [Server.HandlerCall h client d].
Proof.
  intros Hk He Hd Hfe Hfd.
  assert (Hfs : match d with CBuffer _ => True | CString s => str_length s <= 65535 end)
    by (destruct d; simpl in *; auto).
  destruct (server_getUserMessageContent_wire
              (byte_of_Z kindTag :: Wire.event e) d Hd Hfs) as [ref' Hc].
  pose proof (server_readEvent_wire [byte_of_Z kindTag] e (Wire.payload d) He Hfe)
    as Hr.
  change ([byte_of_Z kindTag] ++ Wire.event e ++ Wire.payload d)
    with (Wire.UserPacket kindTag e d) in Hr.
  change (length [byte_of_Z kindTag]) with 1%nat in Hr.
  change ((byte_of_Z kindTag :: Wire.event e) ++ Wire.payload d)
    with (Wire.UserPacket kindTag e d) in Hc.
  change ([byte_of_Z kindTag] ++ Wire.event e)
    with (byte_of_Z kindTag :: Wire.event e) in Hr.
  exists (Wire.UserPacket kindTag e d),
         (length (byte_of_Z kindTag :: Wire.event e)), ref'.
  split; [apply _packMessage_wire; assumption | ].
  split; [exact Hr | ].
  split; [exact Hc | ].
  intros inherits r client h Hp.
  unfold Server._internalOnUserMessage. rewrite Hr. cbn [bind].
  apply (server_dispatch_own inherits r client e h _ _ ref' d Hp Hc).
Qed.

(** Scenario A: numeric event 5 with text payload "hi". *)
Lemma userPacket_roundtrip_scenario_A :
  (0 <= 1 <= 255) /\
  Wire.valid_event (EvNumber 5) /\ Wire.valid_content (CString [104; 105]) /\
  Wire.event_fits (EvNumber 5) /\
  Wire.content_fits 1 (EvNumber 5) (CString [104; 105]) /\
  exists bytes ref ref',
    _packMessage 1 (EvNumber 5) (CString [104; 105]) = Ok bytes /\
    Server.readEvent bytes 1 = Ok (Some (EvNumber 5, ref)) /\
    Server._getUserMessageContent bytes ref = Ok (CString [104; 105], ref') /\
    forall inherits r client h,
      property_get inherits (Server._messageHandlers r)
        (ToPropertyKey (EvNumber 5)) = Own h ->
      Server._internalOnUserMessage inherits r client bytes 1
      = Ok [Server.HandlerCall h client (CString [104; 105])].
Proof.
  assert (Hk : 0 <= 1 <= 255) by lia.
  assert (He : Wire.valid_event (EvNumber 5)) by (simpl; lia).
  assert (Hd : Wire.valid_content (CString [104; 105]))
    by (repeat constructor; unfold code_unit; lia).
  assert (Hfe : Wire.event_fits (EvNumber 5)) by exact I.
  assert (Hfd : Wire.content_fits 1 (EvNumber 5) (CString [104; 105]))
    by (simpl; unfold str_length; simpl; lia).
  repeat (split; [assumption | ]).
  exact (userPacket_roundtrip 1 (EvNumber 5) (CString [104; 105]) Hk He Hd Hfe Hfd).
Defined.

(** A string of more than 65535 code units does not fit its length field:
    [writeUInt16LE] throws. *)
Lemma _packMessage_long_event_throws (kindTag : Z) (s : JsString) (d : Content) :
  0 <= kindTag <= 255 -> 65535 < str_length s ->
  _packMessage kindTag (EvString s) d = Throw ERR_OUT_OF_RANGE.
Proof.
  intros Hk Hs. unfold _packMessage. pose proof BUFFER_SIZE_eq.
  repeat pack_step. unfold writeUInt16LE.
  replace (str_length s <=? 65535) with false by (symmetry; apply Z.leb_gt; lia).
  rewrite andb_false_r. reflexivity.
Qed.

Lemma oversize_payload_length : buf_length Wire.oversize_payload = BUFFER_SIZE.
Proof.
  unfold buf_length, Wire.oversize_payload. rewrite repeat_length.
  pose proof BUFFER_SIZE_eq. rewrite Z2Nat.id; lia.
Qed.

Lemma _packMessage_truncates (B : Buffer) :
  BUFFER_SIZE - 4 <= buf_length B ->
  _packMessage 1 (EvNumber 5) (CBuffer B)
  = Ok ([byte_of_Z 1; byte_of_Z 0; byte_of_Z 5; byte_of_Z 0]
        ++ firstn (Z.to_nat (BUFFER_SIZE - 4)) B).
Proof.
  intros HL. pose proof BUFFER_SIZE_eq as HB.
  unfold _packMessage. repeat pack_step. unfold copy.
  cbn [app]. do 7 f_equal. unfold ref_value. cbn [length]. lia.
Qed.

Lemma server_reads_event_5 (body : list byte) :
  Server.readEvent
    ([byte_of_Z 1; byte_of_Z 0; byte_of_Z 5; byte_of_Z 0] ++ body) 1
  = Ok (Some (EvNumber 5, 3%nat)).
Proof.
  unfold Server.readEvent.
  rewrite (readUInt8_at _ [byte_of_Z 1] (byte_of_Z 0)
             (byte_of_Z 5 :: byte_of_Z 0 :: body)) by reflexivity.
  rewrite Z_of_byte_of_Z by lia. cbn [bind].
  rewrite (readUInt8_at _ [byte_of_Z 1; byte_of_Z 0] (byte_of_Z 5)
             (byte_of_Z 0 :: body)) by reflexivity.
  rewrite Z_of_byte_of_Z by lia. reflexivity.
Qed.

Lemma server_reads_buffer_payload (body : list byte) :
  Server._getUserMessageContent
    ([byte_of_Z 1; byte_of_Z 0; byte_of_Z 5; byte_of_Z 0] ++ body) 3
  = Ok (CBuffer body, 4%nat).
Proof.
  unfold Server._getUserMessageContent.
  rewrite (readUInt8_at _ [byte_of_Z 1; byte_of_Z 0; byte_of_Z 5] (byte_of_Z 0)
             body) by reflexivity.
  rewrite Z_of_byte_of_Z by lia. cbn [bind].
  rewrite (subarray_from_at _ [byte_of_Z 1; byte_of_Z 0; byte_of_Z 5; byte_of_Z 0]
             body) by reflexivity.
  reflexivity.
Qed.

Lemma CBuffer_inj (a b : Buffer) : CBuffer a = CBuffer b -> a = b.
Proof. intros E. injection E as E. exact E. Qed.

Lemma firstn_shorter (B : Buffer) (n : Z) :
  0 <= n < buf_length B -> firstn (Z.to_nat n) B <> B.
Proof.
  intros Hn E. pose proof (firstn_le_length (Z.to_nat n) B) as Hl.
  rewrite E in Hl. unfold buf_length in Hn. lia.
Qed.

(** C1, counterexample. A numeric event with a Buffer payload as long as the
    send buffer: [_packMessage] returns bytes, [data.copy] having copied only
    what fits behind the four header bytes, and the server reads back a
    shorter payload. *)
Lemma userPacket_roundtrip_oversize :
  Wire.valid_event (EvNumber 5) /\
  Wire.valid_content (CBuffer Wire.oversize_payload) /\
  exists bytes d' ref',
    _packMessage 1 (EvNumber 5) (CBuffer Wire.oversize_payload) = Ok bytes /\
    Server.readEvent bytes 1 = Ok (Some (EvNumber 5, 3%nat)) /\
    Server._getUserMessageContent bytes 3 = Ok (d', ref') /\
    d' <> CBuffer Wire.oversize_payload.
Proof.
  split; [simpl; lia | ]. split; [exact I | ].
  pose proof oversize_payload_length as HL.
  pose proof BUFFER_SIZE_eq as HB.
  eexists _, _, _. split.
  - apply _packMessage_truncates. lia.
  - split; [apply server_reads_event_5 | ].
    split; [apply server_reads_buffer_payload | ].
    intros E. apply CBuffer_inj in E. revert E. apply firstn_shorter. lia.
Qed.

(* ================================================================== *)
(** ** The ticker over rationals: the clamp and the loop test *)
(* ================================================================== *)

Section TickerFacts.
Import Server.
Local Open Scope Q_scope.

Lemma Math_min_nonneg (a b : Q) : 0 <= a -> 0 <= b -> 0 <= Math_min a b.
Proof.
  intros Ha Hb. unfold Math_min. destruct (Qle_bool a b); assumption.
Qed.

Lemma Math_min_elapsed (m l e : Q) : Math_min m (l + e - l) == Math_min m e.
Proof.
  unfold Math_min.
  assert (E : l + e - l == e) by ring.
  destruct (Qle_bool m (l + e - l)) eqn:A; destruct (Qle_bool m e) eqn:B;
    try reflexivity; try exact E.
  - rewrite Qle_bool_iff in A. rewrite E in A.
    rewrite <- Qle_bool_iff in A. congruence.
  - rewrite Qle_bool_iff in B. rewrite <- E in B.
    rewrite <- Qle_bool_iff in B. congruence.
Qed.

Lemma step_due_true (t : Ticker) (s : Q) :
  _deltaTimeMs t = Some s -> s <= _accumulator t -> step_due t = true.
Proof.
  intros Hd H. unfold step_due. rewrite Hd. apply Qle_bool_iff. assumption.
Qed.

End TickerFacts.

(* ================================================================== *)
(** ** [Map] *)
(* ================================================================== *)

Section JsMapFacts.
Context {K V : Type} (eq_dec : forall a b : K, {a = b} + {a <> b}).

Lemma JsMap_get_set_same (m : JsMap.t) (k : K) (v : V) :
  JsMap.get eq_dec (JsMap.set eq_dec m k v) k = Some v.
Proof.
  induction m as [|[k' v'] m IH]; simpl.
  - destruct (eq_dec k k); [reflexivity | contradiction].
  - destruct (eq_dec k k') as [E|N]; simpl.
    + destruct (eq_dec k k); [reflexivity | contradiction].
    + destruct (eq_dec k k'); [contradiction | exact IH].
Qed.

Lemma JsMap_get_set_other (m : JsMap.t) (k k' : K) (v : V) :
  k' <> k ->
  JsMap.get eq_dec (JsMap.set eq_dec m k v) k' = JsMap.get eq_dec m k'.
Proof.
  intros Hne. induction m as [|[k0 v0] m IH]; simpl.
  - destruct (eq_dec k' k); [contradiction | reflexivity].
  - destruct (eq_dec k k0) as [E|N]; simpl.
    + subst k0. destruct (eq_dec k' k); [contradiction | reflexivity].
    + destruct (eq_dec k' k0); [reflexivity | exact IH].
Qed.

Lemma JsMap_get_delete_same (m : JsMap.t (V := V)) (k : K) :
  JsMap.get eq_dec (JsMap.delete eq_dec m k) k = None.
Proof.
  induction m as [|[k' v'] m IH]; simpl; [reflexivity | ].
  destruct (eq_dec k k') as [E|N]; simpl; [exact IH | ].
  destruct (eq_dec k k'); [contradiction | exact IH].
Qed.

Lemma JsMap_get_delete_other (m : JsMap.t (V := V)) (k k' : K) :
  k' <> k ->
  JsMap.get eq_dec (JsMap.delete eq_dec m k) k' = JsMap.get eq_dec m k'.
Proof.
  intros Hne. induction m as [|[k0 v0] m IH]; simpl; [reflexivity | ].
  destruct (eq_dec k k0) as [E|N]; simpl.
  - subst k0. destruct (eq_dec k' k); [contradiction | exact IH].
  - destruct (eq_dec k' k0); [reflexivity | exact IH].
Qed.

Lemma JsMap_delete_not_in (m : JsMap.t (V := V)) (k : K) (v : V) :
  ~ In (k, v) (JsMap.delete eq_dec m k).
Proof.
  unfold JsMap.delete. intros H. apply filter_In in H. destruct H as [_ H].
  simpl in H. destruct (eq_dec k k); [discriminate | contradiction].
Qed.

End JsMapFacts.

(* ================================================================== *)
(** ** The server's registry: sending and leaving *)
(* ================================================================== *)

Lemma _broadcast_joined (heap : Server.Heap) (r : Server.Room) (msg : Buffer) :
  Server._broadcast heap r msg
  = map (fun c => Server.InternalSend c msg)
      (filter (Server.is_joined heap) (map snd (Server.clients r))).
Proof.
  unfold Server._broadcast. induction (Server.clients r) as [|[k c] m IH]; simpl.
  - reflexivity.
  - unfold Server.is_joined at 1.
    destruct (Server.ClientStatus_eq_dec (Server.status (heap c)) Server.JOINED);
      simpl; rewrite IH; reflexivity.
Qed.

(** C4. A session whose status is not JOINED gets nothing from [send], which
    returns at once without packing, and nothing from [_broadcast] or
    [broadcast], which deliver the message to the JOINED sessions of the
    registry, in its order, and to no other; none of the three throws on
    account of the session ([broadcast] throws only what [_packMessage]
    throws, before any session is looked at). *)
Theorem send_and_broadcast_gated (P : ServerProtocol) (heap : Server.Heap)
  (r : Server.Room) (client : Server.ClientRef) :
  Server.status (heap client) <> Server.JOINED ->
  (forall event data, Server.send P heap r client event data = Ok []) /\
  (forall msg,
     Server._broadcast heap r msg
     = map (fun c => Server.InternalSend c msg)
         (filter (Server.is_joined heap) (map snd (Server.clients r)))) /\
  (forall msg sent, ~ In (Server.InternalSend client sent)
                      (Server._broadcast heap r msg)) /\
  (forall event data,
     match Server.broadcast P heap r event data with
     | Ok effects =>
         (exists msg,
            _packMessage (SP_UserPacket P) event data = Ok msg /\
            effects = Server._broadcast heap r msg) /\
         forall sent, ~ In (Server.InternalSend client sent) effects
     | Throw e => _packMessage (SP_UserPacket P) event data = Throw e
     end).
Proof.
  intros Hst.
  assert (Hnot : forall msg sent,
            ~ In (Server.InternalSend client sent) (Server._broadcast heap r msg)).
  { intros msg sent H. rewrite _broadcast_joined in H.
    apply in_map_iff in H. destruct H as (c & E & Hin).
    injection E as -> ->. apply filter_In in Hin. destruct Hin as [_ Hj].
    unfold Server.is_joined in Hj.
    destruct (Server.ClientStatus_eq_dec (Server.status (heap client)) Server.JOINED);
      [contradiction | discriminate]. }
  split.
  - intros event data. unfold Server.send.
    destruct (Server.ClientStatus_eq_dec (Server.status (heap client)) Server.JOINED);
      [contradiction | reflexivity].
  - split; [intros msg; apply _broadcast_joined | ].
    split; [exact Hnot | ].
    intros event data. unfold Server.broadcast.
    destruct (_packMessage (SP_UserPacket P) event data) as [msg|e]; simpl.
    + split; [exists msg; split; reflexivity | intros sent; apply Hnot].
    + reflexivity.
Qed.

(** Session 1 of [Examples.heap] is closed: [send] to it does nothing, and a
    broadcast reaches session 0 only. *)
Lemma send_and_broadcast_gated_example :
  (forall event data,
     Server.send Examples.server_protocol Examples.heap Examples.two_sessions
       1%nat event data = Ok []) /\
  Server._broadcast Examples.heap Examples.two_sessions [byte_of_Z 1]
  = [Server.InternalSend 0%nat [byte_of_Z 1]].
Proof.
  destruct (send_and_broadcast_gated Examples.server_protocol Examples.heap
              Examples.two_sessions 1%nat ltac:(discriminate))
    as (Hs & Hb & _).
  split; [exact Hs | ]. rewrite Hb. reflexivity.
Defined.

(** C5. [_internalOnClose] calls the leave hook once, after it has deleted
    the session from the registry: the registry that the hook finds, which is
    the registry afterwards, has no entry for the session's id, and still has
    every other entry. *)
Theorem leave_hook_after_removal (heap : Server.Heap) (r : Server.Room)
  (client : Server.ClientRef) :
  exists registry,
    snd (Server._internalOnClose heap r client)
    = [Server.OnClientLeft client registry] /\
    Server.clients (fst (Server._internalOnClose heap r client)) = registry /\
    JsMap.get Z.eq_dec registry (Server.id (heap client)) = None /\
    (forall c, ~ In (Server.id (heap client), c) registry) /\
    (forall k, k <> Server.id (heap client) ->
       JsMap.get Z.eq_dec registry k = JsMap.get Z.eq_dec (Server.clients r) k).
Proof.
  eexists. split; [reflexivity | ]. split; [reflexivity | ]. simpl.
  split; [apply JsMap_get_delete_same | ].
  split; [intros c; apply JsMap_delete_not_in | ].
  intros k Hk. apply JsMap_get_delete_other. exact Hk.
Qed.

(* ================================================================== *)
(** ** The handler tables *)
(* ================================================================== *)

(** On the client a registration replaces the handler of the same identifier
    and no other; a number and a string are never the same identifier. *)
Lemma client_onMessage_get (r r' : Client.Room) (event : EventId) (h : Fn) :
  Client.onMessage r event h = Ok r' ->
  JsMap.get EventId_eq_dec (Client._messageHandlers r') event = Some h /\
  forall event', event' <> event ->
    JsMap.get EventId_eq_dec (Client._messageHandlers r') event'
    = JsMap.get EventId_eq_dec (Client._messageHandlers r) event'.
Proof.
  intros H.
  assert (E : r' = Client.set_messageHandlers
                     (JsMap.set EventId_eq_dec (Client._messageHandlers r) event h) r).
  { unfold Client.onMessage in H. destruct event as [n|s].
    - destruct ((255 <? n) || (n <? 0)); [discriminate | ].
      injection H as <-. reflexivity.
    - injection H as <-. reflexivity. }
  subst r'. simpl. split.
  - apply JsMap_get_set_same.
  - intros event' Hne. apply JsMap_get_set_other. exact Hne.
Qed.

(** The objects that [property_set] makes from the empty one have no own
    property [__proto__]. *)
Lemma own_has_no_proto_set (o : HandlerObject) (key : JsString) (h : Fn) :
  JsMap.get JsString_eq_dec (own o) __proto__ = None ->
  JsMap.get JsString_eq_dec (own (property_set o key h)) __proto__ = None.
Proof.
  intros H. unfold property_set.
  destruct (JsString_eq_dec key __proto__) as [E|N]; simpl; [exact H | ].
  rewrite JsMap_get_set_other by (intros E; apply N; symmetry; exact E).
  exact H.
Qed.

(** On the server a registration replaces the handler under the same
    property key. *)
Lemma property_get_set_same (inherits : option Fn -> JsString -> bool)
  (o : HandlerObject) (key : JsString) (h : Fn) :
  JsMap.get JsString_eq_dec (own o) __proto__ = None ->
  property_get inherits (property_set o key h) key = Own h.
Proof.
  intros Hp. unfold property_set, property_get.
  destruct (JsString_eq_dec key __proto__) as [E|N]; simpl.
  - subst key. rewrite Hp.
    destruct (JsString_eq_dec __proto__ __proto__); [reflexivity | contradiction].
  - rewrite JsMap_get_set_same. reflexivity.
Qed.

(** ... and leaves the handlers under every other property key in place. *)
Lemma property_get_set_other (inherits : option Fn -> JsString -> bool)
  (o : HandlerObject) (key key' : JsString) (h h' : Fn) :
  JsMap.get JsString_eq_dec (own o) __proto__ = None ->
  key' <> key ->
  property_get inherits o key' = Own h' ->
  property_get inherits (property_set o key h) key' = Own h'.
Proof.
  intros Hp Hne H. unfold property_set, property_get in *.
  destruct (JsString_eq_dec key __proto__) as [E|N]; simpl.
  - subst key.
    destruct (JsMap.get JsString_eq_dec (own o) key') as [h0|]; [exact H | ].
    destruct (JsString_eq_dec key' __proto__); [contradiction | ].
    destruct (inherits (proto o) key'); discriminate.
  - rewrite JsMap_get_set_other by exact Hne.
    destruct (JsMap.get JsString_eq_dec (own o) key') as [h0|]; [exact H | ].
    exact H.
Qed.

(** C9, at the failing input: a handler registered for the number 5 and then
    one for the string "5". The client keeps both, each under its
    identifier. On the server the second registration has replaced the first:
    the two identifiers have the same property key, and a UserPacket with the
    numeric event 5 is handed to the handler registered for "5". *)
Theorem numeric_and_string_ids :
  EvNumber 5 <> EvString Examples.str_5 /\
  (exists r1 r2,
     Client.onMessage Client.new_Room (EvNumber 5) 1%nat = Ok r1 /\
     Client.onMessage r1 (EvString Examples.str_5) 2%nat = Ok r2 /\
     JsMap.get EventId_eq_dec (Client._messageHandlers r2) (EvNumber 5)
     = Some 1%nat /\
     JsMap.get EventId_eq_dec (Client._messageHandlers r2) (EvString Examples.str_5)
     = Some 2%nat) /\
  (exists r1 r2,
     Server.onMessage (Server.new_Room Examples.str_r) (EvNumber 5) 1%nat = Ok r1 /\
     Server.onMessage r1 (EvString Examples.str_5) 2%nat = Ok r2 /\
     ToPropertyKey (EvNumber 5) = ToPropertyKey (EvString Examples.str_5) /\
     forall inherits client,
       property_get inherits (Server._messageHandlers r1)
         (ToPropertyKey (EvNumber 5)) = Own 1%nat /\
       property_get inherits (Server._messageHandlers r2)
         (ToPropertyKey (EvNumber 5)) = Own 2%nat /\
       Server._internalOnUserMessage inherits r2 client
         (Wire.UserPacket 1 (EvNumber 5) (CString Examples.str_hi)) 1
       = Ok [Server.HandlerCall 2%nat client (CString Examples.str_hi)]).
Proof.
  split; [discriminate | ]. split.
  - eexists _, _. repeat split.
  - eexists _, _. split; [reflexivity | ]. split; [reflexivity | ].
    split; [reflexivity | ].
    intros inherits client. repeat split.
Qed.

(* ================================================================== *)
(** ** The client: the connect attempt *)
(* ================================================================== *)

Lemma connect_result_calls_app (a b : list Client.Effect) :
  Client.connect_result_calls (a ++ b)
  = (Client.connect_result_calls a + Client.connect_result_calls b)%nat.
Proof.
  unfold Client.connect_result_calls. rewrite filter_app, length_app. reflexivity.
Qed.

(** Well-formedness of the strings of an example. *)
Ltac wf_example :=
  unfold Client.well_formed, Wire.valid_event, Wire.valid_content, wf_string,
    code_unit, str_length;
  repeat first [ progress cbn [snd Client.settling_text length Examples.str_5
                               Examples.str_r Examples.str_e Examples.str_hi]
               | split | apply Forall_cons | apply Forall_nil | lia ].

(** The four components of an equation between views. *)
Ltac view_parts H Hp Hc Hk Hr :=
  pose proof (f_equal (fun v => fst (fst (fst v))) H) as Hp;
  pose proof (f_equal (fun v => snd (fst (fst v))) H) as Hc;
  pose proof (f_equal (fun v => snd (fst v)) H) as Hk;
  pose proof (f_equal (fun v => snd v) H) as Hr;
  unfold Client.view in Hp, Hc, Hk, Hr; cbn beta iota delta [fst snd] in Hp, Hc, Hk, Hr.

Lemma view_log (e : Client.Effect) (r : Client.Room) :
  Client.view (Client.log e r)
  = (Client.connect_promise r,
     (Client.connect_result_calls (Client.trace r)
      + Client.connect_result_calls [e])%nat,
     Client._connectResultCallback r, Client._closeReason r).
Proof.
  unfold Client.view. change (Client.trace (Client.log e r)) with (Client.trace r ++ [e]).
  rewrite connect_result_calls_app. reflexivity.
Qed.

(** Calling observers changes the trace only. *)
Lemma view_observers (g : Fn -> Client.Effect) (fs : list Fn) :
  (forall f, Client.connect_result_calls [g f] = 0%nat) ->
  forall r : Client.Room,
    Client.view (fold_left (fun r f => Client.log (g f) r) fs r) = Client.view r.
Proof.
  intros Hg. induction fs as [|f fs IH]; intros r; simpl; [reflexivity | ].
  rewrite IH, view_log, Hg, Nat.add_0_r. reflexivity.
Qed.

(** C10, at the failing input. [_onClose] clears the ping timeout and calls
    the close observers; it does not call the connect-result callback and
    leaves the promise of [_internalConnect] as it is. A client that has sent
    its init packet and first ping and whose transport then closes, before
    any frame has arrived, still has a pending promise. *)
Theorem close_leaves_connect_pending :
  (forall r : Client.Room,
     Client.connect_promise (Client._onClose r) = Client.connect_promise r /\
     Client.connect_result_calls (Client.trace (Client._onClose r))
     = Client.connect_result_calls (Client.trace r)) /\
  Client._connectResultCallback Examples.connecting = true /\
  Client.connect_promise (Client._onClose Examples.connecting) = Client.Pending /\
  Client.connect_result_calls (Client.trace (Client._onClose Examples.connecting))
  = 0%nat.
Proof.
  split.
  - intros r. unfold Client._onClose.
    pose proof (view_observers Client.CloseCallback (Client._closeCallbacks r)
                  ltac:(reflexivity)
                  (Client.set_timers (Client._pingTimeout r)
                     (Client.clearTimeout (Client._pingTimeout r) (Client.timeouts r))
                     (Client.next_handle r) r)) as Hv.
    view_parts Hv Hp Hc Hk Hr.
    split; [exact Hp | exact Hc].
  - repeat split.
Qed.

Lemma distinct_tags_neq (P : ServerProtocol) :
  distinct_tags P ->
  (SP_RoomInfo P <> SP_Ping P /\ SP_RoomInfo P <> SP_UserPacket P) /\
  (SP_Error P <> SP_Ping P /\ SP_Error P <> SP_UserPacket P /\
   SP_Error P <> SP_RoomInfo P /\ SP_Error P <> SP_ClientId P) /\
  (SP_CloseReason P <> SP_Ping P /\ SP_CloseReason P <> SP_UserPacket P /\
   SP_CloseReason P <> SP_RoomInfo P /\ SP_CloseReason P <> SP_ClientId P /\
   SP_CloseReason P <> SP_Error P) /\
  SP_UserPacket P <> SP_Ping P.
Proof.
  unfold distinct_tags. intros H.
  repeat match goal with
         | H : NoDup (_ :: _) |- _ =>
             let Hn := fresh "Hn" in
             apply NoDup_cons_iff in H; destruct H as [Hn H]; simpl in Hn
         end.
  repeat split; intros E; rewrite E in *; tauto.
Qed.

Lemma settling_tag_byte (P : ServerProtocol) (f : Client.Settling) :
  byte_tags P -> 0 <= Client.settling_tag P f <= 255.
Proof.
  unfold byte_tags. intros H.
  repeat match goal with
         | H : Forall _ (_ :: _) |- _ =>
             let Hn := fresh "Hb" in
             apply Forall_cons_iff in H; destruct H as [Hn H]
         end.
  destruct f; simpl; assumption.
Qed.

(** The header of a settling frame, as [_onMessage] reads it. *)
Lemma settling_frame_read (P : ServerProtocol) (f : Client.Settling) :
  byte_tags P -> Client.well_formed f ->
  index (Client.settling_frame P f) 0 = Some (Client.settling_tag P f) /\
  readUInt16LE (Client.settling_frame P f) 1
  = Ok (str_length (Client.settling_text f)) /\
  toString_utf16le (Client.settling_frame P f) 3
    (3 + Z.to_nat (str_length (Client.settling_text f) * 2))
  = Client.settling_text f.
Proof.
  intros Hb [Hwf Hlen]. pose proof (settling_tag_byte P f Hb) as Ht.
  assert (0 <= str_length (Client.settling_text f)) by (unfold str_length; lia).
  unfold Client.settling_frame. split; [ | split].
  - rewrite (index_at _ [] (byte_of_Z (Client.settling_tag P f))
               (Wire.u16le (str_length (Client.settling_text f))
                  ++ utf16le_encode (Client.settling_text f))) by reflexivity.
    rewrite Z_of_byte_of_Z by exact Ht. reflexivity.
  - apply (readUInt16LE_at _ [byte_of_Z (Client.settling_tag P f)] _
             (utf16le_encode (Client.settling_text f))); [reflexivity | reflexivity | lia].
  - apply (toString_utf16le_at _
             (byte_of_Z (Client.settling_tag P f)
                :: Wire.u16le (str_length (Client.settling_text f)))
             (Client.settling_text f) []);
      [rewrite app_nil_r; reflexivity | reflexivity | reflexivity | exact Hwf].
Qed.

(** What [connectResultCallback] does to the promise and the trace. *)
Lemma view_connectResultCallback (error : option JsString) (r : Client.Room) :
  Client.view (Client.connectResultCallback error r)
  = (match Client.connect_promise r with
     | Client.Pending =>
         match error with
         | Some (c :: s) => Client.Rejected (c :: s)
         | _ => Client.Fulfilled
         end
     | p => p
     end,
     S (Client.connect_result_calls (Client.trace r)),
     Client._connectResultCallback r, Client._closeReason r).
Proof.
  pose proof (view_log (Client.ConnectResultCallback error) r) as Hl.
  change (Client.connect_result_calls [Client.ConnectResultCallback error])
    with 1%nat in Hl.
  rewrite Nat.add_1_r in Hl. view_parts Hl Hp Hc Hk Hr.
  unfold Client.view.
  unfold Client.connectResultCallback, Client.resolve, Client.reject.
  change (Client.connect_promise (Client.log (Client.ConnectResultCallback error) r))
    with (Client.connect_promise r).
  destruct error as [[|c s]|]; destruct (Client.connect_promise r);
    unfold Client.set_promise; cbn [Client.connect_promise Client.trace
      Client._connectResultCallback Client._closeReason];
    rewrite ?Hp, ?Hc, ?Hk, ?Hr; reflexivity.
Qed.

(** One settling frame, with the callback set. *)
Lemma _onMessage_settling (P : ServerProtocol) (now : Z) (r : Client.Room)
  (f : Client.Settling) :
  byte_tags P -> distinct_tags P -> Client.well_formed f ->
  Client._connectResultCallback r = true ->
  exists r',
    Client._onMessage P now r (Client.settling_frame P f) = Ok r' /\
    Client.view r'
    = (Client.settle f (Client.connect_promise r),
       S (Client.connect_result_calls (Client.trace r)),
       true,
       match f with
       | Client.CloseReason s => Some s
       | _ => Client._closeReason r
       end).
Proof.
  intros Hb Hd Hwf Hcb.
  destruct (settling_frame_read P f Hb Hwf) as (Hi & Hl & Hs).
  destruct (distinct_tags_neq P Hd)
    as ((R1 & R2) & (E1 & E2 & E3 & E4) & (C1 & C2 & C3 & C4 & C5) & _).
  unfold Client._onMessage. rewrite Hi, Hl. cbn [bind]. rewrite Hs.
  unfold Client.invoke_connectResult.
  destruct f as [s|s|s]; cbn [Client.settling_tag Client.settling_text].
  - rewrite (proj2 (Z.eqb_neq _ _) R1), (proj2 (Z.eqb_neq _ _) R2), Z.eqb_refl.
    eexists. split; [reflexivity | ].
    change (Client._connectResultCallback (Client.set_id s r))
      with (Client._connectResultCallback r). rewrite Hcb.
    rewrite view_connectResultCallback.
    change (Client.connect_promise (Client.set_id s r)) with (Client.connect_promise r).
    change (Client.trace (Client.set_id s r)) with (Client.trace r).
    change (Client._connectResultCallback (Client.set_id s r))
      with (Client._connectResultCallback r).
    change (Client._closeReason (Client.set_id s r)) with (Client._closeReason r).
    rewrite Hcb. unfold Client.settle.
    destruct (Client.connect_promise r); reflexivity.
  - rewrite (proj2 (Z.eqb_neq _ _) E1), (proj2 (Z.eqb_neq _ _) E2),
      (proj2 (Z.eqb_neq _ _) E3), (proj2 (Z.eqb_neq _ _) E4), Z.eqb_refl.
    eexists. split; [reflexivity | ].
    change (Client._connectResultCallback (Client.log (Client.ConsoleError s) r))
      with (Client._connectResultCallback r). rewrite Hcb.
    rewrite view_observers by reflexivity.
    rewrite view_connectResultCallback.
    pose proof (view_log (Client.ConsoleError s) r) as Hv.
    view_parts Hv Hp Hc Hk Hr.
    rewrite Hp, Hc, Hk, Hr, Hcb.
    change (Client.connect_result_calls [Client.ConsoleError s]) with 0%nat.
    rewrite Nat.add_0_r. unfold Client.settle.
    destruct (Client.connect_promise r); destruct s; reflexivity.
  - rewrite (proj2 (Z.eqb_neq _ _) C1), (proj2 (Z.eqb_neq _ _) C2),
      (proj2 (Z.eqb_neq _ _) C3), (proj2 (Z.eqb_neq _ _) C4),
      (proj2 (Z.eqb_neq _ _) C5), Z.eqb_refl.
    eexists. split; [reflexivity | ].
    change (Client._connectResultCallback (Client.log (Client.ConsoleLog s) r))
      with (Client._connectResultCallback r). rewrite Hcb.
    pose proof (view_connectResultCallback (Some s)
                  (Client.log (Client.ConsoleLog s) r)) as Hv.
    pose proof (view_log (Client.ConsoleLog s) r) as Hv'.
    view_parts Hv' Hp Hc Hk Hr.
    rewrite Hp, Hc, Hk, Hr, Hcb in Hv.
    change (Client.connect_result_calls [Client.ConsoleLog s]) with 0%nat in Hv.
    rewrite Nat.add_0_r in Hv.
    view_parts Hv Hp' Hc' Hk' Hr'. unfold Client.view.
    unfold Client.set_closeReason.
    cbn [Client.connect_promise Client.set_closeReason Client.trace
      Client._connectResultCallback Client._closeReason].
    rewrite Hp', Hc', Hk'. unfold Client.settle.
    destruct (Client.connect_promise r); destruct s; reflexivity.
Qed.

Lemma trace_fold_log (g : Fn -> Client.Effect) (fs : list Fn) :
  forall r : Client.Room,
    Client.trace (fold_left (fun r f => Client.log (g f) r) fs r)
    = Client.trace r ++ map g fs.
Proof.
  induction fs as [|f fs IH]; intros r; simpl; [rewrite app_nil_r; reflexivity | ].
  rewrite IH. change (Client.trace (Client.log (g f) r)) with (Client.trace r ++ [g f]).
  rewrite <- app_assoc. reflexivity.
Qed.

Lemma id_fold_log (g : Fn -> Client.Effect) (fs : list Fn) :
  forall r : Client.Room,
    Client._id (fold_left (fun r f => Client.log (g f) r) fs r) = Client._id r.
Proof.
  induction fs as [|f fs IH]; intros r; simpl; [reflexivity | ].
  rewrite IH. reflexivity.
Qed.

Lemma trace_connectResultCallback (error : option JsString) (r : Client.Room) :
  Client.trace (Client.connectResultCallback error r)
  = Client.trace r ++ [Client.ConnectResultCallback error] /\
  Client._serverErrorCallbacks (Client.connectResultCallback error r)
  = Client._serverErrorCallbacks r /\
  Client._id (Client.connectResultCallback error r) = Client._id r.
Proof.
  unfold Client.connectResultCallback, Client.resolve, Client.reject.
  change (Client.connect_promise (Client.log (Client.ConnectResultCallback error) r))
    with (Client.connect_promise r).
  destruct error as [[|c s]|]; destruct (Client.connect_promise r);
    repeat split.
Qed.

(** One settling frame, with the callback set: what it adds to the trace and
    what it stores. *)
Lemma _onMessage_settling_trace (P : ServerProtocol) (now : Z) (r : Client.Room)
  (f : Client.Settling) :
  byte_tags P -> distinct_tags P -> Client.well_formed f ->
  Client._connectResultCallback r = true ->
  exists r',
    Client._onMessage P now r (Client.settling_frame P f) = Ok r' /\
    Client.trace r'
    = Client.trace r ++ Client.settling_effects f (Client._serverErrorCallbacks r) /\
    Client._id r'
    = match f with Client.RoomInfo s => Some s | _ => Client._id r end.
Proof.
  intros Hb Hd Hwf Hcb.
  destruct (settling_frame_read P f Hb Hwf) as (Hi & Hl & Hs).
  destruct (distinct_tags_neq P Hd)
    as ((R1 & R2) & (E1 & E2 & E3 & E4) & (C1 & C2 & C3 & C4 & C5) & _).
  unfold Client._onMessage. rewrite Hi, Hl. cbn [bind]. rewrite Hs.
  unfold Client.invoke_connectResult.
  destruct f as [s|s|s]; cbn [Client.settling_tag Client.settling_text].
  - rewrite (proj2 (Z.eqb_neq _ _) R1), (proj2 (Z.eqb_neq _ _) R2), Z.eqb_refl.
    eexists. split; [reflexivity | ].
    change (Client._connectResultCallback (Client.set_id s r))
      with (Client._connectResultCallback r). rewrite Hcb.
    destruct (trace_connectResultCallback None (Client.set_id s r))
      as (Ht & _ & Hid).
    rewrite Ht, Hid. split; reflexivity.
  - rewrite (proj2 (Z.eqb_neq _ _) E1), (proj2 (Z.eqb_neq _ _) E2),
      (proj2 (Z.eqb_neq _ _) E3), (proj2 (Z.eqb_neq _ _) E4), Z.eqb_refl.
    eexists. split; [reflexivity | ].
    change (Client._connectResultCallback (Client.log (Client.ConsoleError s) r))
      with (Client._connectResultCallback r). rewrite Hcb.
    destruct (trace_connectResultCallback (Some s)
                (Client.log (Client.ConsoleError s) r)) as (Ht & Ho & Hid).
    split.
    + rewrite (trace_fold_log (fun f => Client.ServerErrorCallback f s)).
      rewrite Ht, Ho.
      change (Client.trace (Client.log (Client.ConsoleError s) r))
        with (Client.trace r ++ [Client.ConsoleError s]).
      change (Client._serverErrorCallbacks (Client.log (Client.ConsoleError s) r))
        with (Client._serverErrorCallbacks r).
      unfold Client.settling_effects. rewrite <- !app_assoc. reflexivity.
    + pose proof (id_fold_log (fun f => Client.ServerErrorCallback f s)
                    (Client._serverErrorCallbacks
                       (Client.connectResultCallback (Some s)
                          (Client.log (Client.ConsoleError s) r)))
                    (Client.connectResultCallback (Some s)
                       (Client.log (Client.ConsoleError s) r))) as Hfid.
      rewrite Hfid, Hid. reflexivity.
  - rewrite (proj2 (Z.eqb_neq _ _) C1), (proj2 (Z.eqb_neq _ _) C2),
      (proj2 (Z.eqb_neq _ _) C3), (proj2 (Z.eqb_neq _ _) C4),
      (proj2 (Z.eqb_neq _ _) C5), Z.eqb_refl.
    eexists. split; [reflexivity | ].
    change (Client._connectResultCallback (Client.log (Client.ConsoleLog s) r))
      with (Client._connectResultCallback r). rewrite Hcb.
    destruct (trace_connectResultCallback (Some s)
                (Client.log (Client.ConsoleLog s) r)) as (Ht & Ho & Hid).
    unfold Client.set_closeReason. cbn [Client.trace Client._id].
    rewrite Ht, Hid.
    change (Client.trace (Client.log (Client.ConsoleLog s) r))
      with (Client.trace r ++ [Client.ConsoleLog s]).
    unfold Client.settling_effects. rewrite <- !app_assoc. split; reflexivity.
Qed.





(* ================================================================== *)
(** ** The client: the latency window *)
(* ================================================================== *)

(** The eviction of the Ping branch keeps the last [cap] samples. *)
Lemma window_step (cap : nat) (w : list Z) (s : Z) (rest : list Z) :
  (length w <= cap)%nat ->
  (length (if (cap <? length (w ++ [s]))%nat then tl (w ++ [s]) else w ++ [s])
   <= cap)%nat /\
  skipn (length ((if (cap <? length (w ++ [s]))%nat then tl (w ++ [s]) else w ++ [s])
                 ++ rest) - cap)
    ((if (cap <? length (w ++ [s]))%nat then tl (w ++ [s]) else w ++ [s]) ++ rest)
  = skipn (length (w ++ s :: rest) - cap) (w ++ s :: rest).
Proof.
  intros Hw.
  assert (Hl : length (w ++ [s]) = S (length w))
    by (rewrite length_app; simpl; lia).
  assert (Happ : (w ++ [s]) ++ rest = w ++ s :: rest)
    by (rewrite <- app_assoc; reflexivity).
  destruct (cap <? length (w ++ [s]))%nat eqn:E.
  - apply Nat.ltb_lt in E.
    destruct (w ++ [s]) as [|x l'] eqn:El; [simpl in Hl; lia | ].
    cbn [length] in Hl, E. cbn [tl]. split; [lia | ].
    rewrite <- Happ. cbn [app].
    replace (length (x :: l' ++ rest) - cap)%nat
      with (S (length (l' ++ rest) - cap))
      by (cbn [length]; rewrite length_app; lia).
    reflexivity.
  - apply Nat.ltb_ge in E. split; [exact E | ]. rewrite Happ. reflexivity.
Qed.

Lemma _onMessage_ping (P : ServerProtocol) (now : Z) (r : Client.Room) :
  0 <= SP_Ping P <= 255 ->
  Client._onMessage P now r [byte_of_Z (SP_Ping P)] = Ok (Client.on_ping now r).
Proof.
  intros Hb. unfold Client._onMessage.
  rewrite (index_at _ [] (byte_of_Z (SP_Ping P)) []) by reflexivity.
  rewrite Z_of_byte_of_Z by exact Hb. rewrite Z.eqb_refl. reflexivity.
Qed.

(** Rounds of the ping cycle leave the last [latencySampleSize] of the
    samples there were and the round-trip times that came. *)
Lemma ping_rounds_window (P : ServerProtocol) (C : ClientProtocol)
  (rounds : list (Z * Z)) :
  forall r : Client.Room,
    0 <= SP_Ping P <= 255 ->
    (length (Client._latencySamples r) <= Client.latencySampleSize r)%nat ->
    exists r',
      Client.ping_rounds P C rounds r = Ok r' /\
      Client.latencySampleSize r' = Client.latencySampleSize r /\
      Client._latencySamples r'
      = skipn (length (Client._latencySamples r ++ map snd rounds)
               - Client.latencySampleSize r)
          (Client._latencySamples r ++ map snd rounds).
Proof.
  induction rounds as [|[sent rtt] rounds IH]; intros r Hb Hw.
  - exists r. split; [reflexivity | ]. split; [reflexivity | ].
    cbn [map]. rewrite app_nil_r.
    replace (length (Client._latencySamples r) - Client.latencySampleSize r)%nat
      with 0%nat by lia.
    reflexivity.
  - cbn [Client.ping_rounds]. rewrite _onMessage_ping by exact Hb. cbn [bind].
    set (r1 := Client.on_ping (sent + rtt) (Client._ping C sent r)).
    assert (Hcap : Client.latencySampleSize r1 = Client.latencySampleSize r)
      by reflexivity.
    assert (Hs : Client._latencySamples r1
                 = if (Client.latencySampleSize r
                       <? length (Client._latencySamples r ++ [rtt]))%nat
                   then tl (Client._latencySamples r ++ [rtt])
                   else Client._latencySamples r ++ [rtt]).
    { unfold r1, Client.on_ping, Client._ping.
      cbn [Client._latencySamples Client.set_latencySamples Client.set_timers
             Client.set_lastPingTimestamp Client.log Client.latencySampleSize
             Client._lastPingTimestamp].
      replace (sent + rtt - sent) with rtt by lia. reflexivity. }
    destruct (window_step (Client.latencySampleSize r) (Client._latencySamples r)
                rtt (map snd rounds) Hw) as [Hle Hskip].
    rewrite <- Hs in Hle, Hskip.
    destruct (IH r1 Hb ltac:(rewrite Hcap; exact Hle)) as (r' & Hr & Hc & Hw').
    exists r'. split; [exact Hr | ]. split; [congruence | ].
    rewrite Hw', Hcap. cbn [map snd]. exact Hskip.
Qed.

Lemma window_fold_log (g : Fn -> Client.Effect) (fs : list Fn) :
  forall r : Client.Room,
    Client.window (fold_left (fun r f => Client.log (g f) r) fs r) = Client.window r.
Proof.
  induction fs as [|f fs IH]; intros r; simpl; [reflexivity | ].
  rewrite IH. reflexivity.
Qed.

Lemma window_connectResultCallback (error : option JsString) (r : Client.Room) :
  Client.window (Client.invoke_connectResult error r) = Client.window r.
Proof.
  unfold Client.invoke_connectResult, Client.connectResultCallback,
    Client.resolve, Client.reject.
  destruct (Client._connectResultCallback r); [ | reflexivity].
  change (Client.connect_promise (Client.log (Client.ConnectResultCallback error) r))
    with (Client.connect_promise r).
  destruct error as [[|c s]|]; destruct (Client.connect_promise r); reflexivity.
Qed.

Lemma window_onUserMessage (r r' : Client.Room) (buf : Buffer) (ref : nat) :
  Client._onUserMessage r buf ref = Ok r' -> Client.window r' = Client.window r.
Proof.
  unfold Client._onUserMessage, Client.dispatch. intros H.
  destruct (Client.readEvent buf ref) as [[[event ref']|]|e]; cbn [bind] in H;
    [ | injection H as <-; reflexivity | discriminate].
  destruct (JsMap.get EventId_eq_dec (Client._messageHandlers r) event) as [h|];
    [ | injection H as <-; reflexivity].
  destruct (Client._getUserMessageContent buf ref') as [[content ref'']|e];
    cbn [bind] in H; [injection H as <-; reflexivity | discriminate].
Qed.

(** A frame changes the latency window only in the Ping branch. *)
Lemma window_onMessage (P : ServerProtocol) (now : Z) (r r' : Client.Room)
  (buf : Buffer) :
  Client._onMessage P now r buf = Ok r' ->
  Client.window r' = Client.window r \/ r' = Client.on_ping now r.
Proof.
  unfold Client._onMessage. intros H.
  destruct (index buf 0) as [packetId|]; [ | injection H as <-; left; reflexivity].
  destruct (packetId =? SP_Ping P); [injection H as <-; right; reflexivity | ].
  left.
  destruct (packetId =? SP_UserPacket P);
    [apply (window_onUserMessage r r' buf 1 H) | ].
  destruct (packetId =? SP_RoomInfo P).
  { destruct (readUInt16LE buf 1) as [len|e]; cbn [bind] in H; [ | discriminate].
    injection H as <-. rewrite window_connectResultCallback. reflexivity. }
  destruct (packetId =? SP_ClientId P).
  { destruct (readUInt32LE buf 1) as [n|e]; cbn [bind] in H; [ | discriminate].
    injection H as <-. reflexivity. }
  destruct (packetId =? SP_Error P).
  { destruct (readUInt16LE buf 1) as [len|e]; cbn [bind] in H; [ | discriminate].
    injection H as <-. rewrite window_fold_log, window_connectResultCallback.
    reflexivity. }
  destruct (packetId =? SP_CloseReason P).
  { destruct (readUInt16LE buf 1) as [len|e]; cbn [bind] in H; [ | discriminate].
    injection H as <-.
    match goal with
    | |- Client.window (Client.set_closeReason ?s ?x) = _ =>
        change (Client.window (Client.set_closeReason s x)) with (Client.window x)
    end.
    rewrite window_connectResultCallback. reflexivity. }
  injection H as <-. reflexivity.
Qed.

Lemma window_on_ping_bounded (now : Z) (r : Client.Room) :
  (length (Client._latencySamples r) <= Client.latencySampleSize r)%nat ->
  Client.latencySampleSize (Client.on_ping now r) = Client.latencySampleSize r /\
  (length (Client._latencySamples (Client.on_ping now r))
   <= Client.latencySampleSize r)%nat.
Proof.
  intros Hw. split; [reflexivity | ].
  destruct (window_step (Client.latencySampleSize r) (Client._latencySamples r)
              (now - Client._lastPingTimestamp r) [] Hw) as [Hle _].
  exact Hle.
Qed.

(** No operation makes the window longer than its capacity. *)
Lemma step_window_bounded (P : ServerProtocol) (C : ClientProtocol)
  (r : Client.Room) (op : Client.Op) :
  (length (Client._latencySamples r) <= Client.latencySampleSize r)%nat ->
  Client.latencySampleSize (Client.step P C r op) = Client.latencySampleSize r /\
  (length (Client._latencySamples (Client.step P C r op))
   <= Client.latencySampleSize r)%nat.
Proof.
  intros Hw.
  assert (Hsame : forall r', Client.window r' = Client.window r ->
            Client.latencySampleSize r' = Client.latencySampleSize r /\
            (length (Client._latencySamples r') <= Client.latencySampleSize r)%nat).
  { intros r' E. unfold Client.window in E. injection E as -> ->.
    split; [reflexivity | exact Hw]. }
  destruct op as [now buf| |now handle| |now packet|event h|f|f|event message];
    cbn [Client.step].
  - destruct (Client._onMessage P now r buf) as [r'|e] eqn:E;
      [ | split; [reflexivity | exact Hw]].
    destruct (window_onMessage P now r r' buf E) as [Hv | ->];
      [apply Hsame; exact Hv | apply window_on_ping_bounded; exact Hw].
  - apply Hsame. unfold Client._onClose. rewrite window_fold_log. reflexivity.
  - apply Hsame. unfold Client.timeout_fires.
    destruct (existsb _ _); reflexivity.
  - apply Hsame. reflexivity.
  - apply Hsame. reflexivity.
  - apply Hsame. unfold Client.onMessage.
    destruct event as [n|s]; [destruct ((255 <? n) || (n <? 0)) | ]; reflexivity.
  - apply Hsame. reflexivity.
  - apply Hsame. reflexivity.
  - apply Hsame. unfold Client.send.
    destruct (_packMessage (CP_UserPacket C) event message); reflexivity.
Qed.

Lemma run_window_bounded (P : ServerProtocol) (C : ClientProtocol)
  (ops : list Client.Op) :
  forall r : Client.Room,
    (length (Client._latencySamples r) <= Client.latencySampleSize r)%nat ->
    Client.latencySampleSize (Client.run P C ops r) = Client.latencySampleSize r /\
    (length (Client._latencySamples (Client.run P C ops r))
     <= Client.latencySampleSize r)%nat.
Proof.
  induction ops as [|op ops IH]; intros r Hw; [split; [reflexivity | exact Hw] | ].
  destruct (step_window_bounded P C r op Hw) as [Hc Hl].
  destruct (IH (Client.step P C r op) ltac:(rewrite Hc; exact Hl)) as [Hc' Hl'].
  unfold Client.run in *. cbn [fold_left]. rewrite Hc', Hc in *.
  split; [reflexivity | exact Hl'].
Qed.

(** C6. A room whose latency window is empty, with capacity
    [latencySampleSize]: after more rounds of the ping cycle than the
    capacity, the window holds exactly the last [latencySampleSize]
    round-trip times, in the order of arrival; and whatever happens to the
    room (frames, timeouts, a close, calls of the public API), the window is
    never longer than the capacity. *)
Theorem latency_window (P : ServerProtocol) (C : ClientProtocol)
  (r : Client.Room) (rounds : list (Z * Z)) :
  0 <= SP_Ping P <= 255 ->
  Client._latencySamples r = [] ->
  (Client.latencySampleSize r < length rounds)%nat ->
  (exists r',
     Client.ping_rounds P C rounds r = Ok r' /\
     Client._latencySamples r'
     = skipn (length rounds - Client.latencySampleSize r) (map snd rounds) /\
     length (Client._latencySamples r') = Client.latencySampleSize r) /\
  (forall ops : list Client.Op,
     (length (Client._latencySamples (Client.run P C ops r))
      <= Client.latencySampleSize r)%nat).
Proof.
  intros Hb He Hn. split.
  - destruct (ping_rounds_window P C rounds r Hb ltac:(rewrite He; simpl; lia))
      as (r' & Hr & Hc & Hw).
    rewrite He in Hw. cbn [app] in Hw. rewrite length_map in Hw.
    exists r'. split; [exact Hr | ]. split; [exact Hw | ].
    rewrite Hw, length_skipn, length_map. lia.
  - intros ops.
    apply (run_window_bounded P C ops r). rewrite He. simpl. lia.
Qed.

(** Twelve rounds with the default capacity of 10: the window holds the last
    ten round-trip times. *)
Lemma latency_window_example :
  (exists r',
     Client.ping_rounds Examples.server_protocol Examples.client_protocol
       Examples.twelve_rounds Client.new_Room = Ok r' /\
     Client._latencySamples r'
     = skipn (length Examples.twelve_rounds
              - Client.latencySampleSize Client.new_Room)
         (map snd Examples.twelve_rounds) /\
     length (Client._latencySamples r')
     = Client.latencySampleSize Client.new_Room) /\
  (forall ops : list Client.Op,
     (length (Client._latencySamples
                (Client.run Examples.server_protocol Examples.client_protocol
                   ops Client.new_Room))
      <= Client.latencySampleSize Client.new_Room)%nat).
Proof.
  apply (latency_window Examples.server_protocol Examples.client_protocol
           Client.new_Room Examples.twelve_rounds).
  - simpl. lia.
  - reflexivity.
  - simpl. lia.
Defined.

(* ================================================================== *)
(** ** The client: frames with an unknown tag *)
(* ================================================================== *)

Lemma client_readEvent_wire (p : list byte) (e : EventId) (r : list byte) :
  Wire.valid_event e -> Wire.event_fits e ->
  Client.readEvent (p ++ Wire.event e ++ r) (length p)
  = Ok (Some (e, length (p ++ Wire.event e))).
Proof.
  intros Hv Hf. unfold Client.readEvent.
  destruct e as [n|s]; simpl in Hv, Hf.
  - rewrite (index_at _ p (byte_of_Z 0) (byte_of_Z n :: r)) by (shape || lens).
    rewrite Z_of_byte_of_Z by lia.
    rewrite (readUInt8_at _ (p ++ [byte_of_Z 0]) (byte_of_Z n) r)
      by (shape || lens).
    rewrite Z_of_byte_of_Z by lia. cbn [bind].
    do 3 f_equal. lens.
  - rewrite (index_at _ p (byte_of_Z 1) (Wire.text s ++ r)) by (shape || lens).
    rewrite Z_of_byte_of_Z by lia.
    rewrite (readUInt16LE_at _ (p ++ [byte_of_Z 1]) (str_length s)
               (utf16le_encode s ++ r)) by (shape || lens).
    cbn [bind].
    rewrite (toString_utf16le_at _ (p ++ byte_of_Z 1 :: Wire.u16le (str_length s))
               s r) by (shape || lens || reflexivity || assumption).
    do 3 f_equal. lens.
Qed.

(** The default branch of [switch (packetId)]. *)
Lemma _onMessage_unknown_kind (P : ServerProtocol) (now : Z) (r : Client.Room)
  (buf : Buffer) (b : Z) :
  index buf 0 = Some b ->
  ~ In b [SP_Ping P; SP_UserPacket P; SP_RoomInfo P; SP_ClientId P;
          SP_Error P; SP_CloseReason P] ->
  Client._onMessage P now r buf = Ok r.
Proof.
  intros Hi Hn. unfold Client._onMessage. rewrite Hi.
  simpl in Hn.
  repeat match goal with
         | |- context [b =? ?t] =>
             rewrite (proj2 (Z.eqb_neq b t)) by (intros E; apply Hn; auto 10)
         end.
  reflexivity.
Qed.

(** A UserPacket whose payload tag is neither 0 nor 1: the default branch of
    [switch (dataType)] throws, if the content is read at all. *)
Lemma _onMessage_bad_payload_tag (P : ServerProtocol) (now : Z) (r : Client.Room)
  (e : EventId) (t : Z) (rest : list byte) :
  0 <= SP_UserPacket P <= 255 -> SP_UserPacket P <> SP_Ping P ->
  Wire.valid_event e -> Wire.event_fits e ->
  0 <= t <= 255 -> t <> 0 -> t <> 1 ->
  Client._onMessage P now r
    (byte_of_Z (SP_UserPacket P) :: Wire.event e ++ byte_of_Z t :: rest)
  = match JsMap.get EventId_eq_dec (Client._messageHandlers r) e with
    | Some _ => Throw (ERR_INVALID_DATA_TYPE (Some t))
    | None => Ok r
    end.
Proof.
  intros Hk Hkp Hv Hf Ht Ht0 Ht1. unfold Client._onMessage.
  rewrite (index_at _ [] (byte_of_Z (SP_UserPacket P))
             (Wire.event e ++ byte_of_Z t :: rest)) by reflexivity.
  rewrite Z_of_byte_of_Z by exact Hk.
  rewrite (proj2 (Z.eqb_neq _ _) Hkp), Z.eqb_refl.
  unfold Client._onUserMessage.
  pose proof (client_readEvent_wire [byte_of_Z (SP_UserPacket P)] e
                (byte_of_Z t :: rest) Hv Hf) as Hr.
  change ([byte_of_Z (SP_UserPacket P)] ++ Wire.event e ++ byte_of_Z t :: rest)
    with (byte_of_Z (SP_UserPacket P) :: Wire.event e ++ byte_of_Z t :: rest) in Hr.
  change (length [byte_of_Z (SP_UserPacket P)]) with 1%nat in Hr.
  rewrite Hr. cbn [bind]. unfold Client.dispatch.
  destruct (JsMap.get EventId_eq_dec (Client._messageHandlers r) e) as [h|];
    [ | reflexivity].
  unfold Client._getUserMessageContent.
  rewrite (index_at _ ([byte_of_Z (SP_UserPacket P)] ++ Wire.event e)
             (byte_of_Z t) rest)
    by (reflexivity || (rewrite <- app_assoc; reflexivity)).
  rewrite Z_of_byte_of_Z by exact Ht.
  destruct t as [|q|q]; [contradiction | | lia].
  destruct q; try reflexivity. contradiction.
Qed.

(** C8 (as amended). On the client, a frame whose kind tag is none of the
    six known tags is ignored: [_onMessage] returns and the room is as it
    was. A UserPacket whose payload tag is neither 0 nor 1 makes
    [_onMessage] throw 'Invalid dataType' when a handler is registered for
    the packet's event; when none is, the payload is not read and the frame
    is ignored. *)
Theorem unknown_tags (P : ServerProtocol) (now : Z) (r : Client.Room) :
  0 <= SP_UserPacket P <= 255 -> SP_UserPacket P <> SP_Ping P ->
  (forall (buf : Buffer) (b : Z),
     index buf 0 = Some b ->
     ~ In b [SP_Ping P; SP_UserPacket P; SP_RoomInfo P; SP_ClientId P;
             SP_Error P; SP_CloseReason P] ->
     Client._onMessage P now r buf = Ok r) /\
  (forall (e : EventId) (t : Z) (rest : list byte),
     Wire.valid_event e -> Wire.event_fits e ->
     0 <= t <= 255 -> t <> 0 -> t <> 1 ->
     Client._onMessage P now r
       (byte_of_Z (SP_UserPacket P) :: Wire.event e ++ byte_of_Z t :: rest)
     = match JsMap.get EventId_eq_dec (Client._messageHandlers r) e with
       | Some _ => Throw (ERR_INVALID_DATA_TYPE (Some t))
       | None => Ok r
       end).
Proof.
  intros Hk Hkp. split.
  - intros buf b. apply _onMessage_unknown_kind.
  - intros e t rest. apply _onMessage_bad_payload_tag; assumption.
Qed.

(** A client that listens to the numeric event 5: the frame with the payload
    tag 7 throws. *)
Lemma unknown_tags_example :
  Client._onMessage Examples.server_protocol 0 Examples.listening
    Examples.bad_payload_tag
  = Throw (ERR_INVALID_DATA_TYPE (Some 7)) /\
  Client._onMessage Examples.server_protocol 0 Examples.listening
    Examples.unknown_kind
  = Ok Examples.listening.
Proof.
  destruct (unknown_tags Examples.server_protocol 0 Examples.listening
              ltac:(simpl; lia) ltac:(discriminate)) as [Hkind Htag].
  split.
  - apply (Htag (EvNumber 5) 7 []); simpl; lia.
  - apply (Hkind Examples.unknown_kind 200); [reflexivity | ].
    simpl. intuition discriminate.
Defined.

(** C8, counterexample. The frame with the kind tag 200 is ignored, and so is
    the UserPacket with the payload tag 7 when no handler is registered for
    its event: no error, and the room is as it was. *)
Lemma unknown_tags_ignored :
  Client._onMessage Examples.server_protocol 0 Client.new_Room
    Examples.unknown_kind = Ok Client.new_Room /\
  Client._onMessage Examples.server_protocol 0 Client.new_Room
    Examples.bad_payload_tag = Ok Client.new_Room.
Proof.
  split; reflexivity.
Qed.

(* ================================================================== *)
(** ** More on the codec: what [_packMessage] refuses and returns *)
(* ================================================================== *)

Lemma writeUInt8_throws (v : Z) (out : Packing) :
  ~ 0 <= v <= 255 -> writeUInt8 v out = Throw ERR_OUT_OF_RANGE.
Proof.
  intros H. unfold writeUInt8.
  destruct (0 <=? v) eqn:A; [ | reflexivity].
  destruct (v <=? 255) eqn:B; [ | reflexivity].
  apply Z.leb_le in A. apply Z.leb_le in B. lia.
Qed.

Lemma writeUInt16LE_throws (v : Z) (out : Packing) :
  ~ 0 <= v <= 65535 -> writeUInt16LE v out = Throw ERR_OUT_OF_RANGE.
Proof.
  intros H. unfold writeUInt16LE.
  destruct (0 <=? v) eqn:A; [ | reflexivity].
  destruct (v <=? 65535) eqn:B; [ | reflexivity].
  apply Z.leb_le in A. apply Z.leb_le in B. lia.
Qed.

Lemma _packMessage_encodable_ok (k : Z) (e : EventId) (d : Content) :
  0 <= k <= 255 -> Wire.event_encodable e -> Wire.content_encodable d ->
  exists bytes, _packMessage k e d = Ok bytes.
Proof.
  intros Hk He Hd. unfold _packMessage. pose proof BUFFER_SIZE_eq as HB.
  destruct e as [n|s]; destruct d as [b|s']; simpl in He, Hd;
    repeat pack_step; eexists; reflexivity.
Qed.

Lemma _packMessage_not_encodable_throws (k : Z) (e : EventId) (d : Content) :
  0 <= k <= 255 ->
  ~ (Wire.event_encodable e /\ Wire.content_encodable d) ->
  _packMessage k e d = Throw ERR_OUT_OF_RANGE.
Proof.
  intros Hk Hn. unfold _packMessage. pose proof BUFFER_SIZE_eq as HB.
  pack_step.
  assert (Hs0 : forall s : JsString, 0 <= str_length s)
    by (intros s; unfold str_length; lia).
  destruct e as [n|s]; simpl in Hn.
  - destruct (Z_le_dec 0 n) as [A|A]; [destruct (Z_le_dec n 255) as [B|B] | ].
    + repeat pack_step.
      destruct d as [b|s']; simpl in Hn; [tauto | ].
      repeat pack_step. rewrite writeUInt16LE_throws by (specialize (Hs0 s'); lia).
      reflexivity.
    + repeat pack_step. rewrite writeUInt8_throws by lia. reflexivity.
    + repeat pack_step. rewrite writeUInt8_throws by lia. reflexivity.
  - repeat pack_step.
    destruct (Z_le_dec (str_length s) 65535) as [A|A].
    + repeat pack_step.
      destruct d as [b|s']; simpl in Hn; [tauto | ].
      repeat pack_step. rewrite writeUInt16LE_throws by (specialize (Hs0 s'); lia).
      reflexivity.
    + rewrite writeUInt16LE_throws by lia. reflexivity.
Qed.

(** X1. For an event that is an integer or a string and data that is a
    Buffer or a string, with the kind tag a byte: [_packMessage] returns
    bytes exactly when the integer is in 0-255 or the string event has at
    most 65535 code units, and the data is a Buffer or a string of at most
    65535 code units; for every other such event and data it throws the
    Buffer API's range error, and it throws nothing else. A Buffer payload
    is never refused, whatever its length. *)
Theorem _packMessage_ok_iff (k : Z) (e : EventId) (d : Content) :
  0 <= k <= 255 ->
  ((exists bytes, _packMessage k e d = Ok bytes)
   <-> Wire.event_encodable e /\ Wire.content_encodable d) /\
  (_packMessage k e d = Throw ERR_OUT_OF_RANGE
   <-> ~ (Wire.event_encodable e /\ Wire.content_encodable d)).
Proof.
  intros Hk.
  assert (Hdec : (Wire.event_encodable e /\ Wire.content_encodable d)
                 \/ ~ (Wire.event_encodable e /\ Wire.content_encodable d)).
  { destruct e as [n|s]; destruct d as [b|s']; simpl; lia. }
  destruct Hdec as [[He Hd]|Hn].
  - destruct (_packMessage_encodable_ok k e d Hk He Hd) as [bytes Hb].
    split; split; intros H; try tauto.
    + exists bytes. exact Hb.
    + rewrite Hb in H. discriminate.
  - pose proof (_packMessage_not_encodable_throws k e d Hk Hn) as Ht.
    split; split; intros H; try tauto.
    destruct H as [bytes Hb]. rewrite Ht in Hb. discriminate.
Qed.

Lemma _packMessage_ok_iff_example :
  ((exists bytes,
      _packMessage 1 (EvNumber 300) (CString Examples.str_hi) = Ok bytes)
   <-> Wire.event_encodable (EvNumber 300)
       /\ Wire.content_encodable (CString Examples.str_hi)) /\
  (_packMessage 1 (EvNumber 300) (CString Examples.str_hi) = Throw ERR_OUT_OF_RANGE
   <-> ~ (Wire.event_encodable (EvNumber 300)
          /\ Wire.content_encodable (CString Examples.str_hi))).
Proof.
  apply (_packMessage_ok_iff 1 (EvNumber 300) (CString Examples.str_hi)). lia.
Defined.

Lemma writeUInt8_inv (v : Z) (out out' : Packing) :
  writeUInt8 v out = Ok out' ->
  out' = out ++ [byte_of_Z v] /\ ref_value out' <= BUFFER_SIZE.
Proof.
  unfold writeUInt8. intros H.
  destruct ((0 <=? v) && (v <=? 255) && (ref_value out + 1 <=? BUFFER_SIZE)) eqn:E;
    [ | discriminate].
  injection H as <-. apply andb_prop in E. destruct E as [_ E].
  apply Z.leb_le in E. split; [reflexivity | ].
  unfold ref_value in *. rewrite length_app. cbn [length]. lia.
Qed.

Lemma writeUInt16LE_inv (v : Z) (out out' : Packing) :
  writeUInt16LE v out = Ok out' ->
  out' = out ++ Wire.u16le v /\ ref_value out' <= BUFFER_SIZE.
Proof.
  unfold writeUInt16LE. intros H.
  destruct ((0 <=? v) && (v <=? 65535) && (ref_value out + 2 <=? BUFFER_SIZE)) eqn:E;
    [ | discriminate].
  injection H as <-. apply andb_prop in E. destruct E as [_ E].
  apply Z.leb_le in E. split; [reflexivity | ].
  unfold ref_value in *. rewrite length_app. cbn [length]. lia.
Qed.

Lemma write_utf16le_bound (s : JsString) (out : Packing) :
  ref_value out <= BUFFER_SIZE ->
  ref_value (write_utf16le s out) <= BUFFER_SIZE /\
  exists written, write_utf16le s out = out ++ written.
Proof.
  intros H. unfold write_utf16le. split; [ | eexists; reflexivity].
  unfold ref_value in *. rewrite length_app, utf16le_encode_length, length_firstn.
  pose proof (Z.mul_div_le (BUFFER_SIZE - Z.of_nat (length out)) 2 ltac:(lia)).
  unfold str_length. lia.
Qed.

Lemma copy_bound (data : Buffer) (out : Packing) :
  ref_value out <= BUFFER_SIZE ->
  ref_value (copy data out) <= BUFFER_SIZE /\
  exists written, copy data out = out ++ written.
Proof.
  intros H. unfold copy. split; [ | eexists; reflexivity].
  unfold ref_value, buf_length in *. rewrite length_app, length_firstn. lia.
Qed.

Lemma bind_Ok_inv {A B} (r : Result A) (k : A -> Result B) (b : B) :
  bind r k = Ok b -> exists a, r = Ok a /\ k a = Ok b.
Proof.
  destruct r as [a|e]; simpl; intros H; [exists a; split; [reflexivity | exact H] | discriminate].
Qed.

(** The writes of a [_packMessage] that returned, as equations. *)
Ltac pack_inv :=
  repeat match goal with
         | H : bind _ _ = Ok _ |- _ =>
             apply bind_Ok_inv in H; destruct H as (? & ? & ?)
         | H : writeUInt8 _ _ = Ok _ |- _ =>
             apply writeUInt8_inv in H; destruct H as [? ?]
         | H : writeUInt16LE _ _ = Ok _ |- _ =>
             apply writeUInt16LE_inv in H; destruct H as [? ?]
         | H : Ok _ = Ok _ |- _ => injection H as H
         end;
  subst.

(** X2. For an event that is an integer or a string and data that is a
    Buffer or a string, whatever their values: the bytes that [_packMessage]
    returns are no more than the send buffer holds, and they begin with the
    kind tag and the event tag, which at least one byte of the event and the
    payload tag follow. *)
Theorem _packMessage_within_buffer (k : Z) (e : EventId) (d : Content)
  (bytes : Buffer) :
  _packMessage k e d = Ok bytes ->
  4 <= buf_length bytes <= BUFFER_SIZE /\
  exists rest,
    bytes = byte_of_Z k
            :: byte_of_Z (match e with EvNumber _ => 0 | EvString _ => 1 end)
            :: rest.
Proof.
  unfold _packMessage. intros H.
  destruct e as [n|s]; destruct d as [b|s']; pack_inv;
    repeat match goal with
           | |- context [copy ?b ?o] =>
               let Hb := fresh "Hb" in
               let w := fresh "w" in
               let Hw := fresh "Hw" in
               destruct (copy_bound b o ltac:(assumption)) as [Hb [w Hw]];
               rewrite Hw in *; clear Hw
           | H : context [write_utf16le ?s ?o] |- _ =>
               let Hb := fresh "Hb" in
               let w := fresh "w" in
               let Hw := fresh "Hw" in
               destruct (write_utf16le_bound s o ltac:(assumption)) as [Hb [w Hw]];
               rewrite Hw in *; clear Hw
           | |- context [write_utf16le ?s ?o] =>
               let Hb := fresh "Hb" in
               let w := fresh "w" in
               let Hw := fresh "Hw" in
               destruct (write_utf16le_bound s o ltac:(assumption)) as [Hb [w Hw]];
               rewrite Hw in *; clear Hw
           end;
    (split;
     [ unfold ref_value, buf_length, Wire.u16le in *;
       repeat first [ progress cbn [length app] in * | rewrite length_app in * ];
       lia
     | unfold Wire.u16le; rewrite <- ?app_assoc; cbn [app];
       rewrite <- ?app_assoc; cbn [app]; eexists; reflexivity ]).
Qed.

Lemma _packMessage_within_buffer_example :
  4 <= buf_length (map byte_of_Z [1; 0; 5; 1; 2; 0; 104; 0; 105; 0])
    <= BUFFER_SIZE /\
  exists rest,
    map byte_of_Z [1; 0; 5; 1; 2; 0; 104; 0; 105; 0]
    = byte_of_Z 1 :: byte_of_Z 0 :: rest.
Proof.
  apply (_packMessage_within_buffer 1 (EvNumber 5) (CString Examples.str_hi)).
  reflexivity.
Defined.

(* ================================================================== *)
(** ** The two decoders *)
(* ================================================================== *)

(** X3. The client and the server read a UserPacket alike wherever the tag
    byte is there: the same event and the same content, or the same error.
    They part where the buffer ends before the tag: the server's
    [readUInt8] throws a range error, while the client's [buf[ref]] is
    [undefined], which as an event tag matches no case (the packet is
    ignored) and as a payload tag is an invalid [dataType]. *)
Theorem decoders_agree (buf : Buffer) (ref : nat) :
  ((ref < length buf)%nat ->
   Client.readEvent buf ref = Server.readEvent buf ref /\
   Client._getUserMessageContent buf ref = Server._getUserMessageContent buf ref) /\
  ((length buf <= ref)%nat ->
   Client.readEvent buf ref = Ok None /\
   Server.readEvent buf ref = Throw ERR_OUT_OF_RANGE /\
   Client._getUserMessageContent buf ref = Throw (ERR_INVALID_DATA_TYPE None) /\
   Server._getUserMessageContent buf ref = Throw ERR_OUT_OF_RANGE).
Proof.
  unfold Client.readEvent, Server.readEvent, Client._getUserMessageContent,
    Server._getUserMessageContent, index, readUInt8.
  split; intros H.
  - destruct (nth_error buf ref) as [b|] eqn:E;
      [ | apply nth_error_None in E; lia].
    cbn [option_map bind].
    destruct (Z_of_byte b) as [|[q|q|]|q]; split; reflexivity.
  - rewrite (proj2 (nth_error_None buf ref) H). repeat split.
Qed.

Lemma decoders_agree_example :
  Client.readEvent Examples.bad_payload_tag 1
  = Server.readEvent Examples.bad_payload_tag 1 /\
  Client._getUserMessageContent Examples.bad_payload_tag 1
  = Server._getUserMessageContent Examples.bad_payload_tag 1.
Proof.
  apply (decoders_agree Examples.bad_payload_tag 1). simpl. lia.
Defined.

(** The text that follows a length field, when the buffer has fewer code
    units than the field says: [toString] stops at the end of the buffer. *)
Lemma toString_utf16le_short (buf p : list byte) (s : JsString) (ref : nat)
  (len : Z) :
  buf = p ++ utf16le_encode s -> ref = length p -> str_length s <= len ->
  wf_string s ->
  toString_utf16le buf ref (ref + Z.to_nat (len * 2)) = s.
Proof.
  intros -> -> Hl Hs. unfold toString_utf16le.
  rewrite skipn_app, Nat.sub_diag, skipn_all. cbn [app skipn].
  rewrite firstn_all2
    by (rewrite utf16le_encode_length; unfold str_length in Hl; lia).
  apply utf16le_decode_encode. assumption.
Qed.

(** X4. A string payload cut short. When the two bytes of the length field
    are not both there, the server's [_getUserMessageContent] throws a range
    error. When they are, and fewer code units follow than they announce, it
    throws nothing: the content is the text that is there, and the cursor it
    leaves is past the end of the buffer. *)
Theorem truncated_string_payload (p : list byte) (s : JsString) (len : Z) :
  wf_string s -> str_length s <= len <= 65535 ->
  Server._getUserMessageContent
    (p ++ byte_of_Z 1 :: Wire.u16le len ++ utf16le_encode s) (length p)
  = Ok (CString s, (length p + 1 + 2 + Z.to_nat (len * 2))%nat) /\
  (str_length s < len ->
   (length (p ++ byte_of_Z 1 :: Wire.u16le len ++ utf16le_encode s)
    < length p + 1 + 2 + Z.to_nat (len * 2))%nat) /\
  Server._getUserMessageContent (p ++ [byte_of_Z 1]) (length p)
  = Throw ERR_OUT_OF_RANGE /\
  Server._getUserMessageContent (p ++ [byte_of_Z 1; byte_of_Z len]) (length p)
  = Throw ERR_OUT_OF_RANGE.
Proof.
  intros Hs Hl.
  assert (H0 : 0 <= str_length s) by (unfold str_length; lia).
  split; [ | split; [ | split]].
  - unfold Server._getUserMessageContent.
    rewrite (readUInt8_at _ p (byte_of_Z 1) (Wire.u16le len ++ utf16le_encode s))
      by reflexivity.
    rewrite Z_of_byte_of_Z by lia. cbn [bind].
    rewrite (readUInt16LE_at _ (p ++ [byte_of_Z 1]) len (utf16le_encode s))
      by (shape || lens).
    cbn [bind].
    rewrite (toString_utf16le_short _ (p ++ byte_of_Z 1 :: Wire.u16le len) s)
      by (shape || lens || assumption).
    reflexivity.
  - intros Hlt. rewrite length_app. cbn [length]. rewrite length_app.
    rewrite utf16le_encode_length. unfold Wire.u16le, str_length in *.
    cbn [length]. lia.
  - unfold Server._getUserMessageContent.
    rewrite (readUInt8_at _ p (byte_of_Z 1) []) by reflexivity.
    rewrite Z_of_byte_of_Z by lia. cbn [bind].
    unfold readUInt16LE.
    rewrite (proj2 (nth_error_None (p ++ [byte_of_Z 1]) (length p + 1)))
      by (rewrite length_app; cbn [length]; lia).
    reflexivity.
  - unfold Server._getUserMessageContent.
    rewrite (readUInt8_at _ p (byte_of_Z 1) [byte_of_Z len]) by reflexivity.
    rewrite Z_of_byte_of_Z by lia. cbn [bind].
    unfold readUInt16LE.
    rewrite (proj2 (nth_error_None (p ++ [byte_of_Z 1; byte_of_Z len])
                      (length p + 1 + 1)))
      by (rewrite length_app; cbn [length]; lia).
    destruct (nth_error (p ++ [byte_of_Z 1; byte_of_Z len]) (length p + 1));
      reflexivity.
Qed.

(** A payload that announces five code units and brings "hi". *)
Lemma truncated_string_payload_example :
  Server._getUserMessageContent
    ([] ++ byte_of_Z 1 :: Wire.u16le 5 ++ utf16le_encode Examples.str_hi)
    (length (@nil byte))
  = Ok (CString Examples.str_hi,
        (length (@nil byte) + 1 + 2 + Z.to_nat (5 * 2))%nat).
Proof.
  apply (truncated_string_payload [] Examples.str_hi 5).
  - wf_example.
  - unfold str_length. simpl. lia.
Defined.

(* ================================================================== *)
(** ** From the server to the client *)
(* ================================================================== *)

Lemma client_content_as_server (buf : Buffer) (ref : nat) (x : Content * nat) :
  Server._getUserMessageContent buf ref = Ok x ->
  Client._getUserMessageContent buf ref = Ok x.
Proof.
  unfold Client._getUserMessageContent, Server._getUserMessageContent, index,
    readUInt8.
  destruct (nth_error buf ref) as [b|]; cbn [option_map bind]; [ | discriminate].
  destruct (Z_of_byte b) as [|[q|q|]|q]; intros H; try exact H; discriminate.
Qed.

(** A UserPacket in the layout of section 4.1, as the client's [_onMessage]
    takes it. *)
Lemma client_onMessage_wire (P : ServerProtocol) (now : Z) (r : Client.Room)
  (e : EventId) (d : Content) :
  0 <= SP_UserPacket P <= 255 -> SP_UserPacket P <> SP_Ping P ->
  Wire.valid_event e -> Wire.valid_content d ->
  Wire.event_fits e -> Wire.content_encodable d ->
  Client._onMessage P now r (Wire.UserPacket (SP_UserPacket P) e d)
  = match JsMap.get EventId_eq_dec (Client._messageHandlers r) e with
    | Some h => Ok (Client.log (Client.HandlerCall h d) r)
    | None => Ok r
    end.
Proof.
  intros Hk Hkp Hv Hvd Hf Hfd. unfold Client._onMessage, Wire.UserPacket.
  rewrite (index_at _ [] (byte_of_Z (SP_UserPacket P))
             (Wire.event e ++ Wire.payload d)) by reflexivity.
  rewrite Z_of_byte_of_Z by exact Hk.
  rewrite (proj2 (Z.eqb_neq _ _) Hkp), Z.eqb_refl.
  unfold Client._onUserMessage.
  pose proof (client_readEvent_wire [byte_of_Z (SP_UserPacket P)] e
                (Wire.payload d) Hv Hf) as Hr.
  change ([byte_of_Z (SP_UserPacket P)] ++ Wire.event e ++ Wire.payload d)
    with (byte_of_Z (SP_UserPacket P) :: Wire.event e ++ Wire.payload d) in Hr.
  change (length [byte_of_Z (SP_UserPacket P)]) with 1%nat in Hr.
  rewrite Hr. cbn [bind]. unfold Client.dispatch.
  destruct (JsMap.get EventId_eq_dec (Client._messageHandlers r) e) as [h|];
    [ | reflexivity].
  assert (Hfs : match d with CBuffer _ => True | CString s => str_length s <= 65535 end)
    by (destruct d; exact Hfd).
  destruct (server_getUserMessageContent_wire
              ([byte_of_Z (SP_UserPacket P)] ++ Wire.event e) d Hvd Hfs)
    as [ref' Hc].
  apply client_content_as_server in Hc.
  change (([byte_of_Z (SP_UserPacket P)] ++ Wire.event e) ++ Wire.payload d)
    with (byte_of_Z (SP_UserPacket P) :: Wire.event e ++ Wire.payload d) in Hc.
  rewrite Hc. reflexivity.
Qed.

(** X5. What the server sends to a JOINED session arrives: for an event and
    a content within the limits of the format, [send] hands the transport
    one frame, and the client's [_onMessage], given that frame, calls the
    handler registered for the event, once, with the content that was sent;
    without a handler for the event the frame changes nothing. *)
Theorem server_send_reaches_handler (P : ServerProtocol) (heap : Server.Heap)
  (room : Server.Room) (client : Server.ClientRef) (e : EventId) (d : Content)
  (now : Z) (r : Client.Room) :
  0 <= SP_UserPacket P <= 255 -> SP_UserPacket P <> SP_Ping P ->
  Server.status (heap client) = Server.JOINED ->
  Wire.valid_event e -> Wire.valid_content d ->
  Wire.event_fits e -> Wire.content_fits (SP_UserPacket P) e d ->
  exists frame,
    Server.send P heap room client e d = Ok [Server.InternalSend client frame] /\
    Client._onMessage P now r frame
    = match JsMap.get EventId_eq_dec (Client._messageHandlers r) e with
      | Some h => Ok (Client.log (Client.HandlerCall h d) r)
      | None => Ok r
      end.
Proof.
  intros Hk Hkp Hj Hv Hvd Hf Hfd.
  exists (Wire.UserPacket (SP_UserPacket P) e d). split.
  - unfold Server.send. rewrite Hj.
    destruct (Server.ClientStatus_eq_dec Server.JOINED Server.JOINED);
      [ | contradiction].
    rewrite (_packMessage_wire (SP_UserPacket P) e d Hk Hv Hf Hfd). reflexivity.
  - apply client_onMessage_wire; try assumption.
    destruct d; [exact I | exact Hfd].
Qed.

(** The server sends "hi" under the numeric event 5 to session 0 of
    [Examples.heap]; the client that listens to 5 calls its handler. *)
Lemma server_send_reaches_handler_example :
  exists frame,
    Server.send Examples.server_protocol Examples.heap Examples.two_sessions
      0%nat (EvNumber 5) (CString Examples.str_hi)
    = Ok [Server.InternalSend 0%nat frame] /\
    Client._onMessage Examples.server_protocol 0 Examples.listening frame
    = match JsMap.get EventId_eq_dec
              (Client._messageHandlers Examples.listening) (EvNumber 5) with
      | Some h =>
          Ok (Client.log (Client.HandlerCall h (CString Examples.str_hi))
                Examples.listening)
      | None => Ok Examples.listening
      end.
Proof.
  apply (server_send_reaches_handler Examples.server_protocol Examples.heap
           Examples.two_sessions 0%nat (EvNumber 5) (CString Examples.str_hi)
           0 Examples.listening).
  - simpl. lia.
  - discriminate.
  - reflexivity.
  - simpl. lia.
  - wf_example.
  - exact I.
  - unfold Wire.content_fits, str_length. simpl. lia.
Defined.

(* ================================================================== *)
(** ** A session is opened *)
(* ================================================================== *)

Lemma u32_of_bytes (v : Z) :
  0 <= v <= 4294967295 ->
  Z_of_byte (byte_of_Z v) + 256 * Z_of_byte (byte_of_Z (v / 256))
  + 65536 * Z_of_byte (byte_of_Z (v / 65536))
  + 16777216 * Z_of_byte (byte_of_Z (v / 16777216)) = v.
Proof.
  intros H. rewrite !Z_of_byte_of_Z_mod. Z.div_mod_to_equations. lia.
Qed.

Lemma writeUInt32LE_ok (v : Z) (out : Packing) :
  0 <= v <= 4294967295 -> ref_value out + 4 <= BUFFER_SIZE ->
  Server.writeUInt32LE v out
  = Ok (out ++ [byte_of_Z v; byte_of_Z (v / 256); byte_of_Z (v / 65536);
                byte_of_Z (v / 16777216)]).
Proof.
  intros Hv Ho. unfold Server.writeUInt32LE.
  replace (0 <=? v) with true by (symmetry; apply Z.leb_le; lia).
  replace (v <=? 4294967295) with true by (symmetry; apply Z.leb_le; lia).
  replace (ref_value out + 4 <=? BUFFER_SIZE) with true
    by (symmetry; apply Z.leb_le; lia).
  reflexivity.
Qed.

Lemma writeUInt32LE_throws (v : Z) (out : Packing) :
  ~ 0 <= v <= 4294967295 -> Server.writeUInt32LE v out = Throw ERR_OUT_OF_RANGE.
Proof.
  intros H. unfold Server.writeUInt32LE.
  destruct (0 <=? v) eqn:A; [ | reflexivity].
  destruct (v <=? 4294967295) eqn:B; [ | reflexivity].
  apply Z.leb_le in A. apply Z.leb_le in B. lia.
Qed.

(** The ClientId frame: [[kindTag][u32 sessionId]]. *)
Lemma _sendClientId_frame (P : ServerProtocol) (heap : Server.Heap)
  (client : Server.ClientRef) :
  0 <= SP_ClientId P <= 255 ->
  0 <= Server.id (heap client) <= 4294967295 ->
  Server._sendClientId P heap client
  = Ok [Server.InternalSend client
          [byte_of_Z (SP_ClientId P);
           byte_of_Z (Server.id (heap client));
           byte_of_Z (Server.id (heap client) / 256);
           byte_of_Z (Server.id (heap client) / 65536);
           byte_of_Z (Server.id (heap client) / 16777216)]].
Proof.
  intros Hk Hid. unfold Server._sendClientId. pose proof BUFFER_SIZE_eq.
  pack_step. rewrite writeUInt32LE_ok by lens. reflexivity.
Qed.

(** The RoomInfo frame that [_sendRoomInfo] writes is the one of section 4.1. *)
Lemma _sendRoomInfo_frame (P : ServerProtocol) (r : Server.Room)
  (client : Server.ClientRef) :
  0 <= SP_RoomInfo P <= 255 -> str_length (Server.room_id r) <= 65535 ->
  Server._sendRoomInfo P r client
  = Ok [Server.InternalSend client
          (Client.settling_frame P (Client.RoomInfo (Server.room_id r)))].
Proof.
  intros Hk Hl. unfold Server._sendRoomInfo. pose proof BUFFER_SIZE_eq.
  assert (0 <= str_length (Server.room_id r)) by (unfold str_length; lia).
  repeat pack_step. reflexivity.
Qed.

(** The ClientId case of the client's [switch (packetId)]. *)
Lemma _onMessage_ClientId (P : ServerProtocol) (now : Z) (r : Client.Room)
  (n : Z) :
  byte_tags P -> distinct_tags P -> 0 <= n <= 4294967295 ->
  Client._onMessage P now r
    [byte_of_Z (SP_ClientId P); byte_of_Z n; byte_of_Z (n / 256);
     byte_of_Z (n / 65536); byte_of_Z (n / 16777216)]
  = Ok (Client.set_localClientId n r).
Proof.
  intros Hb Hd Hn.
  assert (Hk : 0 <= SP_ClientId P <= 255).
  { unfold byte_tags in Hb.
    repeat match goal with
           | H : Forall _ (_ :: _) |- _ =>
               let Hx := fresh "Hx" in
               apply Forall_cons_iff in H; destruct H as [Hx H]
           end.
    assumption. }
  assert (Hne : SP_ClientId P <> SP_Ping P /\ SP_ClientId P <> SP_UserPacket P
                /\ SP_ClientId P <> SP_RoomInfo P).
  { unfold distinct_tags in Hd.
    repeat match goal with
           | H : NoDup (_ :: _) |- _ =>
               let Hx := fresh "Hx" in
               apply NoDup_cons_iff in H; destruct H as [Hx H]; simpl in Hx
           end.
    repeat split; intros E; rewrite E in *; tauto. }
  destruct Hne as (N1 & N2 & N3).
  unfold Client._onMessage, index. cbn [nth_error option_map].
  rewrite Z_of_byte_of_Z by exact Hk.
  rewrite (proj2 (Z.eqb_neq _ _) N1), (proj2 (Z.eqb_neq _ _) N2),
    (proj2 (Z.eqb_neq _ _) N3), Z.eqb_refl.
  unfold readUInt32LE. cbn [nth_error Nat.add].
  rewrite u32_of_bytes by exact Hn. reflexivity.
Qed.

(** The RoomInfo case, with the callback set and the promise pending. *)
Lemma _onMessage_RoomInfo_pending (P : ServerProtocol) (now : Z)
  (r : Client.Room) (s : JsString) :
  byte_tags P -> distinct_tags P ->
  wf_string s -> str_length s <= 65535 ->
  Client._connectResultCallback r = true ->
  Client.connect_promise r = Client.Pending ->
  Client._onMessage P now r (Client.settling_frame P (Client.RoomInfo s))
  = Ok (Client.set_promise Client.Fulfilled
          (Client.log (Client.ConnectResultCallback None) (Client.set_id s r))).
Proof.
  intros Hb Hd Hwf Hl Hcb Hp.
  destruct (settling_frame_read P (Client.RoomInfo s) Hb (conj Hwf Hl))
    as (Hi & Hlen & Hs).
  destruct (distinct_tags_neq P Hd) as ((R1 & R2) & _).
  unfold Client._onMessage. rewrite Hi, Hlen. cbn [bind]. rewrite Hs.
  cbn [Client.settling_tag Client.settling_text].
  rewrite (proj2 (Z.eqb_neq _ _) R1), (proj2 (Z.eqb_neq _ _) R2), Z.eqb_refl.
  unfold Client.invoke_connectResult.
  change (Client._connectResultCallback (Client.set_id s r))
    with (Client._connectResultCallback r).
  rewrite Hcb. unfold Client.connectResultCallback, Client.resolve.
  change (Client.connect_promise
            (Client.log (Client.ConnectResultCallback None) (Client.set_id s r)))
    with (Client.connect_promise r).
  rewrite Hp. reflexivity.
Qed.

Lemma byte_tags_each (P : ServerProtocol) :
  byte_tags P ->
  0 <= SP_RoomInfo P <= 255 /\ 0 <= SP_ClientId P <= 255 /\
  0 <= SP_Ping P <= 255 /\ 0 <= SP_UserPacket P <= 255.
Proof.
  unfold byte_tags. intros H.
  repeat match goal with
         | H : Forall _ (_ :: _) |- _ =>
             let Hx := fresh "Hx" in
             apply Forall_cons_iff in H; destruct H as [Hx H]
         end.
  repeat split; lia.
Qed.

(** X6. The handshake. For a session whose id is a u32, in a room whose id
    fits its length field, [_internalOnOpen] sends a ClientId frame and then
    a RoomInfo frame to the session, registers it under its id, and calls the
    join hook, which finds the session in the registry. A client that waits
    for the outcome of its connect attempt and receives the two frames has
    the session's id as [localClientId] and the room's id as [id], its
    promise is fulfilled, and the connect-result callback was called once. *)
Theorem handshake (P : ServerProtocol) (heap : Server.Heap) (room : Server.Room)
  (client : Server.ClientRef) (r : Client.Room) (t1 t2 : Z) :
  byte_tags P -> distinct_tags P ->
  0 <= Server.id (heap client) <= 4294967295 ->
  wf_string (Server.room_id room) -> str_length (Server.room_id room) <= 65535 ->
  Client._connectResultCallback r = true ->
  Client.connect_promise r = Client.Pending ->
  exists f1 f2 room',
    Server._internalOnOpen P heap room client
    = ([Server.InternalSend client f1; Server.InternalSend client f2;
        Server.OnClientJoined client (Server.clients room')],
       Ok room') /\
    JsMap.get Z.eq_dec (Server.clients room') (Server.id (heap client))
    = Some client /\
    exists r',
      Client.receive P [(t1, f1); (t2, f2)] r = Ok r' /\
      Client._localClientId r' = Server.id (heap client) /\
      Client._id r' = Some (Server.room_id room) /\
      Client.connect_promise r' = Client.Fulfilled /\
      Client.connect_result_calls (Client.trace r')
      = S (Client.connect_result_calls (Client.trace r)).
Proof.
  intros Hb Hd Hid Hwf Hl Hcb Hp.
  destruct (byte_tags_each P Hb) as (Hri & Hci & _ & _).
  eexists _, _, _. split.
  - unfold Server._internalOnOpen.
    rewrite (_sendClientId_frame P heap client Hci Hid).
    rewrite (_sendRoomInfo_frame P room client Hri Hl).
    reflexivity.
  - split; [apply JsMap_get_set_same | ].
    eexists. split.
    + cbn [Client.receive].
      rewrite (_onMessage_ClientId P t1 r _ Hb Hd Hid). cbn [bind].
      rewrite (_onMessage_RoomInfo_pending P t2
                 (Client.set_localClientId (Server.id (heap client)) r)
                 (Server.room_id room) Hb Hd Hwf Hl Hcb Hp).
      cbn [bind]. reflexivity.
    + repeat split.
      change (Client.connect_result_calls
                (Client.trace r ++ [Client.ConnectResultCallback None])
              = S (Client.connect_result_calls (Client.trace r))).
      rewrite connect_result_calls_app.
      change (Client.connect_result_calls [Client.ConnectResultCallback None])
        with 1%nat.
      lia.
Qed.

(** Session 0 of [Examples.heap] opens on the room "r"; the connecting
    client learns its id, 10, and the room's. *)
Lemma handshake_example :
  exists f1 f2 room',
    Server._internalOnOpen Examples.server_protocol Examples.heap
      (Server.new_Room Examples.str_r) 0%nat
    = ([Server.InternalSend 0%nat f1; Server.InternalSend 0%nat f2;
        Server.OnClientJoined 0%nat (Server.clients room')],
       Ok room') /\
    JsMap.get Z.eq_dec (Server.clients room') (Server.id (Examples.heap 0%nat))
    = Some 0%nat /\
    exists r',
      Client.receive Examples.server_protocol [(1001, f1); (1002, f2)]
        Examples.connecting = Ok r' /\
      Client._localClientId r' = Server.id (Examples.heap 0%nat) /\
      Client._id r' = Some (Server.room_id (Server.new_Room Examples.str_r)) /\
      Client.connect_promise r' = Client.Fulfilled /\
      Client.connect_result_calls (Client.trace r')
      = S (Client.connect_result_calls (Client.trace Examples.connecting)).
Proof.
  apply (handshake Examples.server_protocol Examples.heap
           (Server.new_Room Examples.str_r) 0%nat Examples.connecting 1001 1002).
  - repeat constructor; simpl; lia.
  - repeat constructor; simpl; intuition discriminate.
  - simpl. lia.
  - wf_example.
  - unfold str_length. simpl. lia.
  - reflexivity.
  - reflexivity.
Defined.

(** X7. [_internalOnOpen] when a frame cannot be written. A session id that
    is no u32 makes [_sendClientId] throw before anything is sent. A room id
    of more than 65535 code units makes [_sendRoomInfo] throw when the
    ClientId frame has already gone to the session. In both cases the
    session is not registered and the join hook is not called. *)
Theorem _internalOnOpen_throws (P : ServerProtocol) (heap : Server.Heap)
  (room : Server.Room) (client : Server.ClientRef) :
  0 <= SP_ClientId P <= 255 -> 0 <= SP_RoomInfo P <= 255 ->
  (~ 0 <= Server.id (heap client) <= 4294967295 ->
   Server._internalOnOpen P heap room client = ([], Throw ERR_OUT_OF_RANGE)) /\
  (0 <= Server.id (heap client) <= 4294967295 ->
   65535 < str_length (Server.room_id room) ->
   exists f1,
     Server._internalOnOpen P heap room client
     = ([Server.InternalSend client f1], Throw ERR_OUT_OF_RANGE)) /\
  (forall effects e,
     Server._internalOnOpen P heap room client = (effects, Throw e) ->
     Server.registry_step P heap room (Server.Opens client) = room /\
     forall registry, ~ In (Server.OnClientJoined client registry) effects).
Proof.
  intros Hci Hri. pose proof BUFFER_SIZE_eq as HB. split; [ | split].
  - intros Hid. unfold Server._internalOnOpen, Server._sendClientId.
    pack_step. rewrite writeUInt32LE_throws by exact Hid. reflexivity.
  - intros Hid Hl. unfold Server._internalOnOpen.
    rewrite (_sendClientId_frame P heap client Hci Hid).
    unfold Server._sendRoomInfo. pack_step.
    rewrite writeUInt16LE_throws by lia. eexists. reflexivity.
  - intros effects e H. split.
    + unfold Server.registry_step. rewrite H. reflexivity.
    + intros registry Hin. unfold Server._internalOnOpen in H.
      destruct (Server._sendClientId P heap client) as [e1|x] eqn:E1.
      * destruct (Server._sendRoomInfo P room client) as [e2|y] eqn:E2;
          [discriminate | ].
        injection H as <- _.
        unfold Server._sendClientId in E1.
        destruct (writeUInt8 (SP_ClientId P) []) as [o|]; cbn [bind] in E1;
          [ | discriminate].
        destruct (Server.writeUInt32LE (Server.id (heap client)) o);
          cbn [bind] in E1; [ | discriminate].
        injection E1 as <-. destruct Hin as [Hin | []]. discriminate.
      * injection H as <- _. destruct Hin.
Qed.

(** Session 0 of a heap where its id is -1. *)
Lemma _internalOnOpen_throws_example :
  Server._internalOnOpen Examples.server_protocol
    (fun _ => {| Server.id := -1; Server.status := Server.CONNECTING |})
    (Server.new_Room Examples.str_r) 0%nat
  = ([], Throw ERR_OUT_OF_RANGE).
Proof.
  apply (_internalOnOpen_throws Examples.server_protocol
           (fun _ => {| Server.id := -1; Server.status := Server.CONNECTING |})
           (Server.new_Room Examples.str_r) 0%nat);
    simpl; lia.
Defined.

(* ================================================================== *)
(** ** The registry over opens and closes *)
(* ================================================================== *)

Section RegistryFacts.
Context {V : Type}.

Lemma JsMap_keys_set_new (m : JsMap.t (K := Z) (V := V)) (k : Z) (v : V) :
  ~ In k (map fst m) ->
  JsMap.set Z.eq_dec m k v = m ++ [(k, v)].
Proof.
  induction m as [|[k' v'] m IH]; intros Hn; simpl; [reflexivity | ].
  simpl in Hn. destruct (Z.eq_dec k k') as [E|N]; [subst; tauto | ].
  rewrite IH by tauto. reflexivity.
Qed.

Lemma JsMap_keys_set_old (m : JsMap.t (K := Z) (V := V)) (k : Z) (v : V) :
  In k (map fst m) ->
  map fst (JsMap.set Z.eq_dec m k v) = map fst m.
Proof.
  induction m as [|[k' v'] m IH]; intros Hi; simpl; [destruct Hi | ].
  destruct (Z.eq_dec k k') as [E|N]; [subst; reflexivity | ].
  simpl. f_equal. apply IH. destruct Hi as [E|Hi]; [simpl in E; congruence | exact Hi].
Qed.

Lemma JsMap_keys_delete (m : JsMap.t (K := Z) (V := V)) (k : Z) :
  map fst (JsMap.delete Z.eq_dec m k)
  = filter (fun k' => if Z.eq_dec k k' then false else true) (map fst m).
Proof.
  induction m as [|[k' v'] m IH]; simpl; [reflexivity | ].
  destruct (Z.eq_dec k k'); simpl; rewrite IH; reflexivity.
Qed.

Lemma JsMap_set_entries (m : JsMap.t (K := Z) (V := V)) (k : Z) (v : V)
  (entry : Z * V) :
  In entry (JsMap.set Z.eq_dec m k v) -> entry = (k, v) \/ In entry m.
Proof.
  induction m as [|[k' v'] m IH]; simpl.
  - intros [E|[]]; left; symmetry; exact E.
  - destruct (Z.eq_dec k k'); simpl; intros [E|H]; auto.
    destruct (IH H); auto.
Qed.

End RegistryFacts.

Lemma NoDup_filter {A} (f : A -> bool) (l : list A) :
  NoDup l -> NoDup (filter f l).
Proof.
  induction 1 as [|x l Hx Hl IH]; simpl; [constructor | ].
  destruct (f x); [constructor; [ | exact IH] | exact IH].
  intros Hin. apply filter_In in Hin. tauto.
Qed.

Lemma _internalOnOpen_registers (P : ServerProtocol) (heap : Server.Heap)
  (r r' : Server.Room) (client : Server.ClientRef) :
  snd (Server._internalOnOpen P heap r client) = Ok r' ->
  r' = Server.set_clients r
         (JsMap.set Z.eq_dec (Server.clients r) (Server.id (heap client)) client).
Proof.
  unfold Server._internalOnOpen.
  destruct (Server._sendClientId P heap client); [ | discriminate].
  destruct (Server._sendRoomInfo P r client); [ | discriminate].
  simpl. intros H. injection H as <-. reflexivity.
Qed.

(** X8. When [_internalOnOpen] returns, the session is in the registry under
    its id. A new id is added at the end of the registry, which grows by
    one; an id that is there keeps its place, and its entry is now this
    session. The room's [maxClients] plays no part: a room that [isFull]
    takes the session all the same, and stays full. *)
Theorem _internalOnOpen_registry (P : ServerProtocol) (heap : Server.Heap)
  (r r' : Server.Room) (client : Server.ClientRef) :
  snd (Server._internalOnOpen P heap r client) = Ok r' ->
  JsMap.get Z.eq_dec (Server.clients r') (Server.id (heap client)) = Some client /\
  (~ In (Server.id (heap client)) (Server.registered_ids r) ->
   Server.clients r' = Server.clients r ++ [(Server.id (heap client), client)] /\
   JsMap.size (Server.clients r') = JsMap.size (Server.clients r) + 1) /\
  (In (Server.id (heap client)) (Server.registered_ids r) ->
   Server.registered_ids r' = Server.registered_ids r) /\
  (Server.isFull r = true -> Server.isFull r' = true).
Proof.
  intros H. apply _internalOnOpen_registers in H. subst r'.
  cbn [Server.clients Server.set_clients]. split; [apply JsMap_get_set_same | ].
  split; [ | split].
  - intros Hn. unfold Server.registered_ids in Hn.
    rewrite (JsMap_keys_set_new _ _ client Hn). split; [reflexivity | ].
    unfold JsMap.size. rewrite length_app. cbn [length]. lia.
  - intros Hi. unfold Server.registered_ids in *.
    cbn [Server.clients Server.set_clients].
    apply JsMap_keys_set_old. exact Hi.
  - unfold Server.isFull. cbn [Server.maxClients Server.clients Server.set_clients].
    destruct (Server.maxClients r) as [m|]; [ | discriminate].
    intros Hf. apply Z.leb_le in Hf. apply Z.leb_le.
    unfold JsMap.size in *.
    destruct (in_dec Z.eq_dec (Server.id (heap client)) (map fst (Server.clients r)))
      as [Hi|Hn].
    + pose proof (JsMap_keys_set_old (Server.clients r) _ client Hi) as E.
      apply (f_equal (@length Z)) in E. rewrite !length_map in E. lia.
    + rewrite (JsMap_keys_set_new _ _ client Hn), length_app. cbn [length]. lia.
Qed.

(** Session 0 of [Examples.heap], id 10, opens on the empty room "r". *)
Lemma _internalOnOpen_registry_example :
  JsMap.get Z.eq_dec
    (Server.clients (Server.set_clients (Server.new_Room Examples.str_r)
                       [(10, 0%nat)]))
    (Server.id (Examples.heap 0%nat)) = Some 0%nat.
Proof.
  apply (_internalOnOpen_registry Examples.server_protocol Examples.heap
           (Server.new_Room Examples.str_r)
           (Server.set_clients (Server.new_Room Examples.str_r) [(10, 0%nat)])
           0%nat).
  reflexivity.
Defined.

Lemma NoDup_map_injective {A B} (f : A -> B) (l : list A) :
  (forall a b, f a = f b -> a = b) -> NoDup l -> NoDup (map f l).
Proof.
  intros Hf. induction 1 as [|x l Hx Hl IH]; simpl; constructor; [ | exact IH].
  intros Hin. apply in_map_iff in Hin. destruct Hin as (y & E & Hy).
  apply Hf in E. subst y. contradiction.
Qed.

Lemma registry_ok_step (P : ServerProtocol) (heap : Server.Heap)
  (r : Server.Room) (op : Server.RegistryOp) :
  Server.registry_ok heap r ->
  Server.registry_ok heap (Server.registry_step P heap r op).
Proof.
  intros [Hnd Hid]. destruct op as [client|client]; cbn [Server.registry_step].
  - destruct (snd (Server._internalOnOpen P heap r client)) as [r'|e] eqn:E;
      [ | split; assumption].
    apply _internalOnOpen_registers in E. subst r'.
    unfold Server.registry_ok, Server.registered_ids in *.
    cbn [Server.clients Server.set_clients]. split.
    + destruct (in_dec Z.eq_dec (Server.id (heap client))
                  (map fst (Server.clients r))) as [Hi|Hn].
      * rewrite JsMap_keys_set_old by exact Hi. exact Hnd.
      * rewrite (JsMap_keys_set_new _ _ client Hn), map_app. cbn [map fst].
        apply NoDup_app; [exact Hnd | repeat constructor; intros [] | ].
        intros k Hk [E|[]]. subst k. contradiction.
    + apply Forall_forall. intros entry Hin.
      apply JsMap_set_entries in Hin. destruct Hin as [-> | Hin];
        [reflexivity | ].
      rewrite Forall_forall in Hid. apply Hid. exact Hin.
  - unfold Server.registry_ok, Server.registered_ids in *.
    cbn [Server._internalOnClose fst Server.clients Server.set_clients]. split.
    + rewrite JsMap_keys_delete. apply NoDup_filter. exact Hnd.
    + apply Forall_forall. intros entry Hin. unfold JsMap.delete in Hin.
      apply filter_In in Hin. rewrite Forall_forall in Hid. apply Hid. tauto.
Qed.

Lemma registry_ok_run (P : ServerProtocol) (heap : Server.Heap)
  (ops : list Server.RegistryOp) :
  forall r, Server.registry_ok heap r ->
            Server.registry_ok heap (Server.registry_run P heap ops r).
Proof.
  induction ops as [|op ops IH]; intros r H; [exact H | ].
  unfold Server.registry_run in *. cbn [fold_left].
  apply IH. apply registry_ok_step. exact H.
Qed.

Lemma registry_ok_sessions (heap : Server.Heap) (r : Server.Room) :
  Server.registry_ok heap r -> NoDup (map snd (Server.clients r)).
Proof.
  intros [Hnd Hid]. unfold Server.registered_ids in Hnd.
  induction (Server.clients r) as [|[k c] m IH]; simpl; [constructor | ].
  simpl in Hnd. apply NoDup_cons_iff in Hnd. destruct Hnd as [Hk Hnd].
  apply Forall_cons_iff in Hid. destruct Hid as [Hkc Hid]. simpl in Hkc.
  constructor; [ | apply IH; assumption].
  intros Hin. apply in_map_iff in Hin. destruct Hin as ([k' c'] & E & Hin).
  simpl in E. subst c'. rewrite Forall_forall in Hid.
  pose proof (Hid _ Hin) as Hk'. simpl in Hk'.
  apply Hk. apply in_map_iff. exists (k', c). split; [simpl; congruence | exact Hin].
Qed.

(** X9. Whatever sessions open and close on a new room, the registry never
    holds an id twice, holds each session under its own id and no session
    twice; a broadcast therefore hands no session the message more than
    once. Once a session has closed, its id is out of the registry until it
    opens again. *)
Theorem registry_holds_sessions_once (P : ServerProtocol) (heap : Server.Heap)
  (id : JsString) (ops : list Server.RegistryOp) :
  NoDup (Server.registered_ids (Server.registry_run P heap ops (Server.new_Room id))) /\
  (forall k c,
     In (k, c) (Server.clients (Server.registry_run P heap ops (Server.new_Room id))) ->
     k = Server.id (heap c)) /\
  (forall msg,
     NoDup (Server._broadcast heap
              (Server.registry_run P heap ops (Server.new_Room id)) msg)) /\
  (forall client,
     ~ In (Server.id (heap client))
          (Server.registered_ids
             (Server.registry_run P heap (ops ++ [Server.Closes client])
                (Server.new_Room id)))).
Proof.
  assert (H0 : Server.registry_ok heap (Server.new_Room id))
    by (split; constructor).
  pose proof (registry_ok_run P heap ops _ H0) as Hok.
  split; [apply Hok | ]. split; [ | split].
  - intros k c Hin. destruct Hok as [_ Hid]. rewrite Forall_forall in Hid.
    apply (Hid (k, c) Hin).
  - intros msg. rewrite _broadcast_joined.
    apply NoDup_map_injective.
    + intros a b E. injection E as E. exact E.
    + apply NoDup_filter. apply (registry_ok_sessions heap). exact Hok.
  - intros client. unfold Server.registry_run. rewrite fold_left_app.
    cbn [fold_left Server.registry_step Server._internalOnClose fst].
    unfold Server.registered_ids. cbn [Server.clients Server.set_clients].
    rewrite JsMap_keys_delete. intros Hin. apply filter_In in Hin.
    destruct Hin as [_ Hf].
    destruct (Z.eq_dec (Server.id (heap client)) (Server.id (heap client)));
      [discriminate | contradiction].
Qed.

(* ================================================================== *)
(** ** The ticker when the rate is zero or negative *)
(* ================================================================== *)

Section TickerRates.
Import Server.
Local Open Scope Q_scope.

Lemma setTickRate_keeps_disabled (t : Ticker) (tps : Q) :
  _disableBuiltinTicker t = true ->
  _disableBuiltinTicker (setTickRate t tps) = true.
Proof.
  intros H. unfold setTickRate. cbn [_disableBuiltinTicker].
  rewrite H. destruct (Qle_bool tps 0); reflexivity.
Qed.

Lemma setTickRates_keep (rates : list Q) :
  forall t : Ticker,
    _disableBuiltinTicker t = true ->
    _disableBuiltinTicker (fold_left setTickRate rates t) = true /\
    tick_calls (fold_left setTickRate rates t) = tick_calls t /\
    _tickNumber (fold_left setTickRate rates t) = _tickNumber t.
Proof.
  induction rates as [|r rates IH]; intros t H; [repeat split; exact H | ].
  cbn [fold_left].
  destruct (IH (setTickRate t r) (setTickRate_keeps_disabled t r H))
    as (A & B & C).
  repeat split; assumption.
Qed.

Lemma disabled_tick (t : Ticker) (newTime : Q) (fuel : nat) :
  _disableBuiltinTicker t = true ->
  exists t',
    _tick (S fuel) newTime t = Some (t', negb (step_due t')) /\
    _tickNumber t' = _tickNumber t /\
    tick_calls t' = tick_calls t /\
    _disableBuiltinTicker t' = true.
Proof.
  intros Hdis. unfold _tick. cbn [tick_loop].
  match goal with
  | |- context [step_due ?t1] => set (T := t1)
  end.
  exists T. change (_disableBuiltinTicker T) with (_disableBuiltinTicker t).
  rewrite Hdis, orb_true_r.
  destruct (step_due T); repeat split; assumption.
Qed.

Lemma disabled_run (es : list Q) :
  forall (t : Ticker) (fuel : nat),
    _disableBuiltinTicker t = true ->
    exists t',
      run_wakes (S fuel) es t = Some t' /\
      _tickNumber t' = _tickNumber t /\
      tick_calls t' = tick_calls t /\
      _disableBuiltinTicker t' = true.
Proof.
  induction es as [|e es IH]; intros t fuel Hdis.
  - exists t. repeat split. assumption.
  - cbn [run_wakes]. unfold wake.
    destruct (disabled_tick t (_lastTime t + e) fuel Hdis)
      as (t1 & Ht & Hn & Hc & Hd1).
    rewrite Ht. destruct (negb (step_due t1)).
    + destruct (IH t1 fuel Hd1) as (t' & Hr & Hn' & Hc' & Hd').
      exists t'. repeat split; congruence.
    + exists t1. repeat split; assumption.
Qed.

(** X12. [setTickRate] with an argument that is zero or negative disables the
    built-in ticker for good. [_postInit] then returns without reading the
    clock, calling [_tick] or scheduling anything, and since [setTickRate]
    only ever sets the flag, no later call of it - with whatever rates -
    brings the ticks back: no wake after it runs the tick hook or changes
    [_tickNumber]. *)
Theorem setTickRate_disables_for_good (t : Ticker) (tps : Q) :
  tps <= 0 ->
  (forall (fuel : nat) (now newTime : Q),
     _postInit fuel now newTime (setTickRate t tps)
     = Some (setTickRate t tps, false)) /\
  (forall (rates es : list Q) (fuel : nat),
     exists t',
       run_wakes (S fuel) es (fold_left setTickRate rates (setTickRate t tps))
       = Some t' /\
       _tickNumber t' = _tickNumber t /\
       tick_calls t' = tick_calls t /\
       _disableBuiltinTicker t' = true).
Proof.
  intros Hle.
  assert (Hdis : _disableBuiltinTicker (setTickRate t tps) = true).
  { unfold setTickRate. cbn [_disableBuiltinTicker].
    apply Qle_bool_iff in Hle. rewrite Hle. reflexivity. }
  split.
  - intros fuel now newTime. unfold _postInit. rewrite Hdis. reflexivity.
  - intros rates es fuel.
    destruct (setTickRates_keep rates (setTickRate t tps) Hdis) as (A & B & C).
    destruct (disabled_run es _ fuel A) as (t' & Hr & Hn & Hc & Hd).
    exists t'. split; [exact Hr | ].
    split; [rewrite Hn, C; reflexivity | ].
    split; [rewrite Hc, B; reflexivity | exact Hd].
Qed.

(** [setTickRate(-20)] in [init], then [setTickRate(50)]. *)
Lemma setTickRate_disables_for_good_example :
  exists t',
    run_wakes 1 [30%Q; 30%Q]
      (fold_left setTickRate [50%Q] (setTickRate new_Ticker (-20))) = Some t' /\
    _tickNumber t' = _tickNumber new_Ticker /\
    tick_calls t' = tick_calls new_Ticker /\
    _disableBuiltinTicker t' = true.
Proof.
  apply (setTickRate_disables_for_good new_Ticker (-20)). discriminate.
Defined.

Lemma wake_without_step (t : Ticker) (e : Q) (fuel : nat) :
  _deltaTimeMs t = None ->
  exists t',
    wake (S fuel) e t = Some (t', true) /\
    _deltaTimeMs t' = None /\
    _lastTime t' = _lastTime t + e /\
    _tickNumber t' = _tickNumber t /\
    tick_calls t' = tick_calls t.
Proof.
  intros Hd. unfold wake, _tick. cbn [tick_loop].
  match goal with
  | |- context [step_due ?t1] => set (T := t1)
  end.
  assert (E : step_due T = false).
  { unfold step_due. subst T. cbn [_deltaTimeMs]. rewrite Hd. reflexivity. }
  rewrite E. exists T. repeat split. exact Hd.
Qed.

Lemma run_without_step (es : list Q) :
  forall (t : Ticker) (fuel : nat),
    _deltaTimeMs t = None ->
    exists t',
      run_wakes (S fuel) es t = Some t' /\
      _lastTime t' = fold_left Qplus es (_lastTime t) /\
      _tickNumber t' = _tickNumber t /\
      tick_calls t' = tick_calls t.
Proof.
  induction es as [|e es IH]; intros t fuel Hd.
  - exists t. repeat split.
  - cbn [run_wakes fold_left].
    destruct (wake_without_step t e fuel Hd) as (t1 & Hw & Hd1 & Hl & Hn & Hc).
    rewrite Hw.
    destruct (IH t1 fuel Hd1) as (t' & Hr & Hl' & Hn' & Hc').
    exists t'. split; [exact Hr | ]. rewrite Hl', Hn', Hc', Hl, Hn, Hc.
    repeat split.
Qed.

(** X13. [setTickRate(0)] on a ticker that is already running - after
    [_postInit] - does not stop the wakes. The step becomes 1000 / 0, which
    no accumulator reaches, so the loop of [_tick] and the test of the
    disabled flag inside it are never entered: every wake reads the clock,
    runs no tick and schedules the next wake, for as long as wakes come. *)
Theorem setTickRate_zero_keeps_waking (t : Ticker) (es : list Q) (fuel : nat) :
  _disableBuiltinTicker (setTickRate t 0) = true /\
  (forall e : Q,
     exists t', wake (S fuel) e (setTickRate t 0) = Some (t', true)) /\
  exists t',
    run_wakes (S fuel) es (setTickRate t 0) = Some t' /\
    _lastTime t' = fold_left Qplus es (_lastTime t) /\
    _tickNumber t' = _tickNumber t /\
    tick_calls t' = tick_calls t.
Proof.
  assert (Hd : _deltaTimeMs (setTickRate t 0) = None) by reflexivity.
  split; [reflexivity | ]. split.
  - intros e. destruct (wake_without_step _ e fuel Hd) as (t' & Hw & _).
    exists t'. exact Hw.
  - apply (run_without_step es (setTickRate t 0) fuel Hd).
Qed.

(** X14. [setTickRate] with a negative argument on a running ticker: the step
    becomes negative, the accumulator is at or above it at once, and the next
    wake leaves [_tick] at the test of the disabled flag, with no tick and
    without scheduling another wake. *)
Theorem setTickRate_negative_ends_wakes (t : Ticker) (tps e : Q) (fuel : nat) :
  tps < 0 -> 0 <= _accumulator t -> 0 <= _maxAccumulation t -> 0 <= e ->
  exists t',
    wake (S fuel) e (setTickRate t tps) = Some (t', false) /\
    _lastTime t' = _lastTime t + e /\
    _tickNumber t' = _tickNumber t /\
    tick_calls t' = tick_calls t.
Proof.
  intros Hneg Ha Hm He.
  assert (Hdis : _disableBuiltinTicker (setTickRate t tps) = true).
  { unfold setTickRate. cbn [_disableBuiltinTicker].
    assert (H : tps <= 0) by lra. apply Qle_bool_iff in H. rewrite H. reflexivity. }
  assert (Hd : _deltaTimeMs (setTickRate t tps) = Some (1000 / tps)).
  { unfold setTickRate. cbn [_deltaTimeMs].
    destruct (Qeq_bool tps 0) eqn:E; [ | reflexivity].
    apply Qeq_bool_iff in E. lra. }
  assert (Hstep : 1000 / tps < 0).
  { setoid_replace (1000 / tps) with (- (1000 / - tps)) by (field; lra).
    assert (0 < 1000 / - tps) by (apply Qlt_shift_div_l; lra). lra. }
  unfold wake, _tick. cbn [tick_loop].
  match goal with
  | |- context [step_due ?t1] => set (T := t1)
  end.
  assert (E : step_due T = true).
  { apply (step_due_true T (1000 / tps)); [exact Hd | ].
    subst T. cbn [_accumulator].
    change (_accumulator (setTickRate t tps)) with (_accumulator t).
    change (_maxAccumulation (setTickRate t tps)) with (_maxAccumulation t).
    change (_lastTime (setTickRate t tps)) with (_lastTime t).
    pose proof (Math_min_elapsed (_maxAccumulation t) (_lastTime t) e) as Hc.
    pose proof (Math_min_nonneg (_maxAccumulation t) e Hm He) as H0.
    rewrite Hc. lra. }
  rewrite E. change (_disableBuiltinTicker T) with
    (_disableBuiltinTicker (setTickRate t tps)).
  rewrite Hdis, orb_true_r. exists T. repeat split.
Qed.

(** A ticker at 100 ticks per second, then [setTickRate(-1)], and a wake 4 ms
    later. *)
Lemma setTickRate_negative_ends_wakes_example :
  exists t',
    wake 1 4 (setTickRate ticker_100Hz (-1)) = Some (t', false) /\
    _lastTime t' = _lastTime ticker_100Hz + 4 /\
    _tickNumber t' = _tickNumber ticker_100Hz /\
    tick_calls t' = tick_calls ticker_100Hz.
Proof.
  apply (setTickRate_negative_ends_wakes ticker_100Hz (-1) 4 0);
    [reflexivity | discriminate | discriminate | discriminate].
Defined.

End TickerRates.

(* ================================================================== *)
(** ** The client: the latency getters *)
(* ================================================================== *)

Lemma nth_error_last_snoc {A} (w : list A) (x : A) :
  nth_error (w ++ [x]) (length (w ++ [x]) - 1) = Some x.
Proof.
  rewrite length_app. cbn [length].
  replace (length w + 1 - 1)%nat with (length w) by lia.
  rewrite nth_error_app2 by lia. rewrite Nat.sub_diag. reflexivity.
Qed.

(** X15. After rounds of the ping cycle that end with a reply [rtt] after
    its ping, a room with a capacity above zero reports [rtt] as
    [currentLatency], and as [averageLatency] the sum of the samples it has
    kept - the last [latencySampleSize] of those it had and the round-trip
    times that came - over their number, which is the smaller of the capacity
    and the number of samples there were. With [latencySampleSize] 0 every
    sample is dropped as it comes, and the getters stay at their empty values
    ([undefined] and the [NaN] of 0 / 0). *)
Theorem latency_getters (P : ServerProtocol) (C : ClientProtocol)
  (r : Client.Room) (rs : list (Z * Z)) (sent rtt : Z) :
  0 <= SP_Ping P <= 255 ->
  (length (Client._latencySamples r) <= Client.latencySampleSize r)%nat ->
  let all := Client._latencySamples r ++ map snd rs ++ [rtt] in
  let kept := skipn (length all - Client.latencySampleSize r) all in
  exists r',
    Client.ping_rounds P C (rs ++ [(sent, rtt)]) r = Ok r' /\
    Client._latencySamples r' = kept /\
    ((0 < Client.latencySampleSize r)%nat ->
     Client.currentLatency r' = Some rtt /\
     Client.averageLatency r'
     = Some (Qdiv (inject_Z (fold_left Z.add kept 0))
                  (inject_Z (Z.of_nat (Nat.min (length all)
                                         (Client.latencySampleSize r)))))) /\
    (Client.latencySampleSize r = 0%nat ->
     Client.currentLatency r' = None /\ Client.averageLatency r' = None).
Proof.
  intros Hb Hw all kept.
  destruct (ping_rounds_window P C (rs ++ [(sent, rtt)]) r Hb Hw)
    as (r' & Hr & Hc & Hs).
  rewrite map_app in Hs. cbn [map snd] in Hs. fold all in Hs. fold kept in Hs.
  exists r'. split; [exact Hr | ]. split; [exact Hs | ].
  set (pre := Client._latencySamples r ++ map snd rs).
  assert (Hall : all = pre ++ [rtt])
    by (unfold all, pre; rewrite app_assoc; reflexivity).
  assert (Hlen : length all = S (length pre))
    by (rewrite Hall, length_app; cbn [length]; lia).
  split.
  - intros Hcap.
    assert (Hk : kept
                 = skipn (length all - Client.latencySampleSize r) pre ++ [rtt]).
    { unfold kept. rewrite Hall at 2. rewrite skipn_app.
      replace (length all - Client.latencySampleSize r - length pre)%nat
        with 0%nat by lia.
      reflexivity. }
    split.
    + unfold Client.currentLatency. rewrite Hs, Hk. apply nth_error_last_snoc.
    + unfold Client.averageLatency. rewrite Hs.
      assert (Hkl : length kept
                    = Nat.min (length all) (Client.latencySampleSize r))
        by (unfold kept; rewrite length_skipn; lia).
      rewrite Hkl.
      destruct kept as [|x kept'] eqn:E; [ | reflexivity].
      destruct (skipn (length all - Client.latencySampleSize r) pre);
        discriminate.
  - intros Hcap.
    assert (Hk : kept = []).
    { unfold kept. rewrite Hcap, Nat.sub_0_r. apply skipn_all. }
    unfold Client.currentLatency, Client.averageLatency. rewrite Hs, Hk.
    split; reflexivity.
Qed.

(** Twelve rounds and a thirteenth that takes 42 ms, with the default
    capacity of 10. *)
Lemma latency_getters_example :
  let all := Client._latencySamples Client.new_Room
             ++ map snd Examples.twelve_rounds ++ [42] in
  let kept := skipn (length all - Client.latencySampleSize Client.new_Room) all in
  exists r',
    Client.ping_rounds Examples.server_protocol Examples.client_protocol
      (Examples.twelve_rounds ++ [(13000, 42)]) Client.new_Room = Ok r' /\
    Client._latencySamples r' = kept /\
    ((0 < Client.latencySampleSize Client.new_Room)%nat ->
     Client.currentLatency r' = Some 42 /\
     Client.averageLatency r'
     = Some (Qdiv (inject_Z (fold_left Z.add kept 0))
                  (inject_Z (Z.of_nat (Nat.min (length all)
                     (Client.latencySampleSize Client.new_Room)))))) /\
    (Client.latencySampleSize Client.new_Room = 0%nat ->
     Client.currentLatency r' = None /\ Client.averageLatency r' = None).
Proof.
  apply (latency_getters Examples.server_protocol Examples.client_protocol
           Client.new_Room Examples.twelve_rounds 13000 42).
  - simpl. lia.
  - simpl. lia.
Defined.

(* ================================================================== *)
(** ** The client: the ping timer and the close observers *)
(* ================================================================== *)

Lemma timers_fold_log (g : Fn -> Client.Effect) (fs : list Fn) :
  forall r : Client.Room,
    Client.timeouts (fold_left (fun r f => Client.log (g f) r) fs r)
    = Client.timeouts r /\
    Client._pingTimeout (fold_left (fun r f => Client.log (g f) r) fs r)
    = Client._pingTimeout r.
Proof.
  induction fs as [|f fs IH]; intros r; simpl; [split; reflexivity | ].
  destruct (IH (Client.log (g f) r)) as [A B]. rewrite A, B. split; reflexivity.
Qed.

Lemma clearTimeout_own (h : nat) (d : option Z) :
  Client.clearTimeout (Some h) [(h, d)] = [].
Proof. unfold Client.clearTimeout. simpl. rewrite Nat.eqb_refl. reflexivity. Qed.

(** A round of the ping cycle on a room whose only pending timeout, if any,
    is the one in [_pingTimeout]. *)
Lemma ping_round_timers (C : ClientProtocol) (sent now : Z) (r : Client.Room) :
  Client.clearTimeout (Client._pingTimeout r) (Client.timeouts r) = [] ->
  Client.timeouts (Client.on_ping now (Client._ping C sent r))
  = [(Client.next_handle r, Client.pingDelay r)] /\
  Client._pingTimeout (Client.on_ping now (Client._ping C sent r))
  = Some (Client.next_handle r) /\
  Client.pingDelay (Client.on_ping now (Client._ping C sent r))
  = Client.pingDelay r /\
  Client._closeCallbacks (Client.on_ping now (Client._ping C sent r))
  = Client._closeCallbacks r.
Proof.
  intros H. unfold Client.on_ping, Client._ping.
  cbn [Client.timeouts Client._pingTimeout Client.pingDelay Client._closeCallbacks
         Client.next_handle Client.set_timers Client.set_latencySamples
         Client.set_lastPingTimestamp Client.log].
  rewrite H. repeat split.
Qed.

Lemma ping_rounds_timers (P : ServerProtocol) (C : ClientProtocol)
  (rounds : list (Z * Z)) :
  forall r : Client.Room,
    0 <= SP_Ping P <= 255 ->
    Client.clearTimeout (Client._pingTimeout r) (Client.timeouts r) = [] ->
    exists r',
      Client.ping_rounds P C rounds r = Ok r' /\
      Client.clearTimeout (Client._pingTimeout r') (Client.timeouts r') = [] /\
      (rounds <> [] ->
       exists h, Client.timeouts r' = [(h, Client.pingDelay r)] /\
                 Client._pingTimeout r' = Some h) /\
      Client.pingDelay r' = Client.pingDelay r /\
      Client._closeCallbacks r' = Client._closeCallbacks r.
Proof.
  induction rounds as [|[sent rtt] rounds IH]; intros r Hb Hinv.
  - exists r. split; [reflexivity | ]. split; [exact Hinv | ].
    split; [intros H; contradiction | split; reflexivity].
  - cbn [Client.ping_rounds]. rewrite _onMessage_ping by exact Hb. cbn [bind].
    destruct (ping_round_timers C sent (sent + rtt) r Hinv) as (Ht & Hp & Hd & Hc).
    set (r1 := Client.on_ping (sent + rtt) (Client._ping C sent r)) in *.
    assert (Hinv1 : Client.clearTimeout (Client._pingTimeout r1) (Client.timeouts r1)
                    = [])
      by (rewrite Ht, Hp; apply clearTimeout_own).
    destruct (IH r1 Hb Hinv1) as (r' & Hr & Hi & Hlast & Hd' & Hc').
    exists r'. split; [exact Hr | ]. split; [exact Hi | ].
    split; [ | split; congruence].
    intros _. destruct rounds as [|round rounds'].
    + cbn [Client.ping_rounds] in Hr. injection Hr as <-.
      exists (Client.next_handle r). split; assumption.
    + destruct (Hlast ltac:(discriminate)) as (h & A & B).
      exists h. rewrite <- Hd. split; assumption.
Qed.

(** X16. A room with no timer pending goes through any number of rounds of
    the ping cycle - a ping, the server's reply, the timeout it sets, the
    next ping. After each round exactly one timeout is pending, with the
    delay [pingDelay], and [_pingTimeout] holds its handle. [_onClose] clears
    it: after the close no timeout is pending, so no timeout whatever fires
    another ping, and the close observers have been called, each once, in
    the order of the set. *)
Theorem close_ends_ping_cycle (P : ServerProtocol) (C : ClientProtocol)
  (r : Client.Room) (rounds : list (Z * Z)) :
  0 <= SP_Ping P <= 255 ->
  Client.timeouts r = [] ->
  exists r',
    Client.ping_rounds P C rounds r = Ok r' /\
    (rounds <> [] ->
     exists h, Client.timeouts r' = [(h, Client.pingDelay r)] /\
               Client._pingTimeout r' = Some h) /\
    Client.timeouts (Client._onClose r') = [] /\
    (forall (now : Z) (h : nat),
       Client.timeout_fires C now h (Client._onClose r') = Client._onClose r') /\
    Client.trace (Client._onClose r')
    = Client.trace r' ++ map Client.CloseCallback (Client._closeCallbacks r).
Proof.
  intros Hb H0.
  assert (Hinv : Client.clearTimeout (Client._pingTimeout r) (Client.timeouts r) = []).
  { rewrite H0. unfold Client.clearTimeout.
    destruct (Client._pingTimeout r); reflexivity. }
  destruct (ping_rounds_timers P C rounds r Hb Hinv)
    as (r' & Hr & Hi & Hlast & _ & Hc).
  exists r'. split; [exact Hr | ]. split; [exact Hlast | ].
  assert (Ht : Client.timeouts (Client._onClose r') = []).
  { unfold Client._onClose.
    match goal with
    | |- Client.timeouts (fold_left _ ?fs ?x) = _ =>
        destruct (timers_fold_log Client.CloseCallback fs x) as [A _]
    end.
    rewrite A. cbn [Client.timeouts Client.set_timers]. exact Hi. }
  split; [exact Ht | ]. split.
  - intros now h. unfold Client.timeout_fires. rewrite Ht. reflexivity.
  - unfold Client._onClose.
    rewrite (trace_fold_log Client.CloseCallback).
    cbn [Client.trace Client._closeCallbacks Client.set_timers].
    rewrite Hc. reflexivity.
Qed.

(** A new room and the twelve rounds of the examples. *)
Lemma close_ends_ping_cycle_example :
  exists r',
    Client.ping_rounds Examples.server_protocol Examples.client_protocol
      Examples.twelve_rounds Client.new_Room = Ok r' /\
    (Examples.twelve_rounds <> [] ->
     exists h, Client.timeouts r' = [(h, Client.pingDelay Client.new_Room)] /\
               Client._pingTimeout r' = Some h) /\
    Client.timeouts (Client._onClose r') = [] /\
    (forall (now : Z) (h : nat),
       Client.timeout_fires Examples.client_protocol now h (Client._onClose r')
       = Client._onClose r') /\
    Client.trace (Client._onClose r')
    = Client.trace r'
      ++ map Client.CloseCallback (Client._closeCallbacks Client.new_Room).
Proof.
  apply (close_ends_ping_cycle Examples.server_protocol Examples.client_protocol
           Client.new_Room Examples.twelve_rounds).
  - simpl. lia.
  - reflexivity.
Defined.

(** X17. Two Ping frames with no ping of the client between them: the second
    one's [setTimeout] overwrites [_pingTimeout] while the first one's
    timeout is still pending. [_onClose] then clears the second only; the
    first stays pending after the close, and when it fires [_ping] sends a
    Ping frame on the closed connection. *)
Theorem second_ping_leaves_a_timeout (P : ServerProtocol) (C : ClientProtocol)
  (r : Client.Room) (now1 now2 later : Z) :
  0 <= SP_Ping P <= 255 ->
  Client.timeouts r = [] ->
  exists r2,
    Client.receive P [(now1, [byte_of_Z (SP_Ping P)]);
                      (now2, [byte_of_Z (SP_Ping P)])] r = Ok r2 /\
    Client.timeouts r2
    = [(Client.next_handle r, Client.pingDelay r);
       (S (Client.next_handle r), Client.pingDelay r)] /\
    Client._pingTimeout r2 = Some (S (Client.next_handle r)) /\
    Client.timeouts (Client._onClose r2)
    = [(Client.next_handle r, Client.pingDelay r)] /\
    Client.trace
      (Client.timeout_fires C later (Client.next_handle r) (Client._onClose r2))
    = Client.trace (Client._onClose r2)
      ++ [Client.NetSend [byte_of_Z (CP_Ping C)]].
Proof.
  intros Hb H0. cbn [Client.receive].
  rewrite _onMessage_ping by exact Hb. cbn [bind].
  rewrite _onMessage_ping by exact Hb. cbn [bind].
  eexists. split; [reflexivity | ].
  assert (Ht : Client.timeouts (Client.on_ping now2 (Client.on_ping now1 r))
               = [(Client.next_handle r, Client.pingDelay r);
                  (S (Client.next_handle r), Client.pingDelay r)]).
  { unfold Client.on_ping.
    cbn [Client.timeouts Client.next_handle Client.pingDelay Client.set_timers
           Client.set_latencySamples].
    rewrite H0. reflexivity. }
  assert (Hp : Client._pingTimeout (Client.on_ping now2 (Client.on_ping now1 r))
               = Some (S (Client.next_handle r))) by reflexivity.
  split; [exact Ht | ]. split; [exact Hp | ].
  assert (Hc : Client.timeouts
                 (Client._onClose (Client.on_ping now2 (Client.on_ping now1 r)))
               = [(Client.next_handle r, Client.pingDelay r)]).
  { unfold Client._onClose.
    match goal with
    | |- Client.timeouts (fold_left _ ?fs ?x) = _ =>
        destruct (timers_fold_log Client.CloseCallback fs x) as [A _]
    end.
    rewrite A. cbn [Client.timeouts Client.set_timers]. rewrite Ht, Hp.
    unfold Client.clearTimeout. cbn [filter fst negb].
    replace (Client.next_handle r =? S (Client.next_handle r))%nat with false
      by (symmetry; apply Nat.eqb_neq; lia).
    rewrite Nat.eqb_refl. reflexivity. }
  split; [exact Hc | ].
  unfold Client.timeout_fires. rewrite Hc. cbn [existsb fst].
  rewrite Nat.eqb_refl. cbn [orb]. reflexivity.
Qed.

(** A new room and two Ping frames one millisecond apart. *)
Lemma second_ping_leaves_a_timeout_example :
  exists r2,
    Client.receive Examples.server_protocol
      [(1000, [byte_of_Z (SP_Ping Examples.server_protocol)]);
       (1001, [byte_of_Z (SP_Ping Examples.server_protocol)])]
      Client.new_Room = Ok r2 /\
    Client.timeouts r2
    = [(Client.next_handle Client.new_Room, Client.pingDelay Client.new_Room);
       (S (Client.next_handle Client.new_Room), Client.pingDelay Client.new_Room)] /\
    Client._pingTimeout r2 = Some (S (Client.next_handle Client.new_Room)) /\
    Client.timeouts (Client._onClose r2)
    = [(Client.next_handle Client.new_Room, Client.pingDelay Client.new_Room)] /\
    Client.trace
      (Client.timeout_fires Examples.client_protocol 7000
         (Client.next_handle Client.new_Room) (Client._onClose r2))
    = Client.trace (Client._onClose r2)
      ++ [Client.NetSend [byte_of_Z (CP_Ping Examples.client_protocol)]].
Proof.
  apply (second_ping_leaves_a_timeout Examples.server_protocol
           Examples.client_protocol Client.new_Room 1000 1001 7000).
  - simpl. lia.
  - reflexivity.
Defined.

Lemma FnSet_add_spec (s : FnSet) (f : Fn) :
  NoDup s ->
  NoDup (FnSet_add s f) /\
  (forall g, In g (FnSet_add s f) <-> In g s \/ g = f) /\
  (In f s -> FnSet_add s f = s).
Proof.
  intros Hnd. unfold FnSet_add.
  destruct (in_dec Nat.eq_dec f s) as [Hin|Hnin].
  - split; [exact Hnd | ]. split; [ | reflexivity].
    intros g. split; [tauto | ]. intros [H | ->]; assumption.
  - split; [ | split; [ | contradiction]].
    + apply NoDup_app; [exact Hnd | repeat constructor; intros [] | ].
      intros g Hg [<-|[]]. contradiction.
    + intros g. rewrite in_app_iff. simpl. split.
      * intros [H | [H | []]]; [left; exact H | right; symmetry; exact H].
      * intros [H | ->]; [left; exact H | right; left; reflexivity].
Qed.

Lemma onClose_many (fs : list Fn) :
  forall r : Client.Room,
    NoDup (Client._closeCallbacks r) ->
    NoDup (Client._closeCallbacks (fold_left Client.onClose fs r)) /\
    (forall g, In g (Client._closeCallbacks (fold_left Client.onClose fs r))
               <-> In g (Client._closeCallbacks r) \/ In g fs) /\
    Client.trace (fold_left Client.onClose fs r) = Client.trace r.
Proof.
  induction fs as [|f fs IH]; intros r Hnd; cbn [fold_left].
  - split; [exact Hnd | ]. split; [ | reflexivity]. intros g. simpl. tauto.
  - destruct (FnSet_add_spec (Client._closeCallbacks r) f Hnd) as (A & B & _).
    destruct (IH (Client.onClose r f) A) as (A' & B' & T').
    split; [exact A' | ]. split; [ | exact T'].
    intros g. rewrite B'.
    change (Client._closeCallbacks (Client.onClose r f))
      with (FnSet_add (Client._closeCallbacks r) f).
    rewrite B. simpl. split.
    + intros [[H | ->] | H]; [left; exact H | right; left; reflexivity
                              | right; right; exact H].
    + intros [H | [<- | H]]; [left; left; exact H | left; right; reflexivity
                              | right; exact H].
Qed.

(** X18. However often and in whatever order observers are registered with
    [onClose], the transport's close calls each registered observer exactly
    once: the calls that [_onClose] adds to the trace are those of a list
    without repetition whose members are the observers registered before and
    the ones just registered. Registering an observer that is already in the
    set changes nothing. *)
Theorem close_observers_called_once (r : Client.Room) (fs : list Fn) :
  NoDup (Client._closeCallbacks r) ->
  (exists cs : list Fn,
     Client.trace (Client._onClose (fold_left Client.onClose fs r))
     = Client.trace r ++ map Client.CloseCallback cs /\
     NoDup cs /\
     (forall g, In g cs <-> In g (Client._closeCallbacks r) \/ In g fs)) /\
  (forall f, In f (Client._closeCallbacks r) -> Client.onClose r f = r).
Proof.
  intros Hnd. split.
  - destruct (onClose_many fs r Hnd) as (A & B & T).
    exists (Client._closeCallbacks (fold_left Client.onClose fs r)).
    split; [ | split; assumption].
    unfold Client._onClose. rewrite (trace_fold_log Client.CloseCallback).
    cbn [Client.trace Client._closeCallbacks Client.set_timers].
    rewrite T. reflexivity.
  - intros f Hin. unfold Client.onClose.
    destruct (FnSet_add_spec (Client._closeCallbacks r) f Hnd) as (_ & _ & E).
    rewrite (E Hin). destruct r. reflexivity.
Qed.

(** Observer 1 registered three times and observer 2 once, on a new room. *)
Lemma close_observers_called_once_example :
  (exists cs : list Fn,
     Client.trace (Client._onClose
                     (fold_left Client.onClose [1; 2; 1; 1]%nat Client.new_Room))
     = Client.trace Client.new_Room ++ map Client.CloseCallback cs /\
     NoDup cs /\
     (forall g, In g cs <-> In g (Client._closeCallbacks Client.new_Room)
                            \/ In g [1; 2; 1; 1]%nat)) /\
  (forall f, In f (Client._closeCallbacks Client.new_Room) ->
             Client.onClose Client.new_Room f = Client.new_Room).
Proof.
  apply (close_observers_called_once Client.new_Room [1; 2; 1; 1]%nat).
  constructor.
Defined.

(* ================================================================== *)
(** ** The client: a reason that is the empty string *)
(* ================================================================== *)

(** X19. An Error or CloseReason frame whose text has length 0 - the tag and
    a zero length field - that arrives while the connect attempt is pending
    fulfils the promise: the connect-result callback tests [if (error)], and
    the empty string is falsy. The Error frame still logs the empty text and
    calls the error observers with it, and the CloseReason frame stores the
    empty string as [closeReason]. *)
Theorem empty_reason_fulfils (P : ServerProtocol) (now : Z) (r : Client.Room) :
  byte_tags P -> distinct_tags P ->
  Client._connectResultCallback r = true ->
  Client.connect_promise r = Client.Pending ->
  (exists r',
     Client._onMessage P now r
       [byte_of_Z (SP_Error P); byte_of_Z 0; byte_of_Z 0] = Ok r' /\
     Client.connect_promise r' = Client.Fulfilled /\
     Client.trace r'
     = Client.trace r
       ++ [Client.ConsoleError []; Client.ConnectResultCallback (Some [])]
       ++ map (fun o => Client.ServerErrorCallback o [])
            (Client._serverErrorCallbacks r)) /\
  (exists r',
     Client._onMessage P now r
       [byte_of_Z (SP_CloseReason P); byte_of_Z 0; byte_of_Z 0] = Ok r' /\
     Client.connect_promise r' = Client.Fulfilled /\
     Client._closeReason r' = Some [] /\
     Client.trace r'
     = Client.trace r
       ++ [Client.ConsoleLog []; Client.ConnectResultCallback (Some [])]).
Proof.
  intros Hb Hd Hcb Hp.
  assert (Hwf : forall f, Client.settling_text f = [] -> Client.well_formed f).
  { intros f E. unfold Client.well_formed. rewrite E. split; [constructor | ].
    unfold str_length. simpl. lia. }
  split.
  - change [byte_of_Z (SP_Error P); byte_of_Z 0; byte_of_Z 0]
      with (Client.settling_frame P (Client.Error [])).
    destruct (_onMessage_settling P now r (Client.Error []) Hb Hd
                (Hwf (Client.Error []) eq_refl) Hcb) as (r1 & H1 & Hv).
    destruct (_onMessage_settling_trace P now r (Client.Error []) Hb Hd
                (Hwf (Client.Error []) eq_refl) Hcb) as (r1' & H1' & Ht & _).
    rewrite H1 in H1'. injection H1' as <-.
    view_parts Hv Hp1 Hc1 Hk1 Hr1.
    exists r1. split; [exact H1 | ]. split; [ | exact Ht].
    rewrite Hp1, Hp. reflexivity.
  - change [byte_of_Z (SP_CloseReason P); byte_of_Z 0; byte_of_Z 0]
      with (Client.settling_frame P (Client.CloseReason [])).
    destruct (_onMessage_settling P now r (Client.CloseReason []) Hb Hd
                (Hwf (Client.CloseReason []) eq_refl) Hcb) as (r1 & H1 & Hv).
    destruct (_onMessage_settling_trace P now r (Client.CloseReason []) Hb Hd
                (Hwf (Client.CloseReason []) eq_refl) Hcb) as (r1' & H1' & Ht & _).
    rewrite H1 in H1'. injection H1' as <-.
    view_parts Hv Hp1 Hc1 Hk1 Hr1.
    exists r1. split; [exact H1 | ]. split; [rewrite Hp1, Hp; reflexivity | ].
    split; [exact Hr1 | exact Ht].
Qed.

(** The room of the examples, whose connect attempt is pending. *)
Lemma empty_reason_fulfils_example :
  (exists r',
     Client._onMessage Examples.server_protocol 1001 Examples.connecting
       [byte_of_Z (SP_Error Examples.server_protocol); byte_of_Z 0; byte_of_Z 0]
     = Ok r' /\
     Client.connect_promise r' = Client.Fulfilled /\
     Client.trace r'
     = Client.trace Examples.connecting
       ++ [Client.ConsoleError []; Client.ConnectResultCallback (Some [])]
       ++ map (fun o => Client.ServerErrorCallback o [])
            (Client._serverErrorCallbacks Examples.connecting)) /\
  (exists r',
     Client._onMessage Examples.server_protocol 1001 Examples.connecting
       [byte_of_Z (SP_CloseReason Examples.server_protocol); byte_of_Z 0;
        byte_of_Z 0] = Ok r' /\
     Client.connect_promise r' = Client.Fulfilled /\
     Client._closeReason r' = Some [] /\
     Client.trace r'
     = Client.trace Examples.connecting
       ++ [Client.ConsoleLog []; Client.ConnectResultCallback (Some [])]).
Proof.
  apply (empty_reason_fulfils Examples.server_protocol 1001 Examples.connecting).
  - repeat constructor; simpl; lia.
  - repeat constructor; simpl; intuition discriminate.
  - reflexivity.
  - reflexivity.
Defined.

(* ================================================================== *)
(** ** The server: a broadcast and the sends it stands for *)
(* ================================================================== *)

(** X20. [broadcast] packs the message once and then does what a [send] of
    the same event and data to each session of the registry, in its order,
    would do: the same bytes to the same sessions. When [_packMessage]
    throws, [broadcast] throws the same error whoever is in the room - an
    empty room included - while [send] throws it to a JOINED session only
    and returns silently for any other. *)
Theorem broadcast_is_send_to_each (P : ServerProtocol) (heap : Server.Heap)
  (r : Server.Room) (event : EventId) (data : Content) :
  match _packMessage (SP_UserPacket P) event data with
  | Ok msg =>
      Server.broadcast P heap r event data
      = Ok (flat_map
              (fun entry =>
                 match Server.send P heap r (snd entry) event data with
                 | Ok effects => effects
                 | Throw _ => []
                 end)
              (Server.clients r)) /\
      forall client,
        Server.send P heap r client event data
        = Ok (if Server.is_joined heap client
              then [Server.InternalSend client msg] else [])
  | Throw e =>
      Server.broadcast P heap r event data = Throw e /\
      forall client,
        Server.send P heap r client event data
        = if Server.is_joined heap client then Throw e else Ok []
  end.
Proof.
  unfold Server.broadcast, Server.send, Server.is_joined.
  destruct (_packMessage (SP_UserPacket P) event data) as [msg|e]; cbn [bind].
  - split.
    + f_equal. unfold Server._broadcast. apply flat_map_ext. intros entry.
      destruct (Server.ClientStatus_eq_dec
                  (Server.status (heap (snd entry))) Server.JOINED); reflexivity.
    + intros client.
      destruct (Server.ClientStatus_eq_dec
                  (Server.status (heap client)) Server.JOINED); reflexivity.
  - split; [reflexivity | ]. intros client.
    destruct (Server.ClientStatus_eq_dec
                (Server.status (heap client)) Server.JOINED); reflexivity.
Qed.

(* ================================================================== *)
(** ** The server: handlers under property keys *)
(* ================================================================== *)

Lemma server_onMessage_sets (r r' : Server.Room) (event : EventId) (h : Fn) :
  Server.onMessage r event h = Ok r' ->
  Server._messageHandlers r'
  = property_set (Server._messageHandlers r) (ToPropertyKey event) h.
Proof.
  unfold Server.onMessage. intros H. destruct event as [n|s].
  - destruct ((255 <? n) || (n <? 0)); [discriminate | ].
    injection H as <-. reflexivity.
  - injection H as <-. reflexivity.
Qed.

Lemma property_get_set_plain (inherits : option Fn -> JsString -> bool)
  (o : HandlerObject) (key : JsString) (h : Fn) :
  key <> __proto__ ->
  property_get inherits (property_set o key h) key = Own h.
Proof.
  intros Hk. unfold property_set, property_get.
  destruct (JsString_eq_dec key __proto__) as [E|N]; [contradiction | ].
  cbn [own]. rewrite JsMap_get_set_same. reflexivity.
Qed.

Lemma property_get_set_plain_other (inherits : option Fn -> JsString -> bool)
  (o : HandlerObject) (key key' : JsString) (h : Fn) :
  key <> __proto__ -> key' <> key ->
  property_get inherits (property_set o key h) key' = property_get inherits o key'.
Proof.
  intros Hk Hne. unfold property_set, property_get.
  destruct (JsString_eq_dec key __proto__) as [E|N]; [contradiction | ].
  cbn [own proto]. rewrite JsMap_get_set_other by exact Hne. reflexivity.
Qed.

(** X21. The server's handler table is keyed by property key. On a table
    whose prototype is still [Map.prototype], for any two registrations
    under keys other than [__proto__] and [size]: after [onMessage(e1, h1)]
    and then [onMessage(e2, h2)], the handler found for [e1] is [h2] when the
    two events have the same property key - a number and the string of its
    decimal digits, for one - and [h1] otherwise; the handler found for [e2]
    is [h2]. A UserPacket frame for [e1] is handed to the handler so
    found. *)
Theorem server_handlers_by_property_key
  (inherits : option Fn -> JsString -> bool) (r r1 r2 : Server.Room)
  (e1 e2 : EventId) (h1 h2 : Fn) :
  proto (Server._messageHandlers r) = None ->
  plain_key (ToPropertyKey e1) -> plain_key (ToPropertyKey e2) ->
  Server.onMessage r e1 h1 = Ok r1 ->
  Server.onMessage r1 e2 h2 = Ok r2 ->
  property_get inherits (Server._messageHandlers r2) (ToPropertyKey e1)
  = (if JsString_eq_dec (ToPropertyKey e1) (ToPropertyKey e2)
     then Own h2 else Own h1) /\
  property_get inherits (Server._messageHandlers r2) (ToPropertyKey e2) = Own h2 /\
  proto (Server._messageHandlers r2) = None /\
  (forall n, ToPropertyKey (EvNumber n) = ToPropertyKey (EvString (Number_toString n))) /\
  (forall (client : Server.ClientRef) (kindTag : Z) (d : Content),
     0 <= kindTag <= 255 ->
     Wire.valid_event e1 -> Wire.event_fits e1 ->
     Wire.valid_content d -> Wire.content_encodable d ->
     Server._internalOnUserMessage inherits r2 client
       (Wire.UserPacket kindTag e1 d) 1
     = Ok [Server.HandlerCall
             (if JsString_eq_dec (ToPropertyKey e1) (ToPropertyKey e2)
              then h2 else h1) client d]).
Proof.
  intros Hproto [Hk1 _] [Hk2 _] H1 H2.
  apply server_onMessage_sets in H1. apply server_onMessage_sets in H2.
  assert (Hfirst : property_get inherits (Server._messageHandlers r2)
                     (ToPropertyKey e1)
                   = if JsString_eq_dec (ToPropertyKey e1) (ToPropertyKey e2)
                     then Own h2 else Own h1).
  { rewrite H2, H1.
    destruct (JsString_eq_dec (ToPropertyKey e1) (ToPropertyKey e2)) as [E|N].
    - rewrite E. apply property_get_set_plain. exact Hk2.
    - rewrite property_get_set_plain_other by assumption.
      apply property_get_set_plain. exact Hk1. }
  split; [exact Hfirst | ]. split; [ | split; [ | split; [reflexivity | ]]].
  - rewrite H2. apply property_get_set_plain. exact Hk2.
  - rewrite H2, H1. unfold property_set.
    destruct (JsString_eq_dec (ToPropertyKey e2) __proto__); [contradiction | ].
    destruct (JsString_eq_dec (ToPropertyKey e1) __proto__); [contradiction | ].
    exact Hproto.
  - intros client kindTag d Hk He Hfe Hd Hfd.
    destruct (server_getUserMessageContent_wire
                (byte_of_Z kindTag :: Wire.event e1) d Hd Hfd) as [ref' Hc].
    pose proof (server_readEvent_wire [byte_of_Z kindTag] e1 (Wire.payload d) He Hfe)
      as Hr.
    change ([byte_of_Z kindTag] ++ Wire.event e1 ++ Wire.payload d)
      with (Wire.UserPacket kindTag e1 d) in Hr.
    change (length [byte_of_Z kindTag]) with 1%nat in Hr.
    change ((byte_of_Z kindTag :: Wire.event e1) ++ Wire.payload d)
      with (Wire.UserPacket kindTag e1 d) in Hc.
    change ([byte_of_Z kindTag] ++ Wire.event e1)
      with (byte_of_Z kindTag :: Wire.event e1) in Hr.
    unfold Server._internalOnUserMessage. rewrite Hr. cbn [bind].
    apply (server_dispatch_own inherits r2 client e1 _ _ _ ref' d); [ | exact Hc].
    rewrite Hfirst.
    destruct (JsString_eq_dec (ToPropertyKey e1) (ToPropertyKey e2)); reflexivity.
Qed.

(** The numbers 7 and 8 on the room "r": each keeps its handler. *)
Lemma server_handlers_by_property_key_example :
  property_get (fun _ _ => false)
    (property_set
       (property_set (Server._messageHandlers (Server.new_Room Examples.str_r))
          (ToPropertyKey (EvNumber 7)) 1%nat)
       (ToPropertyKey (EvNumber 8)) 2%nat)
    (ToPropertyKey (EvNumber 7))
  = Own 1%nat.
Proof.
  apply (server_handlers_by_property_key (fun _ _ => false)
           (Server.new_Room Examples.str_r)
           (Server.set_messageHandlers (Server.new_Room Examples.str_r)
              (property_set (Server._messageHandlers (Server.new_Room Examples.str_r))
                 (ToPropertyKey (EvNumber 7)) 1%nat))
           (Server.set_messageHandlers
              (Server.set_messageHandlers (Server.new_Room Examples.str_r)
                 (property_set
                    (Server._messageHandlers (Server.new_Room Examples.str_r))
                    (ToPropertyKey (EvNumber 7)) 1%nat))
              (property_set
                 (property_set
                    (Server._messageHandlers (Server.new_Room Examples.str_r))
                    (ToPropertyKey (EvNumber 7)) 1%nat)
                 (ToPropertyKey (EvNumber 8)) 2%nat))
           (EvNumber 7) (EvNumber 8) 1%nat 2%nat);
    try reflexivity; split; intros H; vm_compute in H; discriminate H.
Defined.

(* ================================================================== *)
(** ** Whole numbers as doubles *)
(* ================================================================== *)

(** Additions, subtractions and comparisons of whole numbers from 0 to below
    2^53 are exact in binary64. The lemmas go through the specification of
    the primitive operations on [spec_float]. *)

Section Binary64Facts.
Import PrimFloat SpecFloat FloatOps FloatAxioms.
Import Binary64.


































End Binary64Facts.

(* ================================================================== *)
(** ** The ticker over doubles *)
(* ================================================================== *)

(** A ticker whose step, clamp and clock readings are whole numbers of
    milliseconds: every operation of a wake is exact. *)

Section Binary64Ticker.
Import PrimFloat SpecFloat FloatOps FloatAxioms.
Import Binary64.

Variables S M : Z.
Hypothesis HS : 0 < S.
Hypothesis HM : 0 <= M.
Hypothesis Hfit : S + M < 2 ^ 53.





End Binary64Ticker.

Section Binary64Claims.
Import PrimFloat SpecFloat FloatOps.
Import Binary64.





Lemma tick_loop_absorbed (fuel : nat) :
  forall t : Ticker,
    step_due t = true ->
    sub (_accumulator t) (_deltaTimeMs t) = _accumulator t ->
    _stopTicking t = false -> _disableBuiltinTicker t = false ->
    tick_loop fuel t = None.
Proof.
  induction fuel as [|fuel IH]; intros t Hdue Habs Hstop Hdis; [reflexivity | ].
  cbn [tick_loop]. rewrite Hdue, Hstop, Hdis. cbn [orb].
  apply IH.
  - unfold step_due in *. cbn [tick_once _accumulator _deltaTimeMs].
    rewrite Habs. exact Hdue.
  - cbn [tick_once _accumulator _deltaTimeMs]. rewrite !Habs. reflexivity.
  - exact Hstop.
  - exact Hdis.
Qed.

(** X10. A step that the accumulator absorbs. When a wake brings the
    accumulator to a value that is at least the step and that subtracting
    the step leaves unchanged - the step is below half the spacing of the
    doubles there - the loop of [_tick] never ends: every pass runs the tick
    hook and finds the accumulator as it was, and no number of passes
    finishes the wake. *)
Theorem absorbed_step_never_returns (t : Ticker) (newTime : float) :
  leb (_deltaTimeMs t)
    (add (_accumulator t)
       (Math_min (_maxAccumulation t) (sub newTime (_lastTime t)))) = true ->
  sub (add (_accumulator t)
         (Math_min (_maxAccumulation t) (sub newTime (_lastTime t))))
    (_deltaTimeMs t)
  = add (_accumulator t)
      (Math_min (_maxAccumulation t) (sub newTime (_lastTime t))) ->
  _stopTicking t = false -> _disableBuiltinTicker t = false ->
  forall fuel : nat, _tick fuel newTime t = None.
Proof.
  intros Hdue Habs Hstop Hdis fuel. unfold _tick.
  rewrite tick_loop_absorbed; [reflexivity | | | | ]; assumption.
Qed.

(** After [setTickRate(1e18)] the step is 1e-15; a wake 25 ms after the
    start. *)
Lemma absorbed_step_never_returns_example :
  _tick 1000 25 ticker_1e18Hz = None.
Proof.
  apply (absorbed_step_never_returns ticker_1e18Hz 25); reflexivity.
Defined.





End Binary64Claims.
